(** * TCP string-search server: a shallow embedding and its properties

    The development follows the Python sources

      - [server/search_algorithms.py]  (loaders and the five search strategies),
      - [server/utils.py]              ([safe_recv]),
      - [server/ssl_utils.py]          ([wrap_socket_if_needed]),
      - [server/main_server.py]        ([Searcher], [TCPServer]),
      - [client.py]                    ([query_string]).

    Python text ([str]) is a list of code points, [bytes] a list of 8-bit
    characters.  Code that may raise lives in an exception monad; code that
    talks to the operating system reads the outcome of each system call from
    an explicit [World] and appends what it did to a trace of events. *)

From Stdlib Require Import ZArith NArith QArith Ascii String Lia PrimFloat.
From Equations Require Import Equations.
From stdpp Require Import base decidable option list sets gmap strings sorting.

#[local] Open Scope nat_scope.
#[local] Open Scope string_scope.
#[local] Open Scope list_scope.

(** ** Python exceptions *)

Module Py.

(** The exception classes that the sources raise or catch. *)
Inductive exc : Set :=
  | Exception
  | OSError
  | FileNotFoundError
  | PermissionError
  | ConnectionError
  | ConnectionResetError
  | BrokenPipeError
  | ConnectionRefusedError
  | socket_timeout
  | socket_gaierror
  | SSLError
  | ValueError
  | UnicodeError
  | UnicodeDecodeError
  | UnicodeEncodeError
  | TypeError
  | LookupError
  | IndexError
  | RuntimeError
  | SubprocessError
  | TimeoutExpired
  | ArithmeticError
  | OverflowError
  | MemoryError.

#[global] Instance exc_eq_dec : EqDecision exc.
Proof. solve_decision. Defined.

(** The direct base class of each exception class, as in CPython 3
    ([socket.timeout], [socket.gaierror] and [ssl.SSLError] derive from
    [OSError]; [subprocess.TimeoutExpired] from [SubprocessError]). *)
Definition base (e : exc) : option exc :=
  match e with
  | Exception => None
  | OSError => Some Exception
  | FileNotFoundError => Some OSError
  | PermissionError => Some OSError
  | ConnectionError => Some OSError
  | ConnectionResetError => Some ConnectionError
  | BrokenPipeError => Some ConnectionError
  | ConnectionRefusedError => Some ConnectionError
  | socket_timeout => Some OSError
  | socket_gaierror => Some OSError
  | SSLError => Some OSError
  | ValueError => Some Exception
  | UnicodeError => Some ValueError
  | UnicodeDecodeError => Some UnicodeError
  | UnicodeEncodeError => Some UnicodeError
  | TypeError => Some Exception
  | LookupError => Some Exception
  | IndexError => Some LookupError
  | RuntimeError => Some Exception
  | SubprocessError => Some Exception
  | TimeoutExpired => Some SubprocessError
  | ArithmeticError => Some Exception
  | OverflowError => Some ArithmeticError
  | MemoryError => Some Exception
  end.

Fixpoint issubclass_upto (depth : nat) (e c : exc) : bool :=
  if bool_decide (e = c) then true
  else match depth with
       | O => false
       | S d => match base e with
                | Some p => issubclass_upto d p c
                | None => false
                end
       end.

(** [isinstance e c]: an exception of class [e] is caught by [except c].
    The hierarchy above has depth 3 below [Exception]. *)
Definition isinstance (e c : exc) : bool := issubclass_upto 4 e c.

(** ** The exception monad *)

Inductive result (A : Type) : Type :=
  | Ret (a : A)
  | Raise (e : exc).
Arguments Ret {A} a.
Arguments Raise {A} e.

#[global] Instance result_ret : MRet result := fun A a => Ret a.
#[global] Instance result_bind : MBind result := fun A B f m =>
  match m with
  | Ret a => f a
  | Raise e => Raise e
  end.

(** [lookup_handler hs e] is the body of the first [except] clause of [hs]
    whose classes match [e]. *)
Fixpoint lookup_handler {H : Type} (hs : list (list exc * H)) (e : exc) : option H :=
  match hs with
  | [] => None
  | (cs, h) :: hs' =>
      if existsb (isinstance e) cs then Some h else lookup_handler hs' e
  end.

End Py.
Export Py.

(** ** Text and bytes *)

(** Python [str]: a sequence of Unicode code points. *)
Abbreviation str := (list N).
(** Python [bytes]. *)
Abbreviation bytes := (list ascii).

Definition LF : ascii := "010"%char.
Definition CR : ascii := "013"%char.
Definition NUL : ascii := "000"%char.

(** A [bytes] literal and a [str] literal (ASCII only). *)
Definition b (s : string) : bytes := list_ascii_of_string s.
Definition u (s : string) : str := N_of_ascii <$> list_ascii_of_string s.

Module Text.

(** [s.rstrip(chars)]: drop every trailing element that satisfies [p]. *)
Fixpoint rstrip {A : Type} (p : A -> bool) (s : list A) : list A :=
  match s with
  | [] => []
  | c :: r =>
      match rstrip p r with
      | [] => if p c then [] else [c]
      | r' => c :: r'
      end
  end.

(** Comparison of two [str] values: lexicographic on code points. *)
Fixpoint str_ltb (x y : str) : bool :=
  match x, y with
  | _, [] => false
  | [], _ :: _ => true
  | c :: x', d :: y' =>
      if (c <? d)%N then true
      else if (c =? d)%N then str_ltb x' y'
      else false
  end.

Definition str_lt (x y : str) : Prop := str_ltb x y = true.
Definition str_le (x y : str) : Prop := str_ltb y x = false.

#[global] Instance str_lt_dec x y : Decision (str_lt x y).
Proof. unfold str_lt. apply _. Defined.
#[global] Instance str_le_dec x y : Decision (str_le x y).
Proof. unfold str_le. apply _. Defined.

(** *** UTF-8 *)

Definition byte_of (n : N) : ascii := ascii_of_N n.

(** One code point of [s.encode("utf-8")]; lone surrogates (and values
    that are not code points at all) are refused with [UnicodeEncodeError]. *)
Definition encode_cp (c : N) : result bytes :=
  (if c <? 0x80 then Ret [byte_of c]
   else if c <? 0x800 then
     Ret [byte_of (0xC0 + c / 0x40); byte_of (0x80 + c mod 0x40)]
   else if (0xD800 <=? c) && (c <? 0xE000) then Raise UnicodeEncodeError
   else if c <? 0x10000 then
     Ret [byte_of (0xE0 + c / 0x1000); byte_of (0x80 + (c / 0x40) mod 0x40);
          byte_of (0x80 + c mod 0x40)]
   else if c <? 0x110000 then
     Ret [byte_of (0xF0 + c / 0x40000); byte_of (0x80 + (c / 0x1000) mod 0x40);
          byte_of (0x80 + (c / 0x40) mod 0x40); byte_of (0x80 + c mod 0x40)]
   else Raise UnicodeEncodeError)%N.

Fixpoint encode_utf8 (s : str) : result bytes :=
  match s with
  | [] => Ret []
  | c :: s' =>
      match encode_cp c with
      | Raise e => Raise e
      | Ret bs => match encode_utf8 s' with
                  | Raise e => Raise e
                  | Ret r => Ret (bs ++ r)
                  end
      end
  end.

Definition REPLACEMENT : N := 0xFFFD%N.
Definition is_cont (c : N) : bool := ((0x80 <=? c) && (c <? 0xC0))%N.

(** [data.decode("utf-8", errors="replace")]: every maximal ill-formed
    prefix becomes one U+FFFD, and decoding goes on after it. *)
Fixpoint decode_utf8_replace (s : bytes) : str :=
  match s with
  | [] => []
  | a1 :: r1 =>
    let c1 := N_of_ascii a1 in
    (if c1 <? 0x80 then c1 :: decode_utf8_replace r1
     else if c1 <? 0xC2 then REPLACEMENT :: decode_utf8_replace r1
     else if c1 <? 0xE0 then
       match r1 with
       | [] => [REPLACEMENT]
       | a2 :: r2 =>
         let c2 := N_of_ascii a2 in
         if is_cont c2
         then ((c1 - 0xC0) * 0x40 + (c2 - 0x80)) :: decode_utf8_replace r2
         else REPLACEMENT :: decode_utf8_replace r1
       end
     else if c1 <? 0xF0 then
       match r1 with
       | [] => [REPLACEMENT]
       | a2 :: r2 =>
         let c2 := N_of_ascii a2 in
         if negb (is_cont c2)
            || (if c2 <? 0xA0 then c1 =? 0xE0 else c1 =? 0xED)
         then REPLACEMENT :: decode_utf8_replace r1
         else
           match r2 with
           | [] => [REPLACEMENT]
           | a3 :: r3 =>
             let c3 := N_of_ascii a3 in
             if is_cont c3
             then ((c1 - 0xE0) * 0x1000 + (c2 - 0x80) * 0x40 + (c3 - 0x80))
                    :: decode_utf8_replace r3
             else REPLACEMENT :: decode_utf8_replace r2
           end
       end
     else if c1 <? 0xF5 then
       match r1 with
       | [] => [REPLACEMENT]
       | a2 :: r2 =>
         let c2 := N_of_ascii a2 in
         if negb (is_cont c2)
            || (if c2 <? 0x90 then c1 =? 0xF0 else c1 =? 0xF4)
         then REPLACEMENT :: decode_utf8_replace r1
         else
           match r2 with
           | [] => [REPLACEMENT]
           | a3 :: r3 =>
             let c3 := N_of_ascii a3 in
             if negb (is_cont c3) then REPLACEMENT :: decode_utf8_replace r2
             else
               match r3 with
               | [] => [REPLACEMENT]
               | a4 :: r4 =>
                 let c4 := N_of_ascii a4 in
                 if is_cont c4
                 then ((c1 - 0xF0) * 0x40000 + (c2 - 0x80) * 0x1000
                       + (c3 - 0x80) * 0x40 + (c4 - 0x80))
                        :: decode_utf8_replace r4
                 else REPLACEMENT :: decode_utf8_replace r3
               end
           end
       end
     else REPLACEMENT :: decode_utf8_replace r1)%N
  end.

(** *** Text-mode reading *)

(** Universal newlines, the default of [open(path, "r")]: [\r\n] and a lone
    [\r] both read as [\n]. *)
Fixpoint universal_newlines (s : str) : str :=
  match s with
  | [] => []
  | c :: r =>
      if (c =? 13)%N then
        match r with
        | d :: r' => if (d =? 10)%N then 10%N :: universal_newlines r'
                     else 10%N :: universal_newlines r
        | [] => [10%N]
        end
      else c :: universal_newlines r
  end.

(** Iterating a text file: the lines, each with its terminating [\n]; the
    last one has none when the file does not end in a newline. *)
Fixpoint iter_lines (cur : str) (s : str) : list str :=
  match s with
  | [] => match cur with [] => [] | _ => [cur] end
  | c :: r =>
      if (c =? 10)%N then (cur ++ [c]) :: iter_lines [] r
      else iter_lines (cur ++ [c]) r
  end.

Definition is_LF (c : N) : bool := (c =? 10)%N.
Definition is_CRLF (c : N) : bool := (c =? 13)%N || (c =? 10)%N.

End Text.
Export Text.

(** ** Values a Python list may hold *)

(** [binary_search_sorted] is annotated for lists of [str], but Python does
    not enforce the annotation; the other shapes are what makes a comparison
    raise [TypeError]. *)
Inductive pyval : Type :=
  | PStr (s : str)
  | PInt (z : Z)
  | PNone.

#[global] Instance pyval_eq_dec : EqDecision pyval.
Proof. solve_decision. Defined.

(** [a < b] *)
Definition py_lt (a c : pyval) : result bool :=
  match a, c with
  | PStr x, PStr y => Ret (str_ltb x y)
  | PInt x, PInt y => Ret (x <? y)%Z
  | _, _ => Raise TypeError
  end.

(** [a == b] never raises on these values. *)
Definition py_eq (a c : pyval) : bool := bool_decide (a = c).

(** [a[i]] for a non-negative index. *)
Definition getitem {A : Type} (a : list A) (i : nat) : result A :=
  match a !! i with
  | Some v => Ret v
  | None => Raise IndexError
  end.

(** ** [bisect.bisect_left]

    <<
    while lo < hi:
        mid = (lo + hi) // 2
        if a[mid] < x: lo = mid + 1
        else: hi = mid
    return lo
    >> *)
Equations? bisect_loop (a : list pyval) (x : pyval) (lo hi : nat) : result nat
  by wf (hi - lo) lt :=
  bisect_loop a x lo hi with decide (lo < hi) := {
    | right _ => Ret lo
    | left Hlt with getitem a ((lo + hi) `div` 2) := {
        | Raise e => Raise e
        | Ret v with py_lt v x := {
            | Raise e => Raise e
            | Ret true => bisect_loop a x ((lo + hi) `div` 2 + 1) hi
            | Ret false => bisect_loop a x lo ((lo + hi) `div` 2) } } }.
Proof.
  all: change (Nat.divmod (lo + hi) 1 0 1).1 with ((lo + hi) `div` 2).
  all: assert ((lo + hi) `div` 2 < hi)
    by (apply Nat.Div0.div_lt_upper_bound; lia).
  all: assert (lo <= (lo + hi) `div` 2)
    by (apply Nat.div_le_lower_bound; lia).
  all: lia.
Qed.

Definition bisect_left (a : list pyval) (x : pyval) : result nat :=
  bisect_loop a x 0 (length a).

(** ** The world outside the process *)

Inductive level : Set := DEBUG | INFO | WARNING | ERROR.

(** What the process does to the world, in program order. *)
Inductive event : Type :=
  | EvLog (l : level) (fmt : string)
  | EvDebugQuery (query : str)
  | EvExists (path : string)
  | EvGetsize (path : string)
  | EvOpenText (path : string)
  | EvMmap (path : string)
  | EvMmapClose
  | EvRun (argv : list str) (timeout : Q)
  | EvBind (host : string) (port : Z)
  | EvListen (backlog : nat)
  | EvLoadCertChain (certfile keyfile : string)
  | EvWrapSocket (options : Z)
  | EvAccept
  | EvThreadStart
  | EvConnect (host : string) (port : Z)
  | EvClientTLS
  | EvRecv (max_len : Z)
  | EvSendall (data : bytes)
  | EvShutdown
  | EvClose
  | EvPerfCounter.

(** One path of the file system: what [os.path.exists], [os.path.getsize]
    and opening-and-reading the file answer.  The three are independent, so
    that a file that changes between two calls is covered. *)
Record fsnode : Type := {
  n_exists : bool;
  n_getsize : result nat;
  n_read : result bytes
}.

Definition regular_file (data : bytes) : fsnode :=
  {| n_exists := true; n_getsize := Ret (length data); n_read := Ret data |}.
Definition no_file : fsnode :=
  {| n_exists := false;
     n_getsize := Raise FileNotFoundError;
     n_read := Raise FileNotFoundError |}.
Definition unreadable_file (size : nat) : fsnode :=
  {| n_exists := true; n_getsize := Ret size; n_read := Raise PermissionError |}.

(** One turn of the accept loop: what [accept()] does, and whether the stop
    flag is set by the time its error is handled. *)
Inductive accept_step : Set :=
  | Accepted
  | AcceptFails (e : exc) (stop_is_set : bool).

Record World : Type := {
  w_fs : string -> fsnode;
  (** [subprocess.run(argv, timeout=...)]: the exit status, or what it raises *)
  w_run : list str -> result Z;
  (** the listening socket *)
  w_bind : result unit;
  w_listen : result unit;
  w_ssl_default_options : Z;
  w_load_cert_chain : string -> string -> result unit;
  w_wrap_socket : result unit;
  (** the accept loop runs through this script, then sees the stop flag set *)
  w_accepts : list accept_step;
  (** the connected socket at hand *)
  w_client_tls : result unit;
  w_connect : result unit;
  (** [recv], once its size argument is accepted: the bytes that have
      arrived, or what it raises (an error of the socket, [MemoryError] when
      the buffer cannot be allocated) *)
  w_recv : result bytes;
  w_sendall : bytes -> result unit;
  w_shutdown : result unit;
  w_close : result unit;
  (** [time.perf_counter()], by call number: a Python [float], that is an
      IEEE 754 binary64 number *)
  w_perf_counter : nat -> float
}.

(** ** The effect monad: read the world, log the events, maybe raise *)

Definition M (A : Type) : Type := World -> result A * list event.

#[global] Instance M_ret : MRet M := fun A a _ => (Ret a, []).
#[global] Instance M_bind : MBind M := fun A B f m w =>
  match m w with
  | (Ret a, t) => let '(r, t') := f a w in (r, t ++ t')
  | (Raise e, t) => (Raise e, t)
  end.

Definition lift {A : Type} (r : result A) : M A := fun _ => (r, []).
Definition raise {A : Type} (e : exc) : M A := fun _ => (Raise e, []).
Definition syscall {A : Type} (ev : event) (f : World -> result A) : M A :=
  fun w => (f w, [ev]).
Definition log (l : level) (fmt : string) : M unit :=
  fun _ => (Ret tt, [EvLog l fmt]).

(** [try: m  except cs1 as e: h1 e  except cs2 as e: h2 e ...] *)
Definition try_ {A : Type} (m : M A) (hs : list (list exc * (exc -> M A))) : M A :=
  fun w =>
    match m w with
    | (Ret a, t) => (Ret a, t)
    | (Raise e, t) =>
        match lookup_handler hs e with
        | Some h => let '(r, t') := h e w in (r, t ++ t')
        | None => (Raise e, t)
        end
    end.

(** [try: m  finally: fin] *)
Definition finally_ {A : Type} (m : M A) (fin : M unit) : M A :=
  fun w =>
    let '(r, t) := m w in
    match fin w with
    | (Ret _, t') => (r, t ++ t')
    | (Raise e, t') => (Raise e, t ++ t')
    end.

Definition IOError : exc := OSError.

(** ** server/search_algorithms.py *)

Module sa.

(** [for line in f] under [open(path, "r", encoding="utf-8", errors="replace")] *)
Definition read_text_lines (path : string) : M (list str) :=
  data ← syscall (EvOpenText path) (fun w => n_read (w_fs w path));
  mret (iter_lines [] (universal_newlines (decode_utf8_replace data))).

Definition load_lines_list (path : string) : M (list str) :=
  try_ (f ← read_text_lines path;
        mret ((fun line => rstrip is_LF line) <$> f))
    [ ([FileNotFoundError], fun e =>
         log ERROR "File not found: %s";; raise e);
      ([PermissionError], fun e =>
         log ERROR "Permission denied reading %s";; raise e);
      ([OSError; IOError], fun e =>
         log ERROR "IO error while reading %s: %s";; raise e) ].

Definition load_lines_set (path : string) : M (gset str) :=
  try_ (f ← read_text_lines path;
        mret (list_to_set ((fun line => rstrip is_LF line) <$> f)))
    [ ([FileNotFoundError], fun e =>
         log ERROR "File not found: %s";; raise e);
      ([PermissionError], fun e =>
         log ERROR "Permission denied reading %s";; raise e);
      ([OSError; IOError], fun e =>
         log ERROR "IO error while reading %s: %s";; raise e) ].

(** [hay.find(sub)]: the lowest index where [sub] starts, or -1. *)
Fixpoint starts_with (hay sub : bytes) : bool :=
  match sub, hay with
  | [], _ => true
  | _ :: _, [] => false
  | c :: sub', d :: hay' => bool_decide (c = d) && starts_with hay' sub'
  end.

Fixpoint find_from (i : nat) (hay sub : bytes) : Z :=
  if starts_with hay sub then Z.of_nat i
  else match hay with
       | [] => (-1)%Z
       | _ :: hay' => find_from (S i) hay' sub
       end.

Definition find (hay sub : bytes) : Z := find_from 0 hay sub.

Definition os_path_exists (path : string) : M bool :=
  syscall (EvExists path) (fun w => Ret (n_exists (w_fs w path))).
Definition os_path_getsize (path : string) : M nat :=
  syscall (EvGetsize path) (fun w => n_getsize (w_fs w path)).

(** [open(path, "rb")] then [mmap.mmap(f.fileno(), 0, access=ACCESS_READ)];
    mapping an empty file raises [ValueError]. *)
Definition mmap_open (path : string) : M bytes :=
  syscall (EvMmap path) (fun w =>
    match n_read (w_fs w path) with
    | Ret [] => Raise ValueError
    | Ret data => Ret data
    | Raise e => Raise e
    end).
Definition mmap_close : M unit := syscall EvMmapClose (fun _ => Ret tt).

Definition mmap_search (path : string) (needle : str) : M bool :=
  ex ← os_path_exists path;
  if negb ex then
    log ERROR "Dataset file missing: %s";; mret false
  else
    size ← os_path_getsize path;
    if (size =? 0)%nat then mret false
    else
      needle_bytes ← lift (encode_utf8 (needle ++ [10%N]));
      try_ (mm ← mmap_open path;
            finally_ (mret (negb (find mm needle_bytes =? -1)%Z)) mmap_close)
        [ ([FileNotFoundError], fun _ =>
             log ERROR "File not found during mmap: %s";; mret false);
          ([PermissionError], fun _ =>
             log ERROR "Permission denied for mmap on %s";; mret false);
          ([OSError; ValueError], fun _ =>
             log ERROR "mmap search failed on %s: %s";; mret false) ].

Definition binary_search_sorted (lines : list pyval) (needle : pyval) : M bool :=
  try_ (i ← lift (bisect_left lines needle);
        if negb (i =? length lines)%nat then
          v ← lift (getitem lines i);
          mret (py_eq v needle)
        else mret false)
    [ ([TypeError], fun _ =>
         log ERROR "Binary search type error (list not comparable): %s";;
         mret false);
      ([IndexError], fun _ =>
         log ERROR "Binary search index error: %s";; mret false) ].

Definition subprocess_run (argv : list str) (timeout : Q) : M Z :=
  syscall (EvRun argv timeout) (fun w => w_run w argv).

Definition grep_argv (path : string) (needle : str) : list str :=
  [u "grep"; u "-x"; u "--"; needle; u path].

Definition grep_subprocess (path : string) (needle : str) : M bool :=
  ex ← os_path_exists path;
  if negb ex then
    log ERROR "Dataset file not found for grep: %s";; mret false
  else
    try_ (returncode ← subprocess_run (grep_argv path needle) 5;
          mret (returncode =? 0)%Z)
      [ ([FileNotFoundError], fun _ =>
           log WARNING "grep not available on system; skipping grep_subprocess";;
           mret false);
        ([TimeoutExpired], fun _ =>
           log ERROR "grep subprocess timed out for query: %s";; mret false);
        ([OSError; SubprocessError], fun _ =>
           log ERROR "Subprocess grep failed: %s";; mret false) ].

End sa.

(** ** server/utils.py *)

(** The range of C's [ssize_t] on the 64-bit builds of CPython, and the
    size of the header of a [bytes] object there. *)
Definition SSIZE_MIN : Z := (- 2 ^ 63)%Z.
Definition SSIZE_MAX : Z := (2 ^ 63 - 1)%Z.
Definition PyBytesObject_SIZE : Z := 33%Z.

(** The largest buffer size that [recv] accepts. *)
Definition RECV_MAX : Z := (SSIZE_MAX - PyBytesObject_SIZE)%Z.

(** [sock.recv(max_len)], in the order of CPython's [sock_recv]: the size is
    converted to a C [ssize_t], which raises [OverflowError] outside the
    range of that type; a negative size is refused with [ValueError]; the
    [bytes] object for the result is created, which raises [OverflowError]
    when size and header do not fit into a [ssize_t]; only then is the
    socket touched, and at most [max_len] of the bytes that have arrived
    come back. *)
Definition sock_recv (max_len : Z) : M bytes :=
  syscall (EvRecv max_len) (fun w =>
    if (max_len <? SSIZE_MIN)%Z || (SSIZE_MAX <? max_len)%Z
    then Raise OverflowError
    else if (max_len <? 0)%Z then Raise ValueError
    else if (RECV_MAX <? max_len)%Z then Raise OverflowError
    else match w_recv w with
         | Ret data => Ret (take (Z.to_nat max_len) data)
         | Raise e => Raise e
         end).

Definition is_NUL (c : ascii) : bool := bool_decide (c = NUL).

Definition safe_recv (max_len : Z) : M bytes :=
  data ← sock_recv max_len;
  mret (rstrip is_NUL data).

(** [LOG.debug("query=%s ip=%s time=%s exec_ms=%.3f", query, ...)] *)
Definition debug_log (query : str) : M unit :=
  fun _ => (Ret tt, [EvDebugQuery query]).

(** ** server/ssl_utils.py *)

Inductive socket : Type :=
  | PlainSocket
  | SSLSocket (options : Z).

Definition OP_NO_TLSv1 : Z := 0x04000000.
Definition OP_NO_TLSv1_1 : Z := 0x10000000.

(** The context is represented by its [options] word. *)
Definition create_server_ssl_context (certfile keyfile : string) : M Z :=
  ctx ← syscall (EvLoadCertChain certfile keyfile) (fun w =>
           match w_load_cert_chain w certfile keyfile with
           | Ret _ => Ret (w_ssl_default_options w)
           | Raise e => Raise e
           end);
  mret (Z.lor ctx (Z.lor OP_NO_TLSv1 OP_NO_TLSv1_1)).

(** Python truth value of an [Optional[str]]. *)
Definition truthy (o : option string) : bool :=
  match o with
  | None => false
  | Some s => negb (bool_decide (s = ""))
  end.

Definition wrap_socket_if_needed (sock : socket) (ssl_enabled : bool)
    (certfile keyfile : option string) : M socket :=
  if negb ssl_enabled then mret sock
  else if negb (truthy certfile) || negb (truthy keyfile) then raise RuntimeError
  else
    ctx ← create_server_ssl_context (default "" certfile) (default "" keyfile);
    syscall (EvWrapSocket ctx) (fun w =>
      match w_wrap_socket w with
      | Ret _ => Ret (SSLSocket ctx)
      | Raise e => Raise e
      end).

(** ** server/main_server.py *)

Definition DEFAULT_MAX_PAYLOAD : Z := 1024.

Record Config : Type := {
  linuxpath : string;
  reread_on_query : bool;
  ssl_enabled : bool;
  ssl_certfile : option string;
  ssl_keyfile : option string;
  host : string;
  port : Z;
  max_payload : Z;
  default_algorithm : string
}.

(** *** class Searcher *)

Record Searcher : Type := {
  cfg : Config;
  _cached_set : option (gset str);
  _cached_list : option (list str);
  _cached_sorted : option (list str)
}.

(** [sorted(lines)] *)
Definition sorted (lines : list str) : list str := merge_sort str_le lines.

Definition is_alg (c : Config) (name : string) : bool :=
  bool_decide (default_algorithm c = name).

Definition _preload (self : Searcher) : M Searcher :=
  let path := linuxpath (cfg self) in
  try_ (if is_alg (cfg self) "set" then
          s ← sa.load_lines_set path;
          mret {| cfg := cfg self; _cached_set := Some s;
                  _cached_list := _cached_list self;
                  _cached_sorted := _cached_sorted self |}
        else if is_alg (cfg self) "list" then
          l ← sa.load_lines_list path;
          mret {| cfg := cfg self; _cached_set := _cached_set self;
                  _cached_list := Some l;
                  _cached_sorted := _cached_sorted self |}
        else if is_alg (cfg self) "binary" then
          l ← sa.load_lines_list path;
          mret {| cfg := cfg self; _cached_set := _cached_set self;
                  _cached_list := _cached_list self;
                  _cached_sorted := Some (sorted l) |}
        else
          s ← sa.load_lines_set path;
          mret {| cfg := cfg self; _cached_set := Some s;
                  _cached_list := _cached_list self;
                  _cached_sorted := _cached_sorted self |})
    [ ([FileNotFoundError], fun _ =>
         log ERROR "Dataset file not found: %s";; mret self);
      ([PermissionError], fun _ =>
         log ERROR "Permission denied reading dataset: %s";; mret self);
      ([OSError; IOError], fun _ =>
         log ERROR "Error loading dataset file %s: %s";; mret self) ].

(** [Searcher.__init__] *)
Definition Searcher_init (c : Config) : M Searcher :=
  let self := {| cfg := c; _cached_set := None; _cached_list := None;
                 _cached_sorted := None |} in
  if negb (reread_on_query c) then _preload self else mret self.

Definition search (self : Searcher) (needle : str) : M bool :=
  let path := linuxpath (cfg self) in
  try_ (if reread_on_query (cfg self) then
          if is_alg (cfg self) "set" then
            s ← sa.load_lines_set path;
            mret (bool_decide (needle ∈ s))
          else if is_alg (cfg self) "list" then
            l ← sa.load_lines_list path;
            mret (bool_decide (needle ∈ l))
          else if is_alg (cfg self) "mmap" then
            sa.mmap_search path needle
          else if is_alg (cfg self) "binary" then
            l ← sa.load_lines_list path;
            sa.binary_search_sorted (PStr <$> sorted l) (PStr needle)
          else
            sa.mmap_search path needle
        else
          match _cached_set self, _cached_list self, _cached_sorted self with
          | Some s, _, _ => mret (bool_decide (needle ∈ s))
          | None, Some l, _ => mret (bool_decide (needle ∈ l))
          | None, None, Some l =>
              sa.binary_search_sorted (PStr <$> l) (PStr needle)
          | None, None, None => sa.mmap_search path needle
          end)
    [ ([FileNotFoundError], fun _ =>
         log ERROR "Dataset file not found during search: %s";; mret false);
      ([PermissionError], fun _ =>
         log ERROR "Permission denied accessing dataset during search: %s";;
         mret false);
      ([OSError; IOError], fun _ =>
         log ERROR "IO error during search for query %r: %s";; mret false);
      ([TypeError; ValueError], fun _ =>
         log ERROR "Invalid data type in search for query %r: %s";;
         mret false) ].

(** *** class TCPServer *)

Record TCPServer : Type := {
  srv_cfg : Config;
  sock : socket;
  searcher : Searcher
}.

(** [TCPServer.__init__] *)
Definition TCPServer_init (c : Config) : M TCPServer :=
  sr ← Searcher_init c;
  mret {| srv_cfg := c; sock := PlainSocket; searcher := sr |}.

Definition sock_bind (h : string) (p : Z) : M unit :=
  syscall (EvBind h p) w_bind.
Definition sock_listen (backlog : nat) : M unit :=
  syscall (EvListen backlog) w_listen.
Definition sock_accept (st : accept_step) : M unit :=
  syscall EvAccept (fun _ =>
    match st with
    | Accepted => Ret tt
    | AcceptFails e _ => Raise e
    end).
Definition thread_start : M unit := syscall EvThreadStart (fun _ => Ret tt).
Definition sock_sendall (data : bytes) : M unit :=
  syscall (EvSendall data) (fun w => w_sendall w data).
Definition sock_shutdown : M unit := syscall EvShutdown w_shutdown.
Definition sock_close : M unit := syscall EvClose w_close.

Definition stop_seen (st : accept_step) : bool :=
  match st with
  | Accepted => false
  | AcceptFails _ s => s
  end.

(** [while not self.should_stop.is_set(): ...], one turn per script entry. *)
Fixpoint accept_loop (script : list accept_step) : M unit :=
  match script with
  | [] => mret tt
  | st :: rest =>
      try_ (sock_accept st;; thread_start)
        [ ([socket_timeout], fun _ => mret tt);
          ([OSError], fun _ =>
             if negb (stop_seen st) then log WARNING "Accept error: %s"
             else mret tt) ];;
      accept_loop rest
  end.

Definition start (self : TCPServer) : M unit :=
  let c := srv_cfg self in
  log INFO "Starting server on %s:%d SSL=%s";;
  ready ← try_ (sock_bind (host c) (port c);;
                sock_listen 50;;
                (if ssl_enabled c then
                   wrap_socket_if_needed (sock self) true
                     (ssl_certfile c) (ssl_keyfile c);; mret tt
                 else mret tt);;
                mret true)
            [ ([PermissionError], fun _ =>
                 log ERROR "Permission denied binding to %s:%d";; mret false);
              ([OSError], fun _ =>
                 log ERROR "Failed to bind server socket: %s";; mret false);
              ([SSLError], fun _ =>
                 log ERROR "SSL error during socket setup: %s";; mret false) ];
  if ready : bool then
    finally_ (fun w => accept_loop (w_accepts w) w)
      (try_ sock_close [ ([OSError], fun _ => mret tt) ])
  else mret tt.

Definition STRING_EXISTS : bytes := b "STRING EXISTS" ++ [LF].
Definition STRING_NOT_FOUND : bytes := b "STRING NOT FOUND" ++ [LF].

(** The normalisation of the request inside [_handle_client]:
    [raw.decode("utf-8", errors="replace").rstrip("\r\n")]. *)
Definition decode_query (raw : bytes) : str :=
  rstrip is_CRLF (decode_utf8_replace raw).

Definition _handle_client (self : TCPServer) : M unit :=
  finally_
    (try_ (raw ← safe_recv (max_payload (srv_cfg self));
           query ← try_ (mret (decode_query raw))
                     [ ([UnicodeDecodeError], fun _ =>
                          log WARNING "Invalid UTF-8 from %s";; mret []) ];
           found ← search (searcher self) query;
           debug_log query;;
           try_ (if found : bool then sock_sendall STRING_EXISTS
                 else sock_sendall STRING_NOT_FOUND)
             [ ([BrokenPipeError], fun _ =>
                  log WARNING "Connection broken before response sent: %s");
               ([ConnectionResetError], fun _ =>
                  log WARNING "Connection reset by peer: %s");
               ([OSError], fun _ =>
                  log WARNING "Socket error sending response to %s: %s") ])
       [ ([socket_timeout], fun _ => log WARNING "Timeout handling client %s");
         ([ConnectionResetError], fun _ =>
            log WARNING "Connection reset by client %s");
         ([BrokenPipeError], fun _ => log WARNING "Broken pipe with client %s");
         ([SSLError], fun _ => log ERROR "SSL error with client %s: %s");
         ([OSError], fun _ => log ERROR "Socket error with client %s: %s");
         ([UnicodeDecodeError], fun _ =>
            log ERROR "Unicode decode error from client %s: %s");
         ([ValueError], fun _ =>
            log ERROR "Value error handling client %s: %s") ])
    (try_ sock_shutdown [ ([OSError], fun _ => mret tt) ];;
     try_ sock_close [ ([OSError], fun _ => mret tt) ]).

(** ** client.py *)

Module client.

Definition DEFAULT_MAX : nat := 1024.

Definition perf_counter (k : nat) : M float :=
  syscall EvPerfCounter (fun w => Ret (w_perf_counter w k)).

(** [ssl.create_default_context()], the verification setup and
    [ctx.wrap_socket(sock, server_hostname=host)], as one step. *)
Definition client_tls : M unit := syscall EvClientTLS w_client_tls.

(** [(False, 0.0, b"")] *)
Definition failure : bool * float * bytes := (false, 0%float, []).

(** [(t1 - t0) * 1000.0] in the arithmetic of [float]: each operation rounds
    to the nearest binary64 number. *)
Definition elapsed_ms (t0 t1 : float) : float :=
  PrimFloat.mul (PrimFloat.sub t1 t0) 1000%float.

Definition query_string (h : string) (p : Z) (s : str) (use_ssl : bool)
    (certfile : option string) : M (bool * float * bytes) :=
  early ← (if use_ssl then
             try_ (client_tls;; mret None)
               [ ([SSLError], fun _ =>
                    log ERROR "SSL context creation failed: %s";;
                    mret (Some failure));
                 ([FileNotFoundError], fun _ =>
                    log ERROR "SSL certificate file not found: %s";;
                    mret (Some failure)) ]
           else mret None);
  match early with
  | Some r => mret r
  | None =>
    finally_
      (try_ (syscall (EvConnect h p) w_connect;;
             payload ← lift (encode_utf8 s);
             (if (DEFAULT_MAX <? length payload)%nat
              then raise ValueError else mret tt);;
             t0 ← perf_counter 0;
             sock_sendall payload;;
             data ← sock_recv (Z.of_nat DEFAULT_MAX);
             t1 ← perf_counter 1;
             let elapsed := elapsed_ms t0 t1 in
             mret (negb (sa.find data (b "STRING EXISTS") =? -1)%Z, elapsed, data))
         [ ([ConnectionRefusedError], fun _ =>
              log ERROR "Connection refused by server at %s:%d";; mret failure);
           ([socket_timeout], fun _ =>
              log ERROR "Connection timed out to %s:%d";; mret failure);
           ([ConnectionResetError], fun _ =>
              log ERROR "Connection reset by server at %s:%d";; mret failure);
           ([BrokenPipeError], fun _ =>
              log ERROR "Broken pipe connecting to %s:%d";; mret failure);
           ([SSLError], fun _ => log ERROR "SSL error: %s";; mret failure);
           ([socket_gaierror], fun _ =>
              log ERROR "Address resolution error for %s: %s";; mret failure);
           ([ValueError], fun _ => log ERROR "Value error: %s";; mret failure);
           ([OSError], fun _ => log ERROR "Socket error: %s";; mret failure) ])
      (try_ sock_close [ ([OSError], fun _ => mret tt) ])
  end.

End client.

(** ** Sample worlds *)

Definition quiet_world : World :=
  {| w_fs := fun _ => no_file;
     w_run := fun _ => Raise FileNotFoundError;
     w_bind := Ret tt;
     w_listen := Ret tt;
     w_ssl_default_options := 0;
     w_load_cert_chain := fun _ _ => Ret tt;
     w_wrap_socket := Ret tt;
     w_accepts := [];
     w_client_tls := Ret tt;
     w_connect := Ret tt;
     w_recv := Ret [];
     w_sendall := fun _ => Ret tt;
     w_shutdown := Ret tt;
     w_close := Ret tt;
     w_perf_counter := fun k => match k with
                                | O => 0x1.999999999999ap-4%float
                                | _ => 0x1.3333333333333p-2%float
                                end |}.

(** [quiet_world] with one file at [path]. *)
Definition with_file (w : World) (path : string) (node : fsnode) : World :=
  {| w_fs := fun q => if bool_decide (q = path) then node else w_fs w q;
     w_run := w_run w;
     w_bind := w_bind w;
     w_listen := w_listen w;
     w_ssl_default_options := w_ssl_default_options w;
     w_load_cert_chain := w_load_cert_chain w;
     w_wrap_socket := w_wrap_socket w;
     w_accepts := w_accepts w;
     w_client_tls := w_client_tls w;
     w_connect := w_connect w;
     w_recv := w_recv w;
     w_sendall := w_sendall w;
     w_shutdown := w_shutdown w;
     w_close := w_close w;
     w_perf_counter := w_perf_counter w |}.

Definition with_recv (w : World) (r : result bytes) : World :=
  {| w_fs := w_fs w;
     w_run := w_run w;
     w_bind := w_bind w;
     w_listen := w_listen w;
     w_ssl_default_options := w_ssl_default_options w;
     w_load_cert_chain := w_load_cert_chain w;
     w_wrap_socket := w_wrap_socket w;
     w_accepts := w_accepts w;
     w_client_tls := w_client_tls w;
     w_connect := w_connect w;
     w_recv := r;
     w_sendall := w_sendall w;
     w_shutdown := w_shutdown w;
     w_close := w_close w;
     w_perf_counter := w_perf_counter w |}.

Definition with_run (w : World) (r : list str -> result Z) : World :=
  {| w_fs := w_fs w;
     w_run := r;
     w_bind := w_bind w;
     w_listen := w_listen w;
     w_ssl_default_options := w_ssl_default_options w;
     w_load_cert_chain := w_load_cert_chain w;
     w_wrap_socket := w_wrap_socket w;
     w_accepts := w_accepts w;
     w_client_tls := w_client_tls w;
     w_connect := w_connect w;
     w_recv := w_recv w;
     w_sendall := w_sendall w;
     w_shutdown := w_shutdown w;
     w_close := w_close w;
     w_perf_counter := w_perf_counter w |}.

Definition mk_config (path alg : string) (reread : bool) : Config :=
  {| linuxpath := path; reread_on_query := reread; ssl_enabled := false;
     ssl_certfile := None; ssl_keyfile := None; host := "0.0.0.0";
     port := 44445; max_payload := DEFAULT_MAX_PAYLOAD;
     default_algorithm := alg |}.

(** The three-line dataset of the unit tests. *)
Definition fruit : bytes :=
  b "apple" ++ [LF] ++ b "banana" ++ [LF] ++ b "cherry" ++ [LF].

Definition fruit_world : World := with_file quiet_world "data.txt" (regular_file fruit).

(** Build the Searcher in [w0], then ask it in [w1]. *)
Definition build_then_search (c : Config) (w0 w1 : World) (needle : str)
    : result bool :=
  match Searcher_init c w0 with
  | (Ret sr, _) => (search sr needle w1).1
  | (Raise e, _) => Raise e
  end.

(** ** Vocabulary of the statements *)

(** The lines of a dataset file as the text-mode loaders see them. *)
Definition file_lines (data : bytes) : list str :=
  (fun line => rstrip is_LF line)
    <$> iter_lines [] (universal_newlines (decode_utf8_replace data)).

(** The payloads handed to [sendall], in order. *)
Definition sent (t : list event) : list bytes :=
  omap (fun ev => match ev with EvSendall d => Some d | _ => None end) t.

(** Events of the file system and of the log only. *)
Definition fs_event (ev : event) : bool :=
  match ev with
  | EvLog _ _ | EvExists _ | EvGetsize _ | EvOpenText _ | EvMmap _
  | EvMmapClose => true
  | _ => false
  end.


(** Every event of [m], in every world, satisfies [P]. *)
Definition emits {A : Type} (P : event -> bool) (m : M A) : Prop :=
  forall w, Forall (fun ev => P ev = true) (m w).2.

(** The failures of a path are failures of the operating system. *)
Definition io_failures_only (node : fsnode) : Prop :=
  (forall e, n_read node = Raise e -> isinstance e OSError = true)
  /\ (forall e, n_getsize node = Raise e -> isinstance e OSError = true).

(** Events of a loader: the read of the file at [path], and log lines. *)
Definition open_or_log (path : string) (ev : event) : bool :=
  match ev with
  | EvLog _ _ => true
  | EvOpenText p => bool_decide (p = path)
  | _ => false
  end.

Definition is_log (ev : event) : bool :=
  match ev with
  | EvLog _ _ => true
  | _ => false
  end.

(** A file-system operation of a trace that did not succeed in [w]: the
    path is reported missing, [getsize] or the read raised, or the file
    could not be mapped (an empty file cannot). *)
Definition failed_in (w : World) (ev : event) : Prop :=
  match ev with
  | EvExists p => n_exists (w_fs w p) = false
  | EvGetsize p => exists e, n_getsize (w_fs w p) = Raise e
  | EvOpenText p => exists e, n_read (w_fs w p) = Raise e
  | EvMmap p => n_read (w_fs w p) = Ret [] \/ exists e, n_read (w_fs w p) = Raise e
  | _ => False
  end.

(** Some operation on the dataset fails in the course of the search. *)
Definition dataset_failure (sr : Searcher) (needle : str) (w : World) : Prop :=
  exists ev, ev ∈ (search sr needle w).2 /\ failed_in w ev.

(** A search that touches the dataset file: reread mode, or nothing cached. *)
Definition reads_dataset (sr : Searcher) : Prop :=
  reread_on_query (cfg sr) = true
  \/ (_cached_set sr = None /\ _cached_list sr = None /\ _cached_sorted sr = None).


Definition response (found : bool) : bytes :=
  if found then STRING_EXISTS else STRING_NOT_FOUND.

Definition empty_searcher (c : Config) : Searcher :=
  {| cfg := c; _cached_set := None; _cached_list := None; _cached_sorted := None |}.

(** An exception that every [except] clause set of [search] answers with
    [False]. *)
Definition contained (e : exc) : Prop :=
  isinstance e OSError = true \/ e = UnicodeEncodeError.

(** A dataset whose last line has no newline after it. *)
Definition fruit_open_end : bytes := b "apple" ++ [LF] ++ b "banana".

Definition tls_config (cert key : option string) : Config :=
  {| linuxpath := "data.txt"; reread_on_query := true; ssl_enabled := true;
     ssl_certfile := cert; ssl_keyfile := key; host := "127.0.0.1";
     port := 44445; max_payload := DEFAULT_MAX_PAYLOAD;
     default_algorithm := "set" |}.

Definition server_of (c : Config) : TCPServer :=
  {| srv_cfg := c; sock := PlainSocket; searcher := empty_searcher c |}.

(** The set-up of the listening socket goes through: [bind], [listen] and,
    with TLS enabled, the certificate chain and the wrapping. *)
Definition setup_succeeds (c : Config) (w : World) : Prop :=
  w_bind w = Ret tt /\ w_listen w = Ret tt
  /\ (ssl_enabled c = true ->
      exists certfile keyfile,
        ssl_certfile c = Some certfile /\ ssl_keyfile c = Some keyfile
        /\ certfile <> "" /\ keyfile <> ""
        /\ w_load_cert_chain w certfile keyfile = Ret tt
        /\ w_wrap_socket w = Ret tt).


(** Events other than a send or a logged query. *)
Definition plain (ev : event) : bool :=
  match ev with
  | EvSendall _ | EvDebugQuery _ => false
  | _ => true
  end.

(** The claim "exactly one response, one of the two literal lines": *)
Definition exactly_one_response (self : TCPServer) (w : World) : Prop :=
  exists found : bool, sent (_handle_client self w).2 = [response found].


Definition fruit_server : TCPServer := server_of (mk_config "data.txt" "set" true).


(** ** Vocabulary of the further properties *)

(** How many events of [t] satisfy [P]. *)
Definition count_events (P : event -> bool) (t : list event) : nat :=
  length (List.filter P t).

Definition is_accept (ev : event) : bool :=
  match ev with EvAccept => true | _ => false end.
Definition is_thread_start (ev : event) : bool :=
  match ev with EvThreadStart => true | _ => false end.
Definition is_warning (ev : event) : bool :=
  match ev with EvLog WARNING _ => true | _ => false end.
Definition is_teardown (ev : event) : bool :=
  match ev with EvShutdown | EvClose => true | _ => false end.

Definition not_teardown (ev : event) : bool := negb (is_teardown ev).

Definition is_accepted (st : accept_step) : bool :=
  match st with Accepted => true | AcceptFails _ _ => false end.

(** An accept failure that the loop reports: not a timeout, and the stop
    flag is not set. *)
Definition is_reported (st : accept_step) : bool :=
  match st with
  | Accepted => false
  | AcceptFails e stop => negb (isinstance e socket_timeout) && negb stop
  end.

(** Every failure of the script is an error of the operating system. *)
Definition accept_failures_os (script : list accept_step) : Prop :=
  Forall (fun st => match st with
                    | Accepted => True
                    | AcceptFails e _ => isinstance e OSError = true
                    end) script.

(** The failures of the connected socket are errors of the operating
    system. *)
Definition socket_failures_os (w : World) : Prop :=
  (forall e, w_recv w = Raise e -> isinstance e OSError = true)
  /\ (forall d e, w_sendall w d = Raise e -> isinstance e OSError = true)
  /\ (forall e, w_shutdown w = Raise e -> isinstance e OSError = true)
  /\ (forall e, w_close w = Raise e -> isinstance e OSError = true).

Definition plain_config (h : string) (p : Z) : Config :=
  {| linuxpath := "data.txt"; reread_on_query := true; ssl_enabled := false;
     ssl_certfile := None; ssl_keyfile := None; host := h; port := p;
     max_payload := DEFAULT_MAX_PAYLOAD; default_algorithm := "set" |}.

Definition with_accepts (w : World) (script : list accept_step) : World :=
  {| w_fs := w_fs w;
     w_run := w_run w;
     w_bind := w_bind w;
     w_listen := w_listen w;
     w_ssl_default_options := w_ssl_default_options w;
     w_load_cert_chain := w_load_cert_chain w;
     w_wrap_socket := w_wrap_socket w;
     w_accepts := script;
     w_client_tls := w_client_tls w;
     w_connect := w_connect w;
     w_recv := w_recv w;
     w_sendall := w_sendall w;
     w_shutdown := w_shutdown w;
     w_close := w_close w;
     w_perf_counter := w_perf_counter w |}.

Definition with_bind (w : World) (r : result unit) : World :=
  {| w_fs := w_fs w;
     w_run := w_run w;
     w_bind := r;
     w_listen := w_listen w;
     w_ssl_default_options := w_ssl_default_options w;
     w_load_cert_chain := w_load_cert_chain w;
     w_wrap_socket := w_wrap_socket w;
     w_accepts := w_accepts w;
     w_client_tls := w_client_tls w;
     w_connect := w_connect w;
     w_recv := w_recv w;
     w_sendall := w_sendall w;
     w_shutdown := w_shutdown w;
     w_close := w_close w;
     w_perf_counter := w_perf_counter w |}.

Definition with_client_tls (w : World) (r : result unit) : World :=
  {| w_fs := w_fs w;
     w_run := w_run w;
     w_bind := w_bind w;
     w_listen := w_listen w;
     w_ssl_default_options := w_ssl_default_options w;
     w_load_cert_chain := w_load_cert_chain w;
     w_wrap_socket := w_wrap_socket w;
     w_accepts := w_accepts w;
     w_client_tls := r;
     w_connect := w_connect w;
     w_recv := w_recv w;
     w_sendall := w_sendall w;
     w_shutdown := w_shutdown w;
     w_close := w_close w;
     w_perf_counter := w_perf_counter w |}.

(** A byte below 0x80. *)
Definition seven_bit (c : ascii) : Prop := (N_of_ascii c < 0x80)%N.

(** The text of a file that holds [lines], each followed by a line feed,
    and then [rest] without one. *)
Definition text_of_lines (lines : list str) (rest : str) : str :=
  concat ((fun l => l ++ [10%N]) <$> lines) ++ rest.

(** A line holds neither a line feed nor a carriage return. *)
Definition no_newline (l : str) : Prop := (10%N ∉ l) /\ (13%N ∉ l).

(** * Properties *)

(** ** The order on [str] *)

Section StrOrder.

Implicit Types x y z : str.

Lemma str_ltb_irrefl x : str_ltb x x = false.
Proof.
  induction x as [|c x IH]; simpl; [done|].
  by rewrite N.ltb_irrefl, N.eqb_refl.
Qed.

Lemma str_ltb_trans x y z :
  str_ltb x y = true -> str_ltb y z = true -> str_ltb x z = true.
Proof.
  revert y z. induction x as [|c x IH]; intros [|d y] [|e z]; simpl; try done.
  destruct (N.ltb_spec c d), (N.eqb_spec c d), (N.ltb_spec d e),
    (N.eqb_spec d e), (N.ltb_spec c e), (N.eqb_spec c e);
    try done; try lia.
  apply IH.
Qed.

Lemma str_ltb_total x y :
  str_ltb x y = false -> str_ltb y x = false -> x = y.
Proof.
  revert y. induction x as [|c x IH]; intros [|d y]; simpl; try done.
  destruct (N.ltb_spec c d), (N.eqb_spec c d), (N.ltb_spec d c),
    (N.eqb_spec d c); try done; try lia.
  intros. f_equal; auto.
Qed.

Lemma str_ltb_asym x y : str_ltb x y = true -> str_ltb y x = false.
Proof.
  intros H. destruct (str_ltb y x) eqn:E; [|done].
  by rewrite <- (str_ltb_irrefl x), (str_ltb_trans x y x).
Qed.

Lemma str_le_lt_trans x y z : str_le x y -> str_lt y z -> str_lt x z.
Proof.
  unfold str_le, str_lt. intros Hxy Hyz.
  destruct (str_ltb x y) eqn:E; [by eapply str_ltb_trans|].
  by rewrite (str_ltb_total x y).
Qed.

Lemma str_lt_le_trans x y z : str_lt x y -> str_le y z -> str_lt x z.
Proof.
  unfold str_le, str_lt. intros Hxy Hyz.
  destruct (str_ltb y z) eqn:E; [by eapply str_ltb_trans|].
  by rewrite <- (str_ltb_total y z).
Qed.

#[global] Instance str_le_trans : Transitive str_le.
Proof.
  intros x y z Hxy Hyz. unfold str_le in *.
  destruct (str_ltb z x) eqn:E; [|done].
  by rewrite <- Hyz, (str_lt_le_trans z x y).
Qed.

#[global] Instance str_le_total : Total str_le.
Proof.
  intros x y. unfold str_le.
  destruct (str_ltb y x) eqn:E; [right; by apply str_ltb_asym|by left].
Qed.

Lemma str_le_antisym x y : str_le x y -> str_le y x -> x = y.
Proof. unfold str_le. intros. by apply str_ltb_total. Qed.

Lemma str_lt_irrefl x : ~ str_lt x x.
Proof. unfold str_lt. by rewrite str_ltb_irrefl. Qed.

End StrOrder.

(** ** [bisect_left] and [binary_search_sorted] *)

Section Bisect.

Lemma bisect_loop_step (a : list pyval) (x : pyval) (lo hi : nat) :
  bisect_loop a x lo hi =
    if decide (lo < hi) then
      v ← getitem a ((lo + hi) `div` 2);
      c ← py_lt v x;
      if c : bool then bisect_loop a x ((lo + hi) `div` 2 + 1) hi
      else bisect_loop a x lo ((lo + hi) `div` 2)
    else Ret lo.
Proof.
  rewrite bisect_loop_equation_1.
  destruct (decide (lo < hi)); simpl; [|reflexivity].
  destruct (getitem a _) as [v|e]; simpl; [|reflexivity].
  destruct (py_lt v x) as [[|]|e]; reflexivity.
Qed.

Lemma midpoint_bounds (lo hi : nat) :
  lo < hi -> lo <= (lo + hi) `div` 2 < hi.
Proof.
  intros H. split.
  - apply Nat.div_le_lower_bound; lia.
  - apply Nat.Div0.div_lt_upper_bound; lia.
Qed.

Lemma StronglySorted_lookup_lt {A} (R : relation A) (l : list A) :
  StronglySorted R l ->
  forall i j x y, i < j -> l !! i = Some x -> l !! j = Some y -> R x y.
Proof.
  induction 1 as [|a l Hs IH Hall]; intros [|i] [|j] x y Hij Hi Hj;
    simplify_eq/=; try lia.
  - rewrite Forall_forall in Hall. apply Hall.
    by eapply list_elem_of_lookup_2.
  - apply (IH i j); [lia|done..].
Qed.

Lemma py_lt_raises (v x : pyval) (e : exc) :
  py_lt v x = Raise e -> e = TypeError.
Proof. destruct v, x; simpl; congruence. Qed.

Lemma getitem_raises {A} (a : list A) (i : nat) (e : exc) :
  getitem a i = Raise e -> e = IndexError.
Proof. unfold getitem. destruct (a !! i); congruence. Qed.

(** Whatever the list holds, the loop can only fail on a comparison or on
    an index. *)
Lemma bisect_loop_raises (a : list pyval) (x : pyval) (e : exc) :
  forall n lo hi, hi - lo <= n ->
    bisect_loop a x lo hi = Raise e -> e = TypeError \/ e = IndexError.
Proof.
  induction n as [|n IH]; intros lo hi Hn; rewrite bisect_loop_step;
    destruct (decide (lo < hi)) as [Hlt|]; try done; try lia.
  pose proof (midpoint_bounds lo hi Hlt).
  set (mid := (lo + hi) `div` 2) in *.
  destruct (getitem a _) as [v|e'] eqn:Hg; simpl.
  - destruct (py_lt v x) as [[|]|e'] eqn:Hc; simpl.
    + apply IH. lia.
    + apply IH. lia.
    + intros [= <-]. left. by eapply py_lt_raises.
  - intros [= <-]. right. by eapply getitem_raises.
Qed.

Lemma bisect_left_raises (a : list pyval) (x : pyval) (e : exc) :
  bisect_left a x = Raise e -> e = TypeError \/ e = IndexError.
Proof. apply (bisect_loop_raises a x e (length a)). lia. Qed.

(** On a sorted list of strings the loop returns the left bound of [q]. *)
Lemma bisect_loop_sorted (lines : list str) (q : str) :
  StronglySorted str_le lines ->
  forall n lo hi,
    hi - lo <= n -> lo <= hi <= length lines ->
    (forall k v, k < lo -> lines !! k = Some v -> str_lt v q) ->
    (forall k v, hi <= k -> lines !! k = Some v -> str_le q v) ->
    exists i,
      bisect_loop (PStr <$> lines) (PStr q) lo hi = Ret i
      /\ i <= length lines
      /\ (forall k v, k < i -> lines !! k = Some v -> str_lt v q)
      /\ (forall k v, i <= k -> lines !! k = Some v -> str_le q v).
Proof.
  intros Hs. induction n as [|n IH]; intros lo hi Hn Hb Hlo Hhi;
    rewrite bisect_loop_step;
    destruct (decide (lo < hi)) as [Hlt|Hge]; try lia;
    try (exists lo; repeat split; [lia | done | intros; apply (Hhi k); [lia|done]]).
  pose proof (midpoint_bounds lo hi Hlt) as Hm.
  set (mid := (lo + hi) `div` 2) in *.
  destruct (lookup_lt_is_Some_2 lines mid) as [v Hv]; [lia|].
  unfold getitem. rewrite list_lookup_fmap, Hv. simpl.
  destruct (str_ltb v q) eqn:Hc.
  - apply IH; [lia | lia | | done].
    intros k v' Hk Hv'.
    apply (str_le_lt_trans v' v q); [|done].
    destruct (decide (k = mid)) as [->|]; [simplify_eq; apply str_ltb_irrefl|].
    eapply (StronglySorted_lookup_lt _ lines Hs k mid); [lia|done..].
  - apply IH; [lia | lia | done |].
    intros k v' Hk Hv'.
    transitivity v; [done|].
    destruct (decide (k = mid)) as [->|]; [simplify_eq; apply str_ltb_irrefl|].
    eapply (StronglySorted_lookup_lt _ lines Hs mid k); [lia|done..].
Qed.

Lemma bisect_left_sorted (lines : list str) (q : str) :
  Sorted str_le lines ->
  exists i,
    bisect_left (PStr <$> lines) (PStr q) = Ret i
    /\ i <= length lines
    /\ (forall k v, k < i -> lines !! k = Some v -> str_lt v q)
    /\ (forall k v, i <= k -> lines !! k = Some v -> str_le q v).
Proof.
  intros Hs. apply Sorted_StronglySorted in Hs; [|apply _].
  unfold bisect_left. rewrite length_fmap.
  apply (bisect_loop_sorted lines q Hs (length lines)); [lia | lia | lia |].
  intros k v Hk Hv. apply lookup_lt_Some in Hv. lia.
Qed.

(** What [binary_search_sorted] returns once [bisect_left] has returned. *)
Lemma binary_search_sorted_after (lines : list pyval) (needle : pyval)
    (i : nat) (w : World) :
  bisect_left lines needle = Ret i ->
  (sa.binary_search_sorted lines needle w).1 =
    Ret (bool_decide (lines !! i = Some needle)).
Proof.
  intros Hi. unfold sa.binary_search_sorted, try_, mbind, M_bind, lift.
  rewrite Hi. simpl.
  destruct (Nat.eqb_spec i (length lines)) as [->|Hne]; simpl.
  - by rewrite lookup_ge_None_2 by lia.
  - unfold getitem. destruct (lines !! i) as [v|] eqn:Hv; simpl.
    + unfold py_eq. apply f_equal, bool_decide_ext. split; congruence.
    + done.
Qed.

Lemma binary_search_sorted_returns (lines : list pyval) (needle : pyval)
    (w : World) :
  (sa.binary_search_sorted lines needle w).1 =
    match bisect_left lines needle with
    | Ret i => Ret (bool_decide (lines !! i = Some needle))
    | Raise _ => Ret false
    end.
Proof.
  destruct (bisect_left lines needle) as [i|e] eqn:Hi.
  - by apply binary_search_sorted_after.
  - unfold sa.binary_search_sorted, try_, mbind, M_bind, lift.
    rewrite Hi. simpl.
    by destruct (bisect_left_raises _ _ _ Hi) as [-> | ->].
Qed.

(** On a sorted list of strings the answer is the equality test at the
    left bound. *)
Lemma binary_search_sorted_left_bound (lines : list str) (q : str) (w : World) :
  Sorted str_le lines ->
  exists i,
    bisect_left (PStr <$> lines) (PStr q) = Ret i
    /\ (forall k v, k < i -> lines !! k = Some v -> str_lt v q)
    /\ (forall k v, i <= k -> lines !! k = Some v -> str_le q v)
    /\ (sa.binary_search_sorted (PStr <$> lines) (PStr q) w).1
         = Ret (bool_decide (lines !! i = Some q)).
Proof.
  intros Hs.
  destruct (bisect_left_sorted lines q Hs) as (i & Hi & Hlen & Hlo & Hhi).
  exists i. repeat split; try done.
  rewrite (binary_search_sorted_after _ _ i w Hi).
  apply f_equal, bool_decide_ext. rewrite list_lookup_fmap.
  destruct (lines !! i); simpl; split; congruence.
Qed.

(** ... and hence membership. *)
Lemma binary_search_sorted_member (lines : list str) (q : str) (w : World) :
  Sorted str_le lines ->
  (sa.binary_search_sorted (PStr <$> lines) (PStr q) w).1
    = Ret (bool_decide (q ∈ lines)).
Proof.
  intros Hs.
  destruct (binary_search_sorted_left_bound lines q w Hs)
    as (i & Hi & Hlo & Hhi & ->).
  apply f_equal, bool_decide_ext. split.
  - intros H. by eapply list_elem_of_lookup_2.
  - intros [j Hj]%list_elem_of_lookup_1.
    destruct (decide (j < i)) as [Hji|Hji].
    { exfalso. apply (str_lt_irrefl q), (Hlo j q Hji Hj). }
    destruct (lookup_lt_is_Some_2 lines i) as [v Hv].
    { apply lookup_lt_Some in Hj. lia. }
    rewrite Hv. f_equal. apply str_le_antisym; [|by apply (Hhi i)].
    destruct (decide (i = j)) as [->|]; [simplify_eq; apply str_ltb_irrefl|].
    apply Sorted_StronglySorted in Hs; [|apply _].
    eapply (StronglySorted_lookup_lt _ lines Hs i j); [lia|done..].
Qed.

End Bisect.

(** C10: [binary_search_sorted] returns a boolean for every list and every
    query -- unsorted, empty or holding values that cannot be compared with
    the query -- and a [TypeError] or [IndexError] raised underneath is caught
    and answered with [False]. *)
Theorem binary_search_sorted_total (lines : list pyval) (needle : pyval) (w : World) :
  (exists r : bool, (sa.binary_search_sorted lines needle w).1 = Ret r)
  /\ (forall e, bisect_left lines needle = Raise e ->
        (sa.binary_search_sorted lines needle w).1 = Ret false).
Proof.
  rewrite binary_search_sorted_returns.
  destruct (bisect_left lines needle) as [i|e]; split; try done; by eexists.
Qed.

(** A list that mixes strings with other values, an unsorted list and the
    empty list. *)
Example binary_search_sorted_mixed :
  (sa.binary_search_sorted [PStr (u "a"); PInt 3; PNone] (PStr (u "b")) quiet_world).1
    = Ret false
  /\ (sa.binary_search_sorted (PStr <$> [u "pear"; u "apple"]) (PStr (u "apple")) quiet_world).1
    = Ret false
  /\ (sa.binary_search_sorted [] (PStr (u "apple")) quiet_world).1 = Ret false.
Proof. vm_compute. done. Qed.

(** C4: on a list sorted in the order of [str], [binary_search_sorted]
    answers true exactly when the query is an element; it answers false for
    a query strictly between two neighbours, below the first or above the last
    element; and the answer is the equality test at the index that
    [bisect_left] returns, which is the left bound of the query. *)
Theorem binary_search_sorted_correct (lines : list str) (q : str) (w : World) :
  Sorted str_le lines ->
  let r := (sa.binary_search_sorted (PStr <$> lines) (PStr q) w).1 in
  r = Ret (bool_decide (q ∈ lines))
  /\ (forall l1 x y l2, lines = l1 ++ x :: y :: l2 ->
        str_lt x q -> str_lt q y -> r = Ret false)
  /\ ((forall v, v ∈ lines -> str_lt q v) -> r = Ret false)
  /\ ((forall v, v ∈ lines -> str_lt v q) -> r = Ret false)
  /\ exists i,
       bisect_left (PStr <$> lines) (PStr q) = Ret i
       /\ (forall k v, k < i -> lines !! k = Some v -> str_lt v q)
       /\ (forall k v, i <= k -> lines !! k = Some v -> str_le q v)
       /\ r = Ret (bool_decide (lines !! i = Some q)).
Proof.
  intros Hs r.
  pose proof (binary_search_sorted_member lines q w Hs) as Hin. fold r in Hin.
  assert (forall P : Prop, (q ∈ lines -> P -> False) -> P -> r = Ret false) as Hout.
  { intros P HP Hp. rewrite Hin. f_equal. apply bool_decide_eq_false_2.
    intros Hq. exact (HP Hq Hp). }
  split; [done|]. split; [|split; [|split]].
  - intros l1 x y l2 -> Hx Hy.
    apply (Hout True); [|done]. intros Hq _.
    apply Sorted_StronglySorted in Hs; [|apply _].
    apply StronglySorted_app in Hs as (H12 & _ & Hs2).
    apply StronglySorted_cons in Hs2 as [Hxl Hs3].
    apply StronglySorted_cons in Hs3 as [Hyl _].
    rewrite !elem_of_app, !elem_of_cons in Hq.
    destruct Hq as [Hq|[->|[->|Hq]]].
    + apply (str_lt_irrefl q). apply (str_le_lt_trans q x q); [|done].
      apply H12; [done|]. by left.
    + by apply (str_lt_irrefl x).
    + by apply (str_lt_irrefl y).
    + apply (str_lt_irrefl q). apply (str_lt_le_trans q y q); [done|].
      rewrite Forall_forall in Hyl. by apply Hyl.
  - intros H. apply (Hout True); [|done]. intros Hq _.
    by apply (str_lt_irrefl q), H.
  - intros H. apply (Hout True); [|done]. intros Hq _.
    by apply (str_lt_irrefl q), H.
  - destruct (binary_search_sorted_left_bound lines q w Hs)
      as (i & Hi & Hlo & Hhi & Hr).
    by exists i.
Qed.

Lemma binary_search_sorted_correct_witness :
  Sorted str_le [u "apple"; u "banana"; u "cherry"]
  /\ (sa.binary_search_sorted (PStr <$> [u "apple"; u "banana"; u "cherry"])
        (PStr (u "cherry")) quiet_world).1 = Ret true.
Proof.
  assert (Sorted str_le [u "apple"; u "banana"; u "cherry"]) as Hs.
  { repeat constructor. }
  split; [exact Hs|].
  exact (proj1 (binary_search_sorted_correct
                  [u "apple"; u "banana"; u "cherry"] (u "cherry") quiet_world Hs)).
Defined.

(** ** Reasoning in the effect monad *)

Section Effects.

Context {A B : Type}.
Implicit Types (w : World) (P : event -> bool).

Lemma bind_fst (m : M A) (f : A -> M B) w :
  ((m ≫= f) w).1 =
    match (m w).1 with
    | Ret a => (f a w).1
    | Raise e => Raise e
    end.
Proof.
  unfold mbind, M_bind. destruct (m w) as [[a|e] t]; simpl; [|done].
  by destruct (f a w).
Qed.

Lemma bind_snd (m : M A) (f : A -> M B) w :
  ((m ≫= f) w).2 =
    (m w).2 ++ match (m w).1 with
               | Ret a => (f a w).2
               | Raise e => []
               end.
Proof.
  unfold mbind, M_bind. destruct (m w) as [[a|e] t]; simpl.
  - by destruct (f a w).
  - by rewrite app_nil_r.
Qed.

Lemma try_fst (m : M A) hs w :
  (try_ m hs w).1 =
    match (m w).1 with
    | Ret a => Ret a
    | Raise e => match lookup_handler hs e with
                 | Some h => (h e w).1
                 | None => Raise e
                 end
    end.
Proof.
  unfold try_. destruct (m w) as [[a|e] t]; simpl; [done|].
  destruct (lookup_handler hs e) as [h|]; [|done]. by destruct (h e w).
Qed.

Lemma try_snd (m : M A) hs w :
  (try_ m hs w).2 =
    (m w).2 ++ match (m w).1 with
               | Ret a => []
               | Raise e => match lookup_handler hs e with
                            | Some h => (h e w).2
                            | None => []
                            end
               end.
Proof.
  unfold try_. destruct (m w) as [[a|e] t]; simpl; [by rewrite app_nil_r|].
  destruct (lookup_handler hs e) as [h|]; [|by rewrite app_nil_r].
  by destruct (h e w).
Qed.

Lemma finally_fst (m : M A) (fin : M unit) w :
  (finally_ m fin w).1 =
    match (fin w).1 with
    | Ret _ => (m w).1
    | Raise e => Raise e
    end.
Proof.
  unfold finally_. destruct (m w) as [r t]. by destruct (fin w) as [[[]|e] t'].
Qed.

Lemma finally_snd (m : M A) (fin : M unit) w :
  (finally_ m fin w).2 = (m w).2 ++ (fin w).2.
Proof.
  unfold finally_. destruct (m w) as [r t]. by destruct (fin w) as [[[]|e] t'].
Qed.

(** *** Events of a computation *)

Lemma emits_ret P (a : A) : emits P (mret a : M A).
Proof. intros w. constructor. Qed.

Lemma emits_lift P (r : result A) : emits P (lift r).
Proof. intros w. constructor. Qed.

Lemma emits_raise P (e : exc) : emits P (raise e : M A).
Proof. intros w. constructor. Qed.

Lemma emits_syscall P ev (f : World -> result A) :
  P ev = true -> emits P (syscall ev f).
Proof. intros H w. by repeat constructor. Qed.

Lemma emits_bind P (m : M A) (f : A -> M B) :
  emits P m -> (forall a, emits P (f a)) -> emits P (m ≫= f).
Proof.
  intros Hm Hf w. rewrite bind_snd. apply Forall_app. split; [apply Hm|].
  destruct (m w).1; [apply Hf|constructor].
Qed.

Lemma lookup_handler_In {H : Type} (hs : list (list exc * H)) e h :
  lookup_handler hs e = Some h -> exists cs, (cs, h) ∈ hs.
Proof.
  induction hs as [|[cs h'] hs IH]; simpl; [done|].
  destruct (existsb _ cs).
  - intros [= ->]. exists cs. by left.
  - intros [cs' ?]%IH. exists cs'. by right.
Qed.

Lemma emits_try P (m : M A) hs :
  emits P m ->
  Forall (fun ch => forall e, emits P (ch.2 e)) hs ->
  emits P (try_ m hs).
Proof.
  intros Hm Hh w. rewrite try_snd. apply Forall_app. split; [apply Hm|].
  destruct (m w).1 as [a|e]; [constructor|].
  destruct (lookup_handler hs e) as [h|] eqn:E; [|constructor].
  apply lookup_handler_In in E as [cs Hin].
  rewrite Forall_forall in Hh. apply (Hh _ Hin).
Qed.

Lemma emits_finally P (m : M A) (fin : M unit) :
  emits P m -> emits P fin -> emits P (finally_ m fin).
Proof.
  intros Hm Hf w. rewrite finally_snd. apply Forall_app. split; [apply Hm|apply Hf].
Qed.

End Effects.

Lemma emits_log P l fmt : P (EvLog l fmt) = true -> emits P (log l fmt).
Proof. intros H w. by repeat constructor. Qed.

Lemma emits_impl {A} (P Q : event -> bool) (m : M A) :
  (forall ev, P ev = true -> Q ev = true) -> emits P m -> emits Q m.
Proof. intros HPQ Hm w. eapply Forall_impl; [apply Hm|]. done. Qed.

(** Discharge [emits] goals by following the structure of the program. *)
Ltac emits_step :=
  match goal with
  | |- emits _ (mret _) => apply emits_ret
  | |- emits _ (lift _) => apply emits_lift
  | |- emits _ (raise _) => apply emits_raise
  | |- emits _ (log _ _) => apply emits_log; reflexivity
  | |- emits _ (syscall _ _) => apply emits_syscall; reflexivity
  | |- emits _ (_ ≫= _) => apply emits_bind; [|intros ?]
  | |- emits _ (try_ _ _) => apply emits_try; [|repeat constructor; intros ?; simpl]
  | |- emits _ (finally_ _ _) => apply emits_finally
  | |- emits _ (if ?c then _ else _) => destruct c
  | |- emits _ (match ?c with _ => _ end) => destruct c
  end.
Ltac solve_emits := repeat emits_step.

(** Membership in a trace that is known event by event. *)
Ltac in_trace :=
  repeat first [ rewrite elem_of_cons | rewrite elem_of_nil | rewrite elem_of_app ];
  intuition (try discriminate; try congruence; eauto).

(** ** The search strategies touch the file system only *)

Section Quiet.

Lemma load_lines_list_quiet path : emits fs_event (sa.load_lines_list path).
Proof. unfold sa.load_lines_list, sa.read_text_lines. solve_emits. Qed.

Lemma load_lines_set_quiet path : emits fs_event (sa.load_lines_set path).
Proof. unfold sa.load_lines_set, sa.read_text_lines. solve_emits. Qed.

Lemma mmap_search_quiet path needle : emits fs_event (sa.mmap_search path needle).
Proof.
  unfold sa.mmap_search, sa.os_path_exists, sa.os_path_getsize, sa.mmap_open,
    sa.mmap_close.
  solve_emits.
Qed.

Lemma binary_search_sorted_quiet lines needle :
  emits fs_event (sa.binary_search_sorted lines needle).
Proof. unfold sa.binary_search_sorted. solve_emits. Qed.

Lemma search_quiet sr needle : emits fs_event (search sr needle).
Proof.
  unfold search. apply emits_try; [|repeat constructor; intros ?; simpl; solve_emits].
  repeat match goal with
         | |- emits _ (if ?c then _ else _) => destruct c
         | |- emits _ (match ?c with _ => _ end) => destruct c
         | |- emits _ (_ ≫= _) => apply emits_bind; [|intros ?]
         | |- emits _ (mret _) => apply emits_ret
         end;
    auto using load_lines_list_quiet, load_lines_set_quiet, mmap_search_quiet,
      binary_search_sorted_quiet.
Qed.

End Quiet.

(** ** What the loaders and the strategies return *)

Section Strategies.

Implicit Types (w : World) (path : string) (needle : str).

Lemma read_text_lines_fst path w :
  (sa.read_text_lines path w).1 =
    match n_read (w_fs w path) with
    | Ret data =>
        Ret (iter_lines [] (universal_newlines (decode_utf8_replace data)))
    | Raise e => Raise e
    end.
Proof.
  unfold sa.read_text_lines. rewrite bind_fst. simpl.
  by destruct (n_read (w_fs w path)).
Qed.

Lemma load_lines_list_fst path w :
  (sa.load_lines_list path w).1 =
    match n_read (w_fs w path) with
    | Ret data => Ret (file_lines data)
    | Raise e => Raise e
    end.
Proof.
  unfold sa.load_lines_list. rewrite try_fst, bind_fst, read_text_lines_fst.
  destruct (n_read (w_fs w path)) as [data|e]; [done|].
  destruct e; reflexivity.
Qed.

Lemma load_lines_set_fst path w :
  (sa.load_lines_set path w).1 =
    match n_read (w_fs w path) with
    | Ret data => Ret (list_to_set (file_lines data))
    | Raise e => Raise e
    end.
Proof.
  unfold sa.load_lines_set. rewrite try_fst, bind_fst, read_text_lines_fst.
  destruct (n_read (w_fs w path)) as [data|e]; [done|].
  destruct e; reflexivity.
Qed.

(** [mmap_search], branch by branch. *)
Lemma mmap_search_fst path needle w :
  (sa.mmap_search path needle w).1 =
    let node := w_fs w path in
    if negb (n_exists node) then Ret false
    else match n_getsize node with
         | Raise e => Raise e
         | Ret size =>
           if (size =? 0)%nat then Ret false
           else match encode_utf8 (needle ++ [10%N]) with
                | Raise e => Raise e
                | Ret needle_bytes =>
                  match n_read node with
                  | Ret [] => Ret false
                  | Ret mm => Ret (negb (sa.find mm needle_bytes =? -1)%Z)
                  | Raise e =>
                      if isinstance e OSError || isinstance e ValueError
                      then Ret false else Raise e
                  end
                end
         end.
Proof.
  unfold sa.mmap_search. rewrite bind_fst. simpl.
  destruct (n_exists (w_fs w path)); simpl; [|done].
  rewrite bind_fst. simpl.
  destruct (n_getsize (w_fs w path)) as [size|e]; [|done].
  destruct (size =? 0)%nat; [done|].
  rewrite bind_fst. simpl.
  destruct (encode_utf8 _) as [nb|e]; [|done].
  rewrite try_fst, bind_fst. simpl.
  destruct (n_read (w_fs w path)) as [[|c mm]|e]; try done.
  destruct e; reflexivity.
Qed.

(** The events of [mmap_search], branch by branch. *)
Lemma mmap_search_snd path needle w :
  (sa.mmap_search path needle w).2 =
    let node := w_fs w path in
    EvExists path ::
    if negb (n_exists node) then [EvLog ERROR "Dataset file missing: %s"]
    else
      EvGetsize path ::
      match n_getsize node with
      | Raise _ => []
      | Ret size =>
        if (size =? 0)%nat then []
        else match encode_utf8 (needle ++ [10%N]) with
             | Raise _ => []
             | Ret _ =>
               EvMmap path ::
               match n_read node with
               | Ret [] => [EvLog ERROR "mmap search failed on %s: %s"]
               | Ret (_ :: _) => [EvMmapClose]
               | Raise e =>
                   if isinstance e FileNotFoundError
                   then [EvLog ERROR "File not found during mmap: %s"]
                   else if isinstance e PermissionError
                   then [EvLog ERROR "Permission denied for mmap on %s"]
                   else if isinstance e OSError || isinstance e ValueError
                   then [EvLog ERROR "mmap search failed on %s: %s"]
                   else []
               end
             end
      end.
Proof.
  unfold sa.mmap_search. rewrite bind_snd. simpl.
  destruct (n_exists (w_fs w path)); simpl; [|done]. f_equal.
  rewrite bind_snd. simpl. f_equal.
  destruct (n_getsize (w_fs w path)) as [size|e]; [|done].
  destruct (size =? 0)%nat; [done|].
  rewrite bind_snd. simpl.
  destruct (encode_utf8 _) as [nb|e]; [|done].
  rewrite try_snd, bind_snd, bind_fst. simpl. f_equal.
  destruct (n_read (w_fs w path)) as [[|c mm]|e]; try done.
  destruct e; reflexivity.
Qed.

Lemma encode_utf8_raises (s : str) (e : exc) :
  encode_utf8 s = Raise e -> e = UnicodeEncodeError.
Proof.
  induction s as [|c s IH]; simpl; [done|].
  destruct (encode_cp c) as [bs|e'] eqn:Hc.
  - destruct (encode_utf8 s); [done|]. intros [= <-]. by apply IH.
  - intros [= <-]. unfold encode_cp in Hc.
    repeat case_match; congruence.
Qed.

(** Failures of the operating system never leave [mmap_search] through
    its own handlers; what can still escape is a failing [getsize] or a
    query that cannot be encoded. *)
Lemma mmap_search_raises path needle w e :
  io_failures_only (w_fs w path) ->
  (sa.mmap_search path needle w).1 = Raise e -> contained e.
Proof.
  intros [Hr Hg]. rewrite mmap_search_fst. simpl.
  destruct (n_exists _); simpl; [|done].
  destruct (n_getsize _) as [size|e'] eqn:Hsz.
  - destruct (size =? 0)%nat; [done|].
    destruct (encode_utf8 _) as [nb|e'] eqn:Henc.
    + destruct (n_read _) as [[|c mm]|e'] eqn:Hrd; try done.
      by rewrite (Hr e' eq_refl).
    + intros [= ->]. right. by eapply encode_utf8_raises.
  - intros [= ->]. left. by apply Hg.
Qed.

(** When the file cannot be read, [mmap_search] does not answer true. *)
Lemma mmap_search_unreadable path needle w e :
  n_read (w_fs w path) = Raise e ->
  isinstance e OSError = true ->
  (sa.mmap_search path needle w).1 = Ret false
  \/ exists e', (sa.mmap_search path needle w).1 = Raise e'
                /\ (n_getsize (w_fs w path) = Raise e' \/ e' = UnicodeEncodeError).
Proof.
  intros Hrd He. rewrite mmap_search_fst. simpl.
  destruct (n_exists _); simpl; [|by left].
  destruct (n_getsize _) as [size|e'] eqn:Hsz; [|right; eauto].
  destruct (size =? 0)%nat; [by left|].
  destruct (encode_utf8 _) as [nb|e'] eqn:Henc.
  - rewrite Hrd, He. by left.
  - right. exists e'. split; [done|]. right. by eapply encode_utf8_raises.
Qed.

End Strategies.

(** ** [Searcher.search] *)

Section Search.

Implicit Types (w : World) (sr : Searcher) (needle : str).

(** The four [except] clauses of [search] answer [False] to every
    contained exception. *)
Ltac caught e H :=
  destruct H as [H | ->]; [destruct e; try discriminate H; reflexivity
                          | reflexivity].

Lemma search_returns sr needle w :
  io_failures_only (w_fs w (linuxpath (cfg sr))) ->
  exists r : bool, (search sr needle w).1 = Ret r.
Proof.
  intros Hio. unfold search. rewrite try_fst.
  set (path := linuxpath (cfg sr)) in *.
  assert (forall m : M bool,
             (forall e, (m w).1 = Raise e -> contained e) ->
             exists r : bool,
               match (m w).1 with
               | Ret a => Ret a
               | Raise e =>
                   match lookup_handler
                     [ ([FileNotFoundError], fun _ : exc =>
                          log ERROR "Dataset file not found during search: %s";; mret false);
                       ([PermissionError], fun _ =>
                          log ERROR "Permission denied accessing dataset during search: %s";;
                          mret false);
                       ([OSError; IOError], fun _ =>
                          log ERROR "IO error during search for query %r: %s";; mret false);
                       ([TypeError; ValueError], fun _ =>
                          log ERROR "Invalid data type in search for query %r: %s";;
                          mret false) ] e with
                   | Some h => (h e w).1
                   | None => Raise e
                   end
               end = Ret r) as Hcatch.
  { intros m Hm. destruct (m w).1 as [a|e]; [by eexists|].
    exists false. specialize (Hm e eq_refl). caught e Hm. }
  apply Hcatch. intros e.
  pose proof (proj1 Hio) as Hr.
  repeat match goal with
         | |- context [if ?c then _ else _] => destruct c
         | |- context [match ?c with _ => _ end] => destruct c
         end;
    rewrite ?bind_fst, ?load_lines_set_fst, ?load_lines_list_fst;
    try (destruct (n_read (w_fs w path)) as [d|e'] eqn:Hrd; simpl;
         [|intros [= <-]; left; by apply Hr]);
    try done;
    try apply (mmap_search_raises path needle w e Hio);
    try (rewrite binary_search_sorted_returns; by destruct (bisect_left _ _)).
Qed.

Lemma search_unreadable sr needle w e :
  io_failures_only (w_fs w (linuxpath (cfg sr))) ->
  reads_dataset sr ->
  n_read (w_fs w (linuxpath (cfg sr))) = Raise e ->
  (search sr needle w).1 = Ret false.
Proof.
  intros Hio Hrd He. unfold search. rewrite try_fst.
  set (path := linuxpath (cfg sr)) in *.
  pose proof (proj1 Hio e He) as Hos.
  assert (forall m : M bool,
             (m w).1 = Ret false \/ (exists e', (m w).1 = Raise e' /\ contained e') ->
             match (m w).1 with
             | Ret a => Ret a
             | Raise e =>
                 match lookup_handler
                   [ ([FileNotFoundError], fun _ : exc =>
                        log ERROR "Dataset file not found during search: %s";; mret false);
                     ([PermissionError], fun _ =>
                        log ERROR "Permission denied accessing dataset during search: %s";;
                        mret false);
                     ([OSError; IOError], fun _ =>
                        log ERROR "IO error during search for query %r: %s";; mret false);
                     ([TypeError; ValueError], fun _ =>
                        log ERROR "Invalid data type in search for query %r: %s";;
                        mret false) ] e with
                 | Some h => (h e w).1
                 | None => Raise e
                 end
             end = Ret false) as Hcatch.
  { intros m [-> | (e' & -> & Hc)]; [done|]. caught e' Hc. }
  assert ((sa.mmap_search path needle w).1 = Ret false
          \/ (exists e', (sa.mmap_search path needle w).1 = Raise e' /\ contained e'))
    as Hmmap.
  { destruct (mmap_search_unreadable path needle w e He Hos)
      as [? | (e' & ? & [Hg | ->])]; [by left|right..].
    - exists e'. split; [done|]. left. by apply (proj2 Hio).
    - exists UnicodeEncodeError. split; [done|]. by right. }
  apply Hcatch.
  destruct Hrd as [-> | (-> & -> & ->)].
  - repeat match goal with
           | |- context [if ?c then _ else _] => destruct c
           end;
      rewrite ?bind_fst, ?load_lines_set_fst, ?load_lines_list_fst, ?He;
      try exact Hmmap; right; exists e; split; try done; by left.
  - destruct (reread_on_query (cfg sr)); [|exact Hmmap].
    repeat match goal with
           | |- context [if ?c then _ else _] => destruct c
           end;
      rewrite ?bind_fst, ?load_lines_set_fst, ?load_lines_list_fst, ?He;
      try exact Hmmap; right; exists e; split; try done; by left.
Qed.

End Search.

(** ** Failing operations on the dataset *)

Section SearchFailures.

Implicit Types (w : World) (sr : Searcher) (needle : str) (path : string).

Lemma failed_open_or_log path w ev :
  open_or_log path ev = true -> failed_in w ev ->
  exists e, n_read (w_fs w path) = Raise e.
Proof.
  destruct ev; try done. simpl. by intros ->%bool_decide_eq_true.
Qed.

Lemma failed_is_log w ev : is_log ev = true -> failed_in w ev -> False.
Proof. by destruct ev. Qed.

Lemma read_text_lines_events path : emits (open_or_log path) (sa.read_text_lines path).
Proof.
  unfold sa.read_text_lines. apply emits_bind; [|intros ?; solve_emits].
  apply emits_syscall. simpl. by apply bool_decide_eq_true.
Qed.

Lemma load_lines_list_events path : emits (open_or_log path) (sa.load_lines_list path).
Proof.
  unfold sa.load_lines_list.
  apply emits_try; [|repeat constructor; intros ?; simpl; solve_emits].
  apply emits_bind; [apply read_text_lines_events|intros ?; solve_emits].
Qed.

Lemma load_lines_set_events path : emits (open_or_log path) (sa.load_lines_set path).
Proof.
  unfold sa.load_lines_set.
  apply emits_try; [|repeat constructor; intros ?; simpl; solve_emits].
  apply emits_bind; [apply read_text_lines_events|intros ?; solve_emits].
Qed.

Lemma binary_search_sorted_logs (lines : list pyval) (x : pyval) :
  emits is_log (sa.binary_search_sorted lines x).
Proof. unfold sa.binary_search_sorted. solve_emits. Qed.

(** A failing operation in the events of [mmap_search]: the scan answers
    false, or raises what [getsize] raised. *)
Lemma mmap_search_failed path needle w ev :
  io_failures_only (w_fs w path) ->
  ev ∈ (sa.mmap_search path needle w).2 -> failed_in w ev ->
  (sa.mmap_search path needle w).1 = Ret false
  \/ exists e, (sa.mmap_search path needle w).1 = Raise e /\ contained e.
Proof.
  intros [Hr Hg]. rewrite mmap_search_snd, mmap_search_fst. cbv zeta.
  destruct (n_exists (w_fs w path)) eqn:Hex; simpl; [|by left].
  destruct (n_getsize (w_fs w path)) as [size|e] eqn:Hsz.
  2: { intros _ _. right. exists e. split; [done|]. left. by apply Hg. }
  destruct (size =? 0)%nat; [by left|].
  destruct (encode_utf8 _) as [nb|e] eqn:Henc.
  2: { intros _ _. right. exists e. split; [done|]. right.
       by eapply encode_utf8_raises. }
  destruct (n_read (w_fs w path)) as [[|c mm]|e] eqn:Hrd; [by left| |].
  - intros Hin Hfail. exfalso. revert Hfail.
    repeat first [ apply elem_of_cons in Hin as [->|Hin]
                 | apply elem_of_nil in Hin as [] ]; simpl;
      rewrite ?Hex, ?Hsz, ?Hrd; try done.
    + by intros [? ?].
    + intros [?|[? ?]]; done.
  - intros _ _. left. by rewrite (Hr e eq_refl).
Qed.

Lemma search_failure_false sr needle w :
  io_failures_only (w_fs w (linuxpath (cfg sr))) ->
  dataset_failure sr needle w ->
  (search sr needle w).1 = Ret false.
Proof.
  intros Hio (ev & Hin & Hfail).
  set (path := linuxpath (cfg sr)) in *.
  assert (forall m : M bool,
             (m w).1 = Ret false \/ (exists e', (m w).1 = Raise e' /\ contained e') ->
             match (m w).1 with
             | Ret a => Ret a
             | Raise e =>
                 match lookup_handler
                   [ ([FileNotFoundError], fun _ : exc =>
                        log ERROR "Dataset file not found during search: %s";; mret false);
                     ([PermissionError], fun _ =>
                        log ERROR "Permission denied accessing dataset during search: %s";;
                        mret false);
                     ([OSError; IOError], fun _ =>
                        log ERROR "IO error during search for query %r: %s";; mret false);
                     ([TypeError; ValueError], fun _ =>
                        log ERROR "Invalid data type in search for query %r: %s";;
                        mret false) ] e with
                 | Some h => (h e w).1
                 | None => Raise e
                 end
             end = Ret false) as Hcatch.
  { intros m [-> | (e' & -> & [Hc | ->])]; [done| |done].
    destruct e'; try discriminate Hc; reflexivity. }
  unfold search in Hin. fold path in Hin. rewrite try_snd in Hin.
  apply elem_of_app in Hin as [Hin|Hin].
  2: { exfalso. destruct (_ w).1 as [a|e] in Hin; [by apply elem_of_nil in Hin|].
       destruct (lookup_handler _ e) as [h|] eqn:E; [|by apply elem_of_nil in Hin].
       simpl in E.
       repeat match type of E with
              | (if ?c then _ else _) = _ => destruct c
              end; simplify_eq;
         apply list_elem_of_singleton in Hin; by subst. }
  assert (forall {A} (m : M A), emits (open_or_log path) m -> ev ∈ (m w).2 ->
            exists e, n_read (w_fs w path) = Raise e) as Hopen.
  { intros A m Hm Hev. eapply failed_open_or_log; [|exact Hfail].
    specialize (Hm w). rewrite Forall_forall in Hm. by apply Hm. }
  assert (forall {A} (m : M A), emits is_log m -> ev ∈ (m w).2 -> False) as Hlog.
  { intros A m Hm Hev. eapply failed_is_log; [|exact Hfail].
    specialize (Hm w). rewrite Forall_forall in Hm. by apply Hm. }
  assert (reads_dataset sr ->
          (exists e, n_read (w_fs w path) = Raise e) ->
          (search sr needle w).1 = Ret false) as Hread.
  { intros Hrd [e He]. by eapply search_unreadable. }
  assert (ev ∈ (sa.mmap_search path needle w).2 ->
          (try_ (sa.mmap_search path needle)
             [ ([FileNotFoundError], fun _ : exc =>
                  log ERROR "Dataset file not found during search: %s";; mret false);
               ([PermissionError], fun _ =>
                  log ERROR "Permission denied accessing dataset during search: %s";;
                  mret false);
               ([OSError; IOError], fun _ =>
                  log ERROR "IO error during search for query %r: %s";; mret false);
               ([TypeError; ValueError], fun _ =>
                  log ERROR "Invalid data type in search for query %r: %s";;
                  mret false) ] w).1 = Ret false) as Hscan.
  { intros Hev. rewrite try_fst. apply Hcatch.
    by eapply mmap_search_failed. }
  revert Hin.
  destruct (reread_on_query (cfg sr)) eqn:Hre.
  - destruct (is_alg (cfg sr) "set") eqn:Hset.
    { intros Hin. apply Hread; [by left|]. eapply Hopen; [|exact Hin].
      apply emits_bind; [apply load_lines_set_events|intros ?; solve_emits]. }
    destruct (is_alg (cfg sr) "list") eqn:Hlist.
    { intros Hin. apply Hread; [by left|]. eapply Hopen; [|exact Hin].
      apply emits_bind; [apply load_lines_list_events|intros ?; solve_emits]. }
    destruct (is_alg (cfg sr) "mmap") eqn:Hmmap.
    { intros Hin. unfold search. fold path. rewrite Hre, Hset, Hlist, Hmmap.
      by apply Hscan. }
    destruct (is_alg (cfg sr) "binary") eqn:Hbin.
    2: { intros Hin. unfold search. fold path. rewrite Hre, Hset, Hlist, Hmmap, Hbin.
         by apply Hscan. }
    intros Hin. apply Hread; [by left|]. eapply Hopen; [|exact Hin].
    apply emits_bind; [apply load_lines_list_events|intros ?].
    eapply emits_impl; [|apply binary_search_sorted_logs].
    intros ev'. by destruct ev'.
  - destruct (_cached_set sr) as [cs|] eqn:Hcs.
    { intros Hin. exfalso. eapply Hlog; [|exact Hin]. solve_emits. }
    destruct (_cached_list sr) as [cl|] eqn:Hcl.
    { intros Hin. exfalso. eapply Hlog; [|exact Hin]. solve_emits. }
    destruct (_cached_sorted sr) as [cso|] eqn:Hcso.
    { intros Hin. exfalso. eapply Hlog; [|exact Hin]. apply binary_search_sorted_logs. }
    intros Hin. unfold search. fold path. rewrite Hre, Hcs, Hcl, Hcso.
    by apply Hscan.
Qed.

End SearchFailures.

(** C5: a failing operation on the dataset during [search] -- the file
    missing, its size or its content not to be had, permission denied, any
    other error of the operating system -- never leaves [search]: the call
    returns a boolean, and the boolean is [False] whenever any file-system
    operation that the search performed did not succeed; in particular
    whenever the search had to read the file and the read failed. *)
Theorem search_contains_dataset_failures (sr : Searcher) (needle : str) (w : World) :
  io_failures_only (w_fs w (linuxpath (cfg sr))) ->
  (exists r : bool, (search sr needle w).1 = Ret r)
  /\ (dataset_failure sr needle w -> (search sr needle w).1 = Ret false)
  /\ (reads_dataset sr ->
      forall e, n_read (w_fs w (linuxpath (cfg sr))) = Raise e ->
                (search sr needle w).1 = Ret false).
Proof.
  intros Hio. split; [by apply search_returns|]. split.
  - by apply search_failure_false.
  - intros Hrd e He. by eapply search_unreadable.
Qed.

Lemma search_contains_dataset_failures_witness :
  let node := {| n_exists := true; n_getsize := Raise PermissionError;
                 n_read := Ret fruit |} in
  let w := with_file quiet_world "data.txt" node in
  let sr := empty_searcher (mk_config "data.txt" "mmap" true) in
  io_failures_only (w_fs w (linuxpath (cfg sr)))
  /\ dataset_failure sr (u "apple") w
  /\ (search sr (u "apple") w).1 = Ret false.
Proof.
  cbv zeta.
  set (w := with_file quiet_world "data.txt"
              {| n_exists := true; n_getsize := Raise PermissionError;
                 n_read := Ret fruit |}).
  set (sr := empty_searcher (mk_config "data.txt" "mmap" true)).
  assert (io_failures_only (w_fs w (linuxpath (cfg sr)))) as Hio.
  { split; intros e H; [discriminate H|]. injection H as <-. reflexivity. }
  assert (dataset_failure sr (u "apple") w) as Hfail.
  { exists (EvGetsize "data.txt"). split.
    - cbv -[elem_of]. in_trace.
    - exists PermissionError. reflexivity. }
  split; [exact Hio|]. split; [exact Hfail|].
  exact (proj1 (proj2 (search_contains_dataset_failures sr (u "apple") w Hio)) Hfail).
Defined.

(** ** Exact-line search: the loaders' strategies *)

Section ExactLine.

Implicit Types (w : World) (sr : Searcher) (needle : str) (data : bytes).

Lemma sorted_Sorted (l : list str) : Sorted str_le (sorted l).
Proof. apply Sorted_merge_sort. apply _. Qed.

Lemma elem_of_sorted (l : list str) (x : str) : x ∈ sorted l <-> x ∈ l.
Proof. unfold sorted. by rewrite merge_sort_Permutation. Qed.

(** Reread mode with the hash-set, sequence-scan or binary-search strategy
    answers exactly "is [needle] a line of the file". *)
Lemma search_reread_exact sr needle w data :
  reread_on_query (cfg sr) = true ->
  default_algorithm (cfg sr) ∈ ["set"; "list"; "binary"] ->
  n_read (w_fs w (linuxpath (cfg sr))) = Ret data ->
  (search sr needle w).1 = Ret (bool_decide (needle ∈ file_lines data)).
Proof.
  intros Hre Halg Hrd. unfold search, is_alg. rewrite try_fst, Hre.
  rewrite !elem_of_cons, elem_of_nil in Halg.
  destruct Halg as [-> | [-> | [-> | []]]]; simpl;
    rewrite bind_fst, ?load_lines_set_fst, ?load_lines_list_fst, Hrd; simpl.
  - f_equal. apply bool_decide_ext. apply elem_of_list_to_set.
  - done.
  - rewrite binary_search_sorted_member by apply sorted_Sorted.
    f_equal. apply bool_decide_ext. apply elem_of_sorted.
Qed.

(** Cache mode: the structure built at construction answers the same
    question about the file as it was then. *)
Lemma search_cached_exact (c : Config) needle w0 w1 data :
  reread_on_query c = false ->
  default_algorithm c ∈ ["set"; "list"; "binary"] ->
  n_read (w_fs w0 (linuxpath c)) = Ret data ->
  exists sr, (Searcher_init c w0).1 = Ret sr
    /\ (search sr needle w1).1 = Ret (bool_decide (needle ∈ file_lines data)).
Proof.
  intros Hre Halg Hrd. unfold Searcher_init, _preload, is_alg.
  rewrite Hre. simpl. rewrite try_fst.
  rewrite !elem_of_cons, elem_of_nil in Halg.
  destruct Halg as [Ha | [Ha | [Ha | []]]]; rewrite Ha; simpl;
    rewrite bind_fst, ?load_lines_set_fst, ?load_lines_list_fst, Hrd; simpl;
    eexists; (split; [reflexivity|]);
    unfold search; rewrite try_fst; simpl; rewrite Hre; simpl.
  - f_equal. apply bool_decide_ext. apply elem_of_list_to_set.
  - done.
  - rewrite binary_search_sorted_member by apply sorted_Sorted.
    f_equal. apply bool_decide_ext. apply elem_of_sorted.
Qed.

End ExactLine.

(** C1: the memory-mapped strategy is not an exact full-line match.  With
    the three-line file of the tests, reread mode and the memory-map
    strategy, the query [pple] is answered true although no line equals it;
    and when the file does not end in a newline, its last line [banana] is
    answered false. *)
Theorem search_mmap_not_full_line :
  let c := mk_config "data.txt" "mmap" true in
  (bool_decide (u "pple" ∈ file_lines fruit) = false
   /\ build_then_search c fruit_world fruit_world (u "pple") = Ret true)
  /\ (let w := with_file quiet_world "data.txt" (regular_file fruit_open_end) in
      bool_decide (u "banana" ∈ file_lines fruit_open_end) = true
      /\ build_then_search c w w (u "banana") = Ret false).
Proof. vm_compute. done. Qed.

(** The same queries under the loaders' strategies, in both modes. *)
Example search_set_list_binary_full_line :
  (fun '(alg, reread) =>
     let c := mk_config "data.txt" alg reread in
     let w := with_file quiet_world "data.txt" (regular_file fruit_open_end) in
     (build_then_search c fruit_world fruit_world (u "pple"),
      build_then_search c fruit_world fruit_world (u "banana"),
      build_then_search c w w (u "banana")))
    <$> [("set", true); ("set", false); ("list", true); ("list", false);
         ("binary", true); ("binary", false)]
  = replicate 6 (Ret false, Ret true, Ret true).
Proof. vm_compute. reflexivity. Qed.

(** ** Start-up *)

(** C2: with TLS enabled and no certificate path configured, [start] binds,
    listens and then lets the [RuntimeError] of [wrap_socket_if_needed]
    escape: none of its [except] clauses matches it. *)
Theorem start_missing_cert_raises :
  start (server_of (tls_config None (Some "key.pem"))) quiet_world
  = (Raise RuntimeError,
     [EvLog INFO "Starting server on %s:%d SSL=%s";
      EvBind "127.0.0.1" 44445; EvListen 50]).
Proof. vm_compute. reflexivity. Qed.

(** The sibling failures of the same step are contained: when loading the
    certificate chain or wrapping the socket fails with an [OSError]
    (which [ssl.SSLError] is), [start] returns without accepting. *)
Lemma start_tls_failure_contained (c : Config) (cert key : string) (w : World) (e : exc) :
  ssl_enabled c = true ->
  ssl_certfile c = Some cert -> ssl_keyfile c = Some key ->
  cert <> "" -> key <> "" ->
  w_bind w = Ret tt -> w_listen w = Ret tt ->
  isinstance e OSError = true ->
  w_load_cert_chain w cert key = Raise e
  \/ (w_load_cert_chain w cert key = Ret tt /\ w_wrap_socket w = Raise e) ->
  (start (server_of c) w).1 = Ret tt
  /\ EvAccept ∉ (start (server_of c) w).2.
Proof.
  intros Hssl Hc Hk Hcn Hkn Hb Hl He Hfail.
  unfold start, mbind, M_bind, try_, log, sock_bind, sock_listen, syscall,
    wrap_socket_if_needed, create_server_ssl_context, raise, mret, M_ret,
    truthy, server_of; simpl.
  rewrite Hb, Hl, Hssl, Hc, Hk. simpl.
  rewrite !bool_decide_eq_false_2 by done. simpl.
  unfold mbind, M_bind, syscall; simpl.
  destruct Hfail as [-> | [-> ->]]; simpl;
    destruct e; try discriminate He; simpl;
    (split; [done|]); intros Hin; repeat (apply elem_of_cons in Hin as [?|Hin]; [done|]);
    by apply elem_of_nil in Hin.
Qed.

(** With certificate and key in place the context is built after [bind] and
    [listen] and before the first [accept], with both legacy versions
    switched off. *)
Example start_tls_order :
  let w := {| w_fs := w_fs quiet_world; w_run := w_run quiet_world;
              w_bind := Ret tt; w_listen := Ret tt;
              w_ssl_default_options := 0;
              w_load_cert_chain := fun _ _ => Ret tt; w_wrap_socket := Ret tt;
              w_accepts := [Accepted; AcceptFails OSError true];
              w_client_tls := Ret tt; w_connect := Ret tt; w_recv := Ret [];
              w_sendall := fun _ => Ret tt; w_shutdown := Ret tt;
              w_close := Ret tt; w_perf_counter := fun _ => 0%float |} in
  start (server_of (tls_config (Some "cert.pem") (Some "key.pem"))) w
  = (Ret tt,
     [EvLog INFO "Starting server on %s:%d SSL=%s";
      EvBind "127.0.0.1" 44445; EvListen 50;
      EvLoadCertChain "cert.pem" "key.pem";
      EvWrapSocket (Z.lor OP_NO_TLSv1 OP_NO_TLSv1_1);
      EvAccept; EvThreadStart; EvAccept; EvClose]).
Proof. vm_compute. reflexivity. Qed.

(** ** The external-process strategy *)

Section Grep.

Implicit Types (w : World) (path : string) (needle : str).

Lemma grep_subprocess_fst path needle w :
  (sa.grep_subprocess path needle w).1 =
    if n_exists (w_fs w path) then
      match w_run w (sa.grep_argv path needle) with
      | Ret returncode => Ret (returncode =? 0)%Z
      | Raise e =>
          if isinstance e FileNotFoundError || isinstance e TimeoutExpired
             || isinstance e OSError || isinstance e SubprocessError
          then Ret false else Raise e
      end
    else Ret false.
Proof.
  unfold sa.grep_subprocess. rewrite bind_fst. simpl.
  destruct (n_exists (w_fs w path)); simpl; [|done].
  rewrite try_fst, bind_fst. simpl.
  destruct (w_run w _) as [rc|e]; [done|].
  destruct e; reflexivity.
Qed.



End Grep.




(** ** A dataset that is missing when the Searcher is built *)

Section Preload.

Implicit Types (c : Config) (w : World) (needle : str).

Lemma preload_failure_fst c w e :
  reread_on_query c = false ->
  n_read (w_fs w (linuxpath c)) = Raise e ->
  isinstance e OSError = true ->
  (Searcher_init c w).1 = Ret (empty_searcher c).
Proof.
  intros Hre Hrd He. unfold Searcher_init, _preload. rewrite Hre. simpl.
  rewrite try_fst.
  assert (forall (m : M Searcher), (m w).1 = Raise e ->
            match (m w).1 with
            | Ret a => Ret a
            | Raise e0 =>
                match lookup_handler
                  [ ([FileNotFoundError], fun _ : exc =>
                       log ERROR "Dataset file not found: %s";;
                       mret (empty_searcher c));
                    ([PermissionError], fun _ =>
                       log ERROR "Permission denied reading dataset: %s";;
                       mret (empty_searcher c));
                    ([OSError; IOError], fun _ =>
                       log ERROR "Error loading dataset file %s: %s";;
                       mret (empty_searcher c)) ] e0 with
                | Some h => (h e0 w).1
                | None => Raise e0
                end
            end = Ret (empty_searcher c)) as Hcatch.
  { intros m ->. destruct e; try discriminate He; reflexivity. }
  apply Hcatch.
  repeat match goal with
         | |- context [if ?b then _ else _] => destruct b
         end;
    by rewrite bind_fst, ?load_lines_set_fst, ?load_lines_list_fst, Hrd.
Qed.

Lemma preload_failure_logged c w e :
  reread_on_query c = false ->
  n_read (w_fs w (linuxpath c)) = Raise e ->
  isinstance e OSError = true ->
  exists fmt, EvLog ERROR fmt ∈ (Searcher_init c w).2.
Proof.
  intros Hre Hrd He. unfold Searcher_init, _preload. rewrite Hre. simpl.
  rewrite try_snd.
  assert (forall (m : M Searcher), (m w).1 = Raise e ->
            exists fmt, EvLog ERROR fmt ∈
              (m w).2 ++
              match (m w).1 with
              | Ret a => []
              | Raise e0 =>
                  match lookup_handler
                    [ ([FileNotFoundError], fun _ : exc =>
                         log ERROR "Dataset file not found: %s";;
                         mret (empty_searcher c));
                      ([PermissionError], fun _ =>
                         log ERROR "Permission denied reading dataset: %s";;
                         mret (empty_searcher c));
                      ([OSError; IOError], fun _ =>
                         log ERROR "Error loading dataset file %s: %s";;
                         mret (empty_searcher c)) ] e0 with
                  | Some h => (h e0 w).2
                  | None => []
                  end
              end) as Hcatch.
  { intros m ->. destruct e; try discriminate He; simpl;
      eexists; apply elem_of_app; right; by left. }
  apply Hcatch.
  repeat match goal with
         | |- context [if ?b then _ else _] => destruct b
         end;
    by rewrite bind_fst, ?load_lines_set_fst, ?load_lines_list_fst, Hrd.
Qed.

Lemma search_empty_cache_missing c needle w :
  reread_on_query c = false ->
  n_exists (w_fs w (linuxpath c)) = false ->
  (search (empty_searcher c) needle w).1 = Ret false.
Proof.
  intros Hre Hex. unfold search. rewrite try_fst. simpl. rewrite Hre.
  rewrite mmap_search_fst. simpl. by rewrite Hex.
Qed.

End Preload.

(** C8, counterexample: the Searcher is built in cache mode while the
    dataset is missing; the file then appears, and the very same Searcher --
    no restart -- answers true for one of its lines. *)
Lemma preload_missing_then_fixed_counterexample :
  let c := mk_config "data.txt" "set" false in
  n_exists (w_fs quiet_world (linuxpath c)) = false
  /\ build_then_search c quiet_world fruit_world (u "apple") = Ret true.
Proof. vm_compute. done. Qed.

(** ** Start-up does not depend on the dataset *)

Section Startup.

Implicit Types (self : TCPServer) (w : World).

(** Once the socket is set up, [start] runs the accept loop and closes the
    socket after it. *)
Lemma start_enters_loop self w :
  setup_succeeds (srv_cfg self) w ->
  exists tls,
    (start self w).2 =
      [EvLog INFO "Starting server on %s:%d SSL=%s";
       EvBind (host (srv_cfg self)) (port (srv_cfg self)); EvListen 50]
      ++ tls ++ (accept_loop (w_accepts w) w).2 ++ [EvClose].
Proof.
  intros (Hb & Hl & Htls). unfold start.
  match goal with
  | |- context [try_ ?m ?hs ≫= ?k] => set (setup := try_ m hs); set (cont := k)
  end.
  assert (exists tls,
             setup w = (Ret true,
                        [EvBind (host (srv_cfg self)) (port (srv_cfg self));
                         EvListen 50] ++ tls)) as [tls Hsetup].
  { unfold setup, try_, mbind, M_bind, sock_bind, sock_listen, syscall. simpl.
    rewrite Hb. simpl. rewrite Hl.
    destruct (ssl_enabled (srv_cfg self)); [|by exists []].
    destruct (Htls eq_refl) as (cf & kf & Hc & Hk & Hcn & Hkn & Hload & Hwrap).
    simpl. unfold wrap_socket_if_needed, truthy. rewrite Hc, Hk. simpl.
    rewrite !bool_decide_eq_false_2 by done. simpl.
    unfold create_server_ssl_context, mbind, M_bind, syscall. simpl.
    rewrite Hload, Hwrap. by eexists [_; _]. }
  assert ((try_ sock_close [ ([OSError], fun _ : exc => (mret tt : M unit)) ] w).2
          = [EvClose]) as Hfin.
  { rewrite try_snd. unfold sock_close, syscall. simpl.
    destruct (w_close w) as [[]|e']; [done|]. simpl.
    by destruct (isinstance e' OSError). }
  exists tls.
  rewrite !bind_snd, ?bind_fst. unfold log at 1 2. cbn [fst snd].
  rewrite Hsetup. cbn [fst snd]. unfold cont.
  rewrite finally_snd, Hfin. by rewrite <- !app_assoc.
Qed.

(** With nothing cached, a search in cache mode is the memory-mapped scan
    whenever the scan returns. *)
Lemma search_empty_cache_scans (c : Config) (needle : str) w (r : bool) :
  reread_on_query c = false ->
  (sa.mmap_search (linuxpath c) needle w).1 = Ret r ->
  search (empty_searcher c) needle w = sa.mmap_search (linuxpath c) needle w.
Proof.
  intros Hre Hr. unfold search. simpl. rewrite Hre. unfold try_.
  destruct (sa.mmap_search (linuxpath c) needle w) as [[a|e] t]; [done|].
  discriminate Hr.
Qed.

End Startup.

(** C8, amended: in cache mode a dataset that cannot be read at preload time
    does not stop the construction of the Searcher or of the Server -- the
    failure is logged and nothing is cached -- nor the start-up: once the
    set-up of the socket goes through, [start] runs the accept loop.  Later
    queries are answered false for as long as the file is missing or
    unreadable; as soon as the memory-mapped scan of the path returns, the
    same Searcher answers with it: a file that is back is searched, for the
    bytes of the query followed by a line feed, without a restart. *)
Theorem preload_missing_dataset (c : Config) (w0 w : World) (needle : str) (e : exc) :
  reread_on_query c = false ->
  n_read (w_fs w0 (linuxpath c)) = Raise e ->
  isinstance e OSError = true ->
  (Searcher_init c w0).1 = Ret (empty_searcher c)
  /\ (TCPServer_init c w0).1 = Ret (server_of c)
  /\ (exists fmt, EvLog ERROR fmt ∈ (Searcher_init c w0).2)
  /\ (setup_succeeds c w ->
      exists tls,
        (start (server_of c) w).2 =
          [EvLog INFO "Starting server on %s:%d SSL=%s";
           EvBind (host c) (port c); EvListen 50]
          ++ tls ++ (accept_loop (w_accepts w) w).2 ++ [EvClose])
  /\ (n_exists (w_fs w (linuxpath c)) = false ->
      (search (empty_searcher c) needle w).1 = Ret false)
  /\ (io_failures_only (w_fs w (linuxpath c)) ->
      forall e', n_read (w_fs w (linuxpath c)) = Raise e' ->
                 (search (empty_searcher c) needle w).1 = Ret false)
  /\ (forall r, (sa.mmap_search (linuxpath c) needle w).1 = Ret r ->
                search (empty_searcher c) needle w
                = sa.mmap_search (linuxpath c) needle w)
  /\ (forall data needle_bytes,
        w_fs w (linuxpath c) = regular_file data -> data <> [] ->
        encode_utf8 (needle ++ [10%N]) = Ret needle_bytes ->
        (search (empty_searcher c) needle w).1
        = Ret (negb (sa.find data needle_bytes =? -1)%Z)).
Proof.
  intros Hre Hrd He.
  pose proof (preload_failure_fst c w0 e Hre Hrd He) as Hinit.
  split; [done|]. split; [|split; [|split; [|split; [|split; [|split]]]]].
  - unfold TCPServer_init. by rewrite bind_fst, Hinit.
  - by eapply preload_failure_logged.
  - intros Hsetup. exact (start_enters_loop (server_of c) w Hsetup).
  - by apply search_empty_cache_missing.
  - intros Hio e' He'. eapply (search_unreadable (empty_searcher c)); [done| |done].
    right. done.
  - intros r Hr. by eapply search_empty_cache_scans.
  - intros data nb Hfs Hdata Henc.
    assert ((sa.mmap_search (linuxpath c) needle w).1
            = Ret (negb (sa.find data nb =? -1)%Z)) as Hscan.
    { rewrite mmap_search_fst, Hfs. destruct data as [|d ds]; [done|].
      cbn [regular_file n_exists n_getsize n_read negb length Nat.eqb].
      by rewrite Henc. }
    by rewrite (search_empty_cache_scans c needle w _ Hre Hscan).
Qed.

Lemma preload_missing_dataset_witness :
  let c := mk_config "data.txt" "set" false in
  reread_on_query c = false
  /\ n_read (w_fs quiet_world (linuxpath c)) = Raise FileNotFoundError
  /\ isinstance FileNotFoundError OSError = true
  /\ (Searcher_init c quiet_world).1 = Ret (empty_searcher c)
  /\ search (empty_searcher c) (u "apple") fruit_world
     = sa.mmap_search (linuxpath c) (u "apple") fruit_world.
Proof.
  split; [reflexivity|]. split; [reflexivity|]. split; [reflexivity|].
  pose proof (preload_missing_dataset (mk_config "data.txt" "set" false)
                quiet_world fruit_world (u "apple") FileNotFoundError
                eq_refl eq_refl eq_refl) as (Hinit & _ & _ & _ & _ & _ & Hscan & _).
  split; [exact Hinit|].
  apply (Hscan true). vm_compute. reflexivity.
Defined.

(** ** [rstrip] *)

Section Rstrip.

Context {A : Type} (p : A -> bool).




End Rstrip.

(** ** The connection handler *)

Section Handler.

Context {X : Type} (f : event -> option X).
Hypothesis f_plain : forall ev, plain ev = true -> f ev = None.

Lemma omap_plain (t : list event) :
  Forall (fun ev => plain ev = true) t -> omap f t = [].
Proof.
  induction 1 as [|ev t Hev _ IH]; simpl; [done|].
  by rewrite (f_plain ev Hev).
Qed.

Lemma omap_emits {A} (m : M A) (w : World) :
  emits plain m -> omap f (m w).2 = [].
Proof. intros Hm. apply omap_plain, Hm. Qed.

Lemma search_plain sr needle : emits plain (search sr needle).
Proof.
  intros w. eapply Forall_impl; [apply search_quiet|].
  intros ev. by destruct ev.
Qed.

Lemma teardown_plain :
  emits plain (try_ sock_shutdown [ ([OSError], fun _ => mret tt) ];;
               try_ sock_close [ ([OSError], fun _ => mret tt) ]).
Proof. unfold sock_shutdown, sock_close. solve_emits. Qed.

Lemma safe_recv_plain max_len : emits plain (safe_recv max_len).
Proof. unfold safe_recv, sock_recv. solve_emits. Qed.

Lemma safe_recv_fst (max_len : Z) (w : World) :
  (safe_recv max_len w).1 =
    if (max_len <? SSIZE_MIN)%Z || (SSIZE_MAX <? max_len)%Z
    then Raise OverflowError
    else if (max_len <? 0)%Z then Raise ValueError
    else if (RECV_MAX <? max_len)%Z then Raise OverflowError
    else match w_recv w with
         | Ret data => Ret (rstrip is_NUL (take (Z.to_nat max_len) data))
         | Raise e => Raise e
         end.
Proof.
  unfold safe_recv. rewrite bind_fst. cbn [sock_recv syscall fst].
  destruct ((max_len <? SSIZE_MIN)%Z || (SSIZE_MAX <? max_len)%Z); [done|].
  destruct (max_len <? 0)%Z; [done|].
  destruct (RECV_MAX <? max_len)%Z; [done|]. by destruct (w_recv w).
Qed.

(** The three checks of [recv] on its size, as one case distinction. *)
Lemma safe_recv_cases (max_len : Z) (w : World) :
  (safe_recv max_len w).1 =
    if (max_len <? SSIZE_MIN)%Z || (RECV_MAX <? max_len)%Z
    then Raise OverflowError
    else if (max_len <? 0)%Z then Raise ValueError
    else match w_recv w with
         | Ret data => Ret (rstrip is_NUL (take (Z.to_nat max_len) data))
         | Raise e => Raise e
         end.
Proof.
  rewrite safe_recv_fst. unfold RECV_MAX, SSIZE_MAX, SSIZE_MIN, PyBytesObject_SIZE.
  destruct (Z.ltb_spec max_len (- 2 ^ 63)); destruct (Z.ltb_spec (2 ^ 63 - 1) max_len);
    destruct (Z.ltb_spec max_len 0); destruct (Z.ltb_spec (2 ^ 63 - 1 - 33) max_len);
    simpl; try reflexivity; lia.
Qed.

(** A size that [recv] accepts. *)
Lemma safe_recv_accepted (max_len : Z) (w : World) (data : bytes) :
  (0 <= max_len <= RECV_MAX)%Z ->
  w_recv w = Ret data ->
  (safe_recv max_len w).1 = Ret (rstrip is_NUL (take (Z.to_nat max_len) data)).
Proof.
  intros Hmax Hrecv. rewrite safe_recv_cases, Hrecv.
  destruct (Z.ltb_spec max_len SSIZE_MIN); [unfold SSIZE_MIN in *; lia|].
  destruct (Z.ltb_spec RECV_MAX max_len); [lia|].
  by destruct (Z.ltb_spec max_len 0); [lia|].
Qed.

Lemma send_response_omap (found : bool) (w : World) :
  omap f
    (try_ (if found then sock_sendall STRING_EXISTS
           else sock_sendall STRING_NOT_FOUND)
       [ ([BrokenPipeError], fun _ =>
            log WARNING "Connection broken before response sent: %s");
         ([ConnectionResetError], fun _ =>
            log WARNING "Connection reset by peer: %s");
         ([OSError], fun _ =>
            log WARNING "Socket error sending response to %s: %s") ] w).2
  = omap f [EvSendall (response found)].
Proof.
  rewrite try_snd, omap_app.
  match goal with
  | |- _ ++ omap f ?h = _ => assert (omap f h = []) as ->
  end.
  { apply omap_plain.
    destruct (_ w).1 as [a|e]; [constructor|].
    destruct (lookup_handler _ e) as [h|] eqn:E; [|constructor].
    simpl in E.
    repeat match type of E with
           | (if ?c then _ else _) = _ => destruct c
           end; simplify_eq; by repeat constructor. }
  rewrite app_nil_r. by destruct found.
Qed.

(** What a handler run shows of sends and logged queries. *)
Lemma handle_client_omap (self : TCPServer) (w : World) :
  omap f (_handle_client self w).2 =
    match (safe_recv (max_payload (srv_cfg self)) w).1 with
    | Raise _ => []
    | Ret raw =>
        match (search (searcher self) (decode_query raw) w).1 with
        | Raise _ => []
        | Ret found =>
            omap f [EvDebugQuery (decode_query raw); EvSendall (response found)]
        end
    end.
Proof.
  unfold _handle_client.
  rewrite finally_snd, omap_app, try_snd, omap_app.
  rewrite (omap_emits _ w teardown_plain).
  rewrite app_nil_r.
  match goal with
  | |- _ ++ omap f ?h = _ => assert (omap f h = []) as ->
  end.
  { apply omap_plain.
    destruct (_ w).1 as [a|e]; [constructor|].
    destruct (lookup_handler _ e) as [h|] eqn:E; [|constructor].
    simpl in E.
    repeat match type of E with
           | (if ?c then _ else _) = _ => destruct c
           end; simplify_eq; by repeat constructor. }
  rewrite app_nil_r, bind_snd, omap_app.
  rewrite (omap_emits _ w (safe_recv_plain _)).
  simpl. destruct (safe_recv _ w).1 as [raw|e]; [|done].
  rewrite bind_snd, omap_app. simpl.
  rewrite bind_snd, omap_app.
  rewrite (omap_emits _ w (search_plain _ _)).
  simpl. destruct (search _ _ w).1 as [found|e]; [|done].
  rewrite bind_snd. unfold debug_log. cbn [fst snd].
  rewrite omap_app, send_response_omap.
  symmetry. apply (omap_app f [_] [_]).
Qed.

End Handler.

Lemma handle_client_sent (self : TCPServer) (w : World) :
  sent (_handle_client self w).2 =
    match (safe_recv (max_payload (srv_cfg self)) w).1 with
    | Raise _ => []
    | Ret raw =>
        match (search (searcher self) (decode_query raw) w).1 with
        | Raise _ => []
        | Ret found => [response found]
        end
    end.
Proof.
  unfold sent. rewrite handle_client_omap; [|by intros []].
  destruct (safe_recv _ w).1; [|done]. by destruct (search _ _ w).1.
Qed.


(** C6, counterexample: the peer resets the connection before the request
    is read; the handler closes the socket without any response. *)
Lemma handle_client_reset_counterexample :
  ~ exactly_one_response fruit_server
      (with_recv fruit_world (Raise ConnectionResetError)).
Proof. intros [found H]. rewrite handle_client_sent in H. by destruct found. Qed.

(** C6, amended: a handler run hands at most one payload to [sendall], and
    it is one of the two literal lines.  When the bounded read returns and
    the search returns [found], it is exactly the line for [found]; when the
    read fails, nothing is sent. *)
Theorem handle_client_response (self : TCPServer) (w : World) (raw : bytes) (found : bool) :
  let t := (_handle_client self w).2 in
  let max_len := max_payload (srv_cfg self) in
  (sent t = [] \/ sent t = [STRING_EXISTS] \/ sent t = [STRING_NOT_FOUND])
  /\ ((safe_recv max_len w).1 = Ret raw ->
      (search (searcher self) (decode_query raw) w).1 = Ret found ->
      sent t = [if found then STRING_EXISTS else STRING_NOT_FOUND])
  /\ (forall e, (safe_recv max_len w).1 = Raise e -> sent t = []).
Proof.
  intros t max_len. unfold t, max_len. rewrite handle_client_sent.
  split; [|split].
  - destruct (safe_recv _ w).1 as [raw'|]; [|by left].
    destruct (search _ _ w).1 as [[|]|]; auto.
  - by intros -> ->.
  - by intros e ->.
Qed.

Lemma handle_client_response_witness :
  let w := with_recv fruit_world (Ret (b "banana")) in
  (safe_recv (max_payload (srv_cfg fruit_server)) w).1 = Ret (b "banana")
  /\ (search (searcher fruit_server) (decode_query (b "banana")) w).1 = Ret true
  /\ sent (_handle_client fruit_server w).2 = [STRING_EXISTS].
Proof.
  split; [reflexivity|]. split; [vm_compute; reflexivity|].
  refine (proj1 (proj2 (handle_client_response fruit_server
                          (with_recv fruit_world (Ret (b "banana")))
                          (b "banana") true)) eq_refl _).
  vm_compute. reflexivity.
Defined.




(** ** The client *)

Section Client.

Import client.








End Client.




(** At the limit the payload goes out. *)
Example query_string_at_limit :
  sent (client.query_string "127.0.0.1" 44445 (replicate 1024 97%N) false None
          quiet_world).2 = [replicate 1024 "a"%char].
Proof. vm_compute. reflexivity. Qed.


(** ** Scenarios *)

(** The dataset of the tests, as the loaders read it. *)
Example file_lines_fruit :
  file_lines fruit = [u "apple"; u "banana"; u "cherry"]
  /\ file_lines fruit_open_end = [u "apple"; u "banana"]
  /\ file_lines [] = []
  /\ file_lines (b "a" ++ [CR; LF] ++ b "b" ++ [CR]) = [u "a"; u "b"].
Proof. vm_compute. done. Qed.

(** Decoding replaces what is not UTF-8 and keeps what is. *)
Example decode_utf8_replace_samples :
  decode_utf8_replace (b "ok") = u "ok"
  /\ decode_utf8_replace [byte_of 0xC3; byte_of 0xA9] = [0xE9%N]
  /\ decode_utf8_replace [byte_of 0xE2; byte_of 0x82; byte_of 0xAC] = [0x20AC%N]
  /\ decode_utf8_replace [byte_of 0xFF; "a"%char] = [REPLACEMENT; 97%N]
  /\ decode_utf8_replace [byte_of 0xE2; byte_of 0x82] = [REPLACEMENT]
  /\ decode_utf8_replace [byte_of 0xED; byte_of 0xA0; byte_of 0x80]
     = [REPLACEMENT; REPLACEMENT; REPLACEMENT].
Proof. vm_compute. done. Qed.

Example encode_utf8_samples :
  encode_utf8 [0xE9%N] = Ret [byte_of 0xC3; byte_of 0xA9]
  /\ encode_utf8 [0x20AC%N] = Ret [byte_of 0xE2; byte_of 0x82; byte_of 0xAC]
  /\ encode_utf8 [0xD800%N] = Raise UnicodeEncodeError.
Proof. vm_compute. done. Qed.

(** One connection against the three-line dataset, hash-set strategy: the
    whole run of the handler for [banana], and the responses for [pear],
    for the empty request and for a request with line terminator and NUL
    padding. *)
Example handle_client_banana :
  _handle_client fruit_server (with_recv fruit_world (Ret (b "banana")))
  = (Ret tt,
     [EvRecv 1024; EvOpenText "data.txt"; EvDebugQuery (u "banana");
      EvSendall STRING_EXISTS; EvShutdown; EvClose]).
Proof. vm_compute. reflexivity. Qed.

Example handle_client_other_requests :
  sent (_handle_client fruit_server (with_recv fruit_world (Ret (b "pear")))).2
    = [STRING_NOT_FOUND]
  /\ sent (_handle_client fruit_server (with_recv fruit_world (Ret []))).2
    = [STRING_NOT_FOUND]
  /\ sent (_handle_client fruit_server
             (with_recv fruit_world (Ret (b "cherry" ++ [CR; LF; NUL; NUL])))).2
    = [STRING_EXISTS].
Proof. vm_compute. done. Qed.

(** Reread mode sees a line appended after the Searcher was built; the
    cache built before does not. *)
Example reread_freshness :
  let grown := with_file quiet_world "data.txt"
                 (regular_file (fruit ++ b "pear" ++ [LF])) in
  build_then_search (mk_config "data.txt" "set" true) fruit_world grown (u "pear")
    = Ret true
  /\ build_then_search (mk_config "data.txt" "set" false) fruit_world grown (u "pear")
    = Ret false.
Proof. vm_compute. done. Qed.

(** The memory-mapped strategy on an empty file answers false without
    mapping it. *)
Example mmap_search_empty_file :
  sa.mmap_search "data.txt" (u "apple")
    (with_file quiet_world "data.txt" (regular_file []))
  = (Ret false, [EvExists "data.txt"; EvGetsize "data.txt"]).
Proof. vm_compute. reflexivity. Qed.

(** [grep_subprocess] called directly: exit status 0, exit status 1, and an
    expired timeout. *)
Example grep_subprocess_samples :
  (sa.grep_subprocess "data.txt" (u "apple")
     (with_run fruit_world (fun _ => Ret 0%Z))).1 = Ret true
  /\ (sa.grep_subprocess "data.txt" (u "pear")
        (with_run fruit_world (fun _ => Ret 1%Z))).1 = Ret false
  /\ sa.grep_subprocess "data.txt" (u "pear")
       (with_run fruit_world (fun _ => Raise TimeoutExpired))
     = (Ret false,
        [EvExists "data.txt";
         EvRun (sa.grep_argv "data.txt" (u "pear")) 5;
         EvLog ERROR "grep subprocess timed out for query: %s"]).
Proof. vm_compute. done. Qed.

(** Elapsed time is computed in binary floating point: readings of 0.1 s
    and 0.3 s give 199.99999999999997 ms, not 200. *)
Example query_string_elapsed_rounds :
  (client.query_string "127.0.0.1" 44445 (u "apple") false None
     (with_recv quiet_world (Ret STRING_NOT_FOUND))).1
  = Ret (false, 0x1.8ffffffffffffp+7%float, STRING_NOT_FOUND).
Proof. vm_compute. reflexivity. Qed.

(** A [max_payload] of 2^63 does not fit into a [ssize_t]: [recv] raises
    [OverflowError], and it leaves the handler after the socket is closed. *)
Example handle_client_overflow :
  _handle_client
    (server_of {| linuxpath := "data.txt"; reread_on_query := true;
                  ssl_enabled := false; ssl_certfile := None;
                  ssl_keyfile := None; host := "0.0.0.0"; port := 44445;
                  max_payload := 2 ^ 63; default_algorithm := "set" |})
    (with_recv fruit_world (Ret (b "apple")))
  = (Raise OverflowError, [EvRecv (2 ^ 63); EvShutdown; EvClose]).
Proof. vm_compute. reflexivity. Qed.

(** A buffer that cannot be allocated: the [MemoryError] of [recv] leaves
    the handler as well. *)
Example handle_client_memory_error :
  _handle_client fruit_server (with_recv fruit_world (Raise MemoryError))
  = (Raise MemoryError, [EvRecv 1024; EvShutdown; EvClose]).
Proof. vm_compute. reflexivity. Qed.

(** * Further properties of the code *)

(** ** Traces of the loaders and of binary search *)

Section LoaderTraces.

Implicit Types (w : World) (path : string) (needle : str).

Lemma read_text_lines_snd path w :
  (sa.read_text_lines path w).2 = [EvOpenText path].
Proof.
  unfold sa.read_text_lines. rewrite bind_snd. simpl.
  by destruct (n_read (w_fs w path)).
Qed.

Lemma load_lines_list_snd_ok path w data :
  n_read (w_fs w path) = Ret data ->
  (sa.load_lines_list path w).2 = [EvOpenText path].
Proof.
  intros Hrd. unfold sa.load_lines_list.
  rewrite try_snd, bind_snd, bind_fst, read_text_lines_snd, read_text_lines_fst, Hrd.
  done.
Qed.

Lemma load_lines_set_snd_ok path w data :
  n_read (w_fs w path) = Ret data ->
  (sa.load_lines_set path w).2 = [EvOpenText path].
Proof.
  intros Hrd. unfold sa.load_lines_set.
  rewrite try_snd, bind_snd, bind_fst, read_text_lines_snd, read_text_lines_fst, Hrd.
  done.
Qed.

(** On strings the bisect loop cannot fail, sorted or not. *)
Lemma bisect_loop_str_returns (lines : list str) (q : str) :
  forall n lo hi, hi - lo <= n -> lo <= hi <= length lines ->
    exists i, bisect_loop (PStr <$> lines) (PStr q) lo hi = Ret i /\ i <= length lines.
Proof.
  induction n as [|n IH]; intros lo hi Hn Hhi; rewrite bisect_loop_step;
    destruct (decide (lo < hi)) as [Hlt|Hge]; try lia;
    try (exists lo; split; [done|lia]).
  pose proof (midpoint_bounds lo hi Hlt) as Hm.
  set (mid := (lo + hi) `div` 2) in *.
  destruct (lookup_lt_is_Some_2 lines mid) as [v Hv]; [lia|].
  unfold getitem. rewrite list_lookup_fmap, Hv. simpl.
  destruct (str_ltb v q); apply IH; lia.
Qed.

Lemma binary_search_sorted_str_snd (lines : list str) (q : str) w :
  (sa.binary_search_sorted (PStr <$> lines) (PStr q) w).2 = [].
Proof.
  destruct (bisect_loop_str_returns lines q (length lines) 0 (length lines))
    as (i & Hi & Hlen); [lia..|].
  assert (bisect_left (PStr <$> lines) (PStr q) = Ret i) as Hb.
  { unfold bisect_left. by rewrite length_fmap. }
  unfold sa.binary_search_sorted.
  rewrite try_snd, bind_snd, bind_fst, Hb, length_fmap. unfold lift. cbn [fst snd].
  destruct (Nat.eqb_spec i (length lines)) as [->|Hne]; cbn [negb]; [done|].
  destruct (lookup_lt_is_Some_2 (PStr <$> lines) i) as [v Hv].
  { rewrite length_fmap. lia. }
  rewrite bind_snd, bind_fst. unfold lift, getitem. cbn [fst snd]. rewrite Hv. done.
Qed.

End LoaderTraces.

(** ** The Searcher, in both modes *)

(** X1: in reread mode the hash-set, sequence-scan and binary-search
    strategies read the dataset file once per query and answer exactly
    whether the query is one of its lines as it is at that moment. *)
Theorem search_reread_full_line (sr : Searcher) (needle : str) (w : World) (data : bytes) :
  reread_on_query (cfg sr) = true ->
  default_algorithm (cfg sr) ∈ ["set"; "list"; "binary"] ->
  n_read (w_fs w (linuxpath (cfg sr))) = Ret data ->
  search sr needle w
  = (Ret (bool_decide (needle ∈ file_lines data)),
     [EvOpenText (linuxpath (cfg sr))]).
Proof.
  intros Hre Halg Hrd.
  rewrite (surjective_pairing (search sr needle w)).
  rewrite (search_reread_exact sr needle w data Hre Halg Hrd). f_equal.
  unfold search, is_alg. rewrite try_snd, Hre.
  rewrite !elem_of_cons, elem_of_nil in Halg.
  destruct Halg as [Ha | [Ha | [Ha | []]]]; rewrite Ha; simpl.
  - rewrite bind_snd, bind_fst, (load_lines_set_snd_ok _ _ _ Hrd),
      load_lines_set_fst, Hrd. done.
  - rewrite bind_snd, bind_fst, (load_lines_list_snd_ok _ _ _ Hrd),
      load_lines_list_fst, Hrd. done.
  - rewrite bind_snd, bind_fst, (load_lines_list_snd_ok _ _ _ Hrd),
      load_lines_list_fst, Hrd, binary_search_sorted_str_snd.
    rewrite binary_search_sorted_returns. by destruct (bisect_left _ _).
Qed.

Lemma search_reread_full_line_witness :
  let sr := empty_searcher (mk_config "data.txt" "binary" true) in
  reread_on_query (cfg sr) = true
  /\ default_algorithm (cfg sr) ∈ ["set"; "list"; "binary"]
  /\ n_read (w_fs fruit_world (linuxpath (cfg sr))) = Ret fruit
  /\ search sr (u "cherry") fruit_world
     = (Ret (bool_decide (u "cherry" ∈ file_lines fruit)), [EvOpenText "data.txt"]).
Proof.
  assert ("binary" ∈ ["set"; "list"; "binary"]) as Halg
    by (right; right; left).
  split; [reflexivity|]. split; [exact Halg|]. split; [reflexivity|].
  exact (search_reread_full_line
           (empty_searcher (mk_config "data.txt" "binary" true))
           (u "cherry") fruit_world fruit eq_refl Halg eq_refl).
Defined.

Section Construction.

Implicit Types (c : Config) (w : World).

(** What [Searcher.__init__] returns, case by case. *)
Lemma Searcher_init_fst c w :
  (Searcher_init c w).1 =
    if reread_on_query c then Ret (empty_searcher c)
    else match n_read (w_fs w (linuxpath c)) with
         | Ret data =>
             let lines := file_lines data in
             Ret (if is_alg c "set" then
                    {| cfg := c; _cached_set := Some (list_to_set lines);
                       _cached_list := None; _cached_sorted := None |}
                  else if is_alg c "list" then
                    {| cfg := c; _cached_set := None;
                       _cached_list := Some lines; _cached_sorted := None |}
                  else if is_alg c "binary" then
                    {| cfg := c; _cached_set := None;
                       _cached_list := None; _cached_sorted := Some (sorted lines) |}
                  else
                    {| cfg := c; _cached_set := Some (list_to_set lines);
                       _cached_list := None; _cached_sorted := None |})
         | Raise e =>
             if isinstance e OSError then Ret (empty_searcher c) else Raise e
         end.
Proof.
  unfold Searcher_init. destruct (reread_on_query c); [done|]. simpl.
  unfold _preload. rewrite try_fst. simpl.
  destruct (is_alg c "set"); [|destruct (is_alg c "list");
                                [|destruct (is_alg c "binary")]];
    rewrite bind_fst, ?load_lines_set_fst, ?load_lines_list_fst;
    (destruct (n_read (w_fs w (linuxpath c))) as [data|e]; [done|]);
    destruct e; reflexivity.
Qed.

End Construction.

(** X2: in cache mode, with the hash-set, sequence-scan or binary-search
    strategy and a readable dataset, the Searcher reads the file once when it
    is built; every later query is answered from memory, without touching
    the file system, with the lines the file had at construction --
    whatever has happened to the file since. *)
Theorem search_cached_full_line (c : Config) (needle : str) (w0 w1 : World) (data : bytes) :
  reread_on_query c = false ->
  default_algorithm c ∈ ["set"; "list"; "binary"] ->
  n_read (w_fs w0 (linuxpath c)) = Ret data ->
  exists sr,
    Searcher_init c w0 = (Ret sr, [EvOpenText (linuxpath c)])
    /\ search sr needle w1 = (Ret (bool_decide (needle ∈ file_lines data)), []).
Proof.
  intros Hre Halg Hrd.
  destruct (search_cached_exact c needle w0 w1 data Hre Halg Hrd) as (sr & Hsr & Hs).
  exists sr. split.
  - rewrite (surjective_pairing (Searcher_init c w0)), Hsr. f_equal.
    unfold Searcher_init, _preload, is_alg. rewrite Hre. simpl. rewrite try_snd.
    rewrite !elem_of_cons, elem_of_nil in Halg.
    destruct Halg as [Ha | [Ha | [Ha | []]]]; rewrite Ha; simpl;
      rewrite bind_snd, bind_fst.
    + by rewrite (load_lines_set_snd_ok _ _ _ Hrd), load_lines_set_fst, Hrd.
    + by rewrite (load_lines_list_snd_ok _ _ _ Hrd), load_lines_list_fst, Hrd.
    + by rewrite (load_lines_list_snd_ok _ _ _ Hrd), load_lines_list_fst, Hrd.
  - rewrite (surjective_pairing (search sr needle w1)), Hs. f_equal.
    rewrite Searcher_init_fst, Hre, Hrd in Hsr. unfold is_alg in Hsr.
    rewrite !elem_of_cons, elem_of_nil in Halg.
    destruct Halg as [Ha | [Ha | [Ha | []]]]; rewrite Ha in Hsr; simpl in Hsr;
      injection Hsr as <-; unfold search; rewrite try_snd; simpl; rewrite Hre; simpl;
      try done.
    rewrite binary_search_sorted_str_snd.
    rewrite binary_search_sorted_returns. by destruct (bisect_left _ _).
Qed.

Lemma search_cached_full_line_witness :
  let c := mk_config "data.txt" "list" false in
  reread_on_query c = false
  /\ default_algorithm c ∈ ["set"; "list"; "binary"]
  /\ n_read (w_fs fruit_world (linuxpath c)) = Ret fruit
  /\ exists sr,
       Searcher_init c fruit_world = (Ret sr, [EvOpenText (linuxpath c)])
       /\ search sr (u "apple") quiet_world
          = (Ret (bool_decide (u "apple" ∈ file_lines fruit)), []).
Proof.
  assert ("list" ∈ ["set"; "list"; "binary"]) as Halg by (right; left).
  split; [reflexivity|]. split; [exact Halg|]. split; [reflexivity|].
  exact (search_cached_full_line (mk_config "data.txt" "list" false)
           (u "apple") fruit_world quiet_world fruit eq_refl Halg eq_refl).
Defined.

(** X3: whatever the configuration and the world, a Searcher that
    [Searcher.__init__] returns holds at most one cached structure, the one
    of its strategy: the sequence for [list], the sorted sequence for
    [binary], the set for every other identifier; in reread mode it holds
    none. *)
Theorem Searcher_init_one_cache (c : Config) (w : World) (sr : Searcher) :
  (Searcher_init c w).1 = Ret sr ->
  cfg sr = c
  /\ (reread_on_query c = true -> sr = empty_searcher c)
  /\ match _cached_set sr, _cached_list sr, _cached_sorted sr with
     | None, None, None => True
     | Some _, None, None =>
         default_algorithm c <> "list" /\ default_algorithm c <> "binary"
     | None, Some _, None => default_algorithm c = "list"
     | None, None, Some _ => default_algorithm c = "binary"
     | _, _, _ => False
     end.
Proof.
  rewrite Searcher_init_fst. unfold is_alg.
  destruct (reread_on_query c); [by intros [= <-]|].
  destruct (n_read (w_fs w (linuxpath c))) as [data|e].
  - repeat case_bool_decide; intros [= <-]; simpl;
      (split; [done|]); (split; [done|]); try done; split; congruence.
  - destruct (isinstance e OSError); [|done]. by intros [= <-].
Qed.

Lemma Searcher_init_one_cache_witness :
  let c := mk_config "data.txt" "binary" false in
  let sr := {| cfg := c; _cached_set := None; _cached_list := None;
               _cached_sorted := Some [u "apple"; u "banana"; u "cherry"] |} in
  (Searcher_init c fruit_world).1 = Ret sr
  /\ cfg sr = c
  /\ default_algorithm c = "binary".
Proof.
  assert ((Searcher_init (mk_config "data.txt" "binary" false) fruit_world).1
          = Ret {| cfg := mk_config "data.txt" "binary" false;
                   _cached_set := None; _cached_list := None;
                   _cached_sorted := Some [u "apple"; u "banana"; u "cherry"] |})
    as Hinit by (vm_compute; reflexivity).
  split; [exact Hinit|].
  pose proof (Searcher_init_one_cache _ _ _ Hinit) as (Hcfg & _ & Halg).
  split; [exact Hcfg|exact Halg].
Defined.

(** X4: the sorted snapshot that the Searcher caches for binary search is
    sorted in the order of [str] and holds exactly the lines of the file,
    duplicates included -- the precondition of [binary_search_sorted] is
    established by the preload. *)
Theorem Searcher_init_sorted_snapshot (c : Config) (w : World) (sr : Searcher)
    (l : list str) :
  (Searcher_init c w).1 = Ret sr ->
  _cached_sorted sr = Some l ->
  Sorted str_le l
  /\ exists data, n_read (w_fs w (linuxpath c)) = Ret data
                  /\ l ≡ₚ file_lines data.
Proof.
  rewrite Searcher_init_fst. unfold is_alg.
  destruct (reread_on_query c); [by intros [= <-]|].
  destruct (n_read (w_fs w (linuxpath c))) as [data|e].
  - repeat case_bool_decide; intros [= <-]; simpl; try done.
    intros [= <-]. split; [apply sorted_Sorted|].
    exists data. split; [done|]. apply merge_sort_Permutation.
  - destruct (isinstance e OSError); [|done]. by intros [= <-].
Qed.

Lemma Searcher_init_sorted_snapshot_witness :
  let w := with_file quiet_world "data.txt"
             (regular_file (b "pear" ++ [LF] ++ b "apple" ++ [LF] ++ b "pear" ++ [LF])) in
  exists sr,
    (Searcher_init (mk_config "data.txt" "binary" false) w).1 = Ret sr
    /\ _cached_sorted sr = Some [u "apple"; u "pear"; u "pear"]
    /\ Sorted str_le [u "apple"; u "pear"; u "pear"].
Proof.
  eexists. split; [vm_compute; reflexivity|]. split; [vm_compute; reflexivity|].
  exact (proj1 (Searcher_init_sorted_snapshot
                  (mk_config "data.txt" "binary" false)
                  (with_file quiet_world "data.txt"
                     (regular_file (b "pear" ++ [LF] ++ b "apple" ++ [LF] ++ b "pear" ++ [LF])))
                  _ [u "apple"; u "pear"; u "pear"] eq_refl eq_refl)).
Defined.

(** ** The memory-mapped scan *)

Section Find.

Implicit Types (hay sub : bytes).

Lemma starts_with_spec hay sub :
  sa.starts_with hay sub = true <-> exists post, hay = sub ++ post.
Proof.
  revert hay. induction sub as [|c sub IH]; intros hay.
  - destruct hay; simpl; (split; [eauto|done]).
  - destruct hay as [|d hay]; simpl.
    + split; [done|]. by intros [post ?].
    + rewrite andb_true_iff, bool_decide_eq_true, IH. split.
      * intros [-> [post ->]]. by exists post.
      * intros [post [= -> ->]]. split; [done|]. by exists post.
Qed.

Lemma find_from_unfold (i : nat) hay sub :
  sa.find_from i hay sub =
    if sa.starts_with hay sub then Z.of_nat i
    else match hay with
         | [] => (-1)%Z
         | _ :: hay' => sa.find_from (S i) hay' sub
         end.
Proof. by destruct hay. Qed.

(** [hay.find(sub)] is not -1 exactly when [sub] occurs in [hay]. *)
Lemma find_from_occurs (i : nat) hay sub :
  sa.find_from i hay sub <> (-1)%Z <-> exists pre post, hay = pre ++ sub ++ post.
Proof.
  revert i. induction hay as [|d hay IH]; intros i; rewrite find_from_unfold;
    destruct (sa.starts_with _ sub) eqn:E.
  - split; [|lia]. intros _. apply starts_with_spec in E as [post ->].
    by exists [], post.
  - split; [done|]. intros (pre & post & H).
    destruct pre; simpl in H; [|done].
    assert (sa.starts_with [] sub = true) by (apply starts_with_spec; eauto).
    congruence.
  - split; [|lia]. intros _. apply starts_with_spec in E as [post ->].
    by exists [], post.
  - rewrite IH. split.
    + intros (pre & post & ->). by exists (d :: pre), post.
    + intros (pre & post & H). destruct pre as [|d' pre]; simpl in H.
      { assert (sa.starts_with (d :: hay) sub = true)
          by (apply starts_with_spec; eauto).
        congruence. }
      injection H as -> ->. by exists pre, post.
Qed.

Lemma encode_utf8_app (s t : str) :
  encode_utf8 (s ++ t) =
    match encode_utf8 s, encode_utf8 t with
    | Ret x, Ret y => Ret (x ++ y)
    | Raise e, _ => Raise e
    | Ret _, Raise e => Raise e
    end.
Proof.
  induction s as [|c s IH]; simpl.
  - by destruct (encode_utf8 t).
  - destruct (encode_cp c) as [bs|e]; [|done]. rewrite IH.
    destruct (encode_utf8 s) as [x|e]; [|done].
    destruct (encode_utf8 t) as [y|e]; [|done]. by rewrite app_assoc.
Qed.

End Find.

(** X5: on a readable, non-empty dataset the memory-mapped strategy
    answers true exactly when the UTF-8 bytes of the query, followed by a
    line feed, occur somewhere in the bytes of the file. *)
Theorem mmap_search_occurrence (path : string) (needle : str) (w : World)
    (data needle_bytes : bytes) :
  w_fs w path = regular_file data ->
  data <> [] ->
  encode_utf8 needle = Ret needle_bytes ->
  exists r : bool,
    (sa.mmap_search path needle w).1 = Ret r
    /\ (r = true <-> exists pre post, data = pre ++ needle_bytes ++ [LF] ++ post).
Proof.
  intros Hfs Hne Henc. rewrite mmap_search_fst, Hfs. simpl.
  destruct data as [|c data]; [done|]. simpl.
  rewrite encode_utf8_app, Henc. simpl.
  eexists. split; [reflexivity|].
  rewrite negb_true_iff, Z.eqb_neq.
  unfold sa.find. rewrite find_from_occurs.
  split; intros (pre & post & H); exists pre, post; rewrite H;
    by rewrite <- !app_assoc.
Qed.

Lemma mmap_search_occurrence_witness :
  w_fs fruit_world "data.txt" = regular_file fruit
  /\ fruit <> []
  /\ encode_utf8 (u "nana") = Ret (b "nana")
  /\ exists r : bool,
       (sa.mmap_search "data.txt" (u "nana") fruit_world).1 = Ret r
       /\ (r = true <-> exists pre post, fruit = pre ++ b "nana" ++ [LF] ++ post).
Proof.
  assert (fruit <> []) as Hne by discriminate.
  split; [reflexivity|]. split; [exact Hne|]. split; [reflexivity|].
  exact (mmap_search_occurrence "data.txt" (u "nana") fruit_world fruit (b "nana")
           eq_refl Hne eq_refl).
Defined.

(** X6: [mmap_search] never maps a file that is missing or that
    [getsize] reports as empty -- it answers false straight away -- and a
    mapping that was established is always closed again, while nothing is
    closed when none was established. *)
Theorem mmap_search_mapping (path : string) (needle : str) (w : World) :
  let t := (sa.mmap_search path needle w).2 in
  (n_exists (w_fs w path) = false \/ n_getsize (w_fs w path) = Ret 0 ->
   (sa.mmap_search path needle w).1 = Ret false /\ forall p, EvMmap p ∉ t)
  /\ (EvMmapClose ∈ t <->
      EvMmap path ∈ t /\ exists c mm, n_read (w_fs w path) = Ret (c :: mm)).
Proof.
  intros t. unfold t. rewrite mmap_search_snd, mmap_search_fst. simpl. split.
  - intros [-> | Hsz]; simpl.
    + split; [done|]. intros p. in_trace.
    + destruct (n_exists _); simpl; rewrite ?Hsz; simpl;
        (split; [done|]); intros p; in_trace.
  - destruct (n_exists _); simpl; [|in_trace].
    destruct (n_getsize _) as [size|e]; [|in_trace].
    destruct (size =? 0)%nat; [in_trace|].
    destruct (encode_utf8 _) as [nb|e]; [|in_trace].
    destruct (n_read _) as [[|c mm]|e].
    + split; [in_trace|]. by intros (_ & c & mm & ?).
    + split; [|in_trace]. intros _. split; [in_trace|eauto].
    + split; [|by intros (_ & c & mm & ?)].
      repeat case_match; in_trace.
Qed.

Lemma mmap_search_mapping_witness :
  let w := with_file quiet_world "data.txt" (regular_file []) in
  n_getsize (w_fs w "data.txt") = Ret 0
  /\ (sa.mmap_search "data.txt" (u "apple") w).1 = Ret false
  /\ EvMmapClose ∈ (sa.mmap_search "data.txt" (u "apple") fruit_world).2.
Proof.
  split; [reflexivity|]. split.
  - exact (proj1 (proj1 (mmap_search_mapping "data.txt" (u "apple")
                           (with_file quiet_world "data.txt" (regular_file [])))
                    (or_intror eq_refl))).
  - apply (proj2 (mmap_search_mapping "data.txt" (u "apple") fruit_world)).
    split; [cbv -[elem_of]; in_trace|]. vm_compute. eauto.
Defined.

(** ** The external process *)

(** X7: [grep_subprocess] does not spawn anything when the dataset path
    does not exist, and it answers false -- it does not raise -- when the
    utility is not installed, when the timeout expires and on every other
    failure of the operating system or of the subprocess machinery. *)
Theorem grep_subprocess_contains_failures (path : string) (needle : str) (w : World) :
  (n_exists (w_fs w path) = false ->
   sa.grep_subprocess path needle w
   = (Ret false, [EvExists path; EvLog ERROR "Dataset file not found for grep: %s"]))
  /\ (forall e, w_run w (sa.grep_argv path needle) = Raise e ->
        isinstance e OSError = true \/ isinstance e SubprocessError = true ->
        (sa.grep_subprocess path needle w).1 = Ret false).
Proof.
  split.
  - intros Hex. unfold sa.grep_subprocess, sa.os_path_exists, mbind, M_bind, syscall.
    rewrite Hex. reflexivity.
  - intros e He Hc. rewrite grep_subprocess_fst, He.
    destruct (n_exists _); [|done].
    destruct Hc as [Hc|Hc]; rewrite Hc; by rewrite ?orb_true_r.
Qed.

Lemma grep_subprocess_contains_failures_witness :
  (sa.grep_subprocess "data.txt" (u "apple") fruit_world).1 = Ret false
  /\ sa.grep_subprocess "nowhere.txt" (u "apple") fruit_world
     = (Ret false,
        [EvExists "nowhere.txt"; EvLog ERROR "Dataset file not found for grep: %s"]).
Proof.
  split.
  - exact (proj2 (grep_subprocess_contains_failures "data.txt" (u "apple") fruit_world)
             FileNotFoundError eq_refl (or_introl eq_refl)).
  - exact (proj1 (grep_subprocess_contains_failures "nowhere.txt" (u "apple") fruit_world)
             eq_refl).
Defined.

(** ** The accept loop and start-up *)

Section AcceptLoop.

Lemma count_events_app P (t1 t2 : list event) :
  count_events P (t1 ++ t2) = count_events P t1 + count_events P t2.
Proof. unfold count_events. by rewrite List.filter_app, length_app. Qed.

(** One turn of the loop. *)
Lemma accept_turn (st : accept_step) (w : World) :
  match st with
  | Accepted => True
  | AcceptFails e _ => isinstance e OSError = true
  end ->
  let turn :=
    try_ (sock_accept st;; thread_start)
      [ ([socket_timeout], fun _ => mret tt);
        ([OSError], fun _ =>
           if negb (stop_seen st) then log WARNING "Accept error: %s"
           else mret tt) ] in
  (turn w).1 = Ret tt
  /\ (turn w).2 =
       EvAccept ::
       (if is_accepted st then [EvThreadStart]
        else if is_reported st then [EvLog WARNING "Accept error: %s"] else []).
Proof.
  intros Hst turn. unfold turn. rewrite try_fst, try_snd, bind_fst, bind_snd.
  destruct st as [|e stop]; simpl; [done|].
  destruct e; try discriminate Hst; by destruct stop.
Qed.

(** The loop over a whole script of accept outcomes: its result and the
    handler threads it starts. *)
Lemma accept_loop_threads (script : list accept_step) (w : World) :
  accept_failures_os script ->
  (accept_loop script w).1 = Ret tt
  /\ count_events is_thread_start (accept_loop script w).2
     = length (List.filter is_accepted script).
Proof.
  intros Hos. induction Hos as [|st script Hst _ IH]; [done|].
  cbn [accept_loop]. rewrite bind_fst, bind_snd.
  destruct (accept_turn st w Hst) as [-> ->].
  destruct IH as (-> & Ht).
  split; [done|].
  change (EvAccept :: ?l) with ([EvAccept] ++ l).
  rewrite !count_events_app, Ht.
  destruct st as [|e stop]; simpl; [done|].
  destruct (negb (isinstance e socket_timeout) && negb stop); done.
Qed.

(** Closing the listening socket at the end of [start]. *)
Lemma close_listener (w : World) :
  (forall e, w_close w = Raise e -> isinstance e OSError = true) ->
  try_ sock_close [ ([OSError], fun _ : exc => (mret tt : M unit)) ] w
  = (Ret tt, [EvClose]).
Proof.
  intros Hclose. unfold try_, sock_close, syscall. simpl.
  destruct (w_close w) as [[]|e'] eqn:Hc; [done|].
  simpl. by rewrite (Hclose e' eq_refl).
Qed.

End AcceptLoop.

(** X8: the accept loop outlives every accept failure that is an error of
    the operating system (timeouts included): it calls [accept] once per
    turn, starts exactly one handler thread per accepted connection, logs a
    warning exactly for the failures that are not timeouts while no stop was
    requested, and returns normally when the stop is observed. *)
Theorem accept_loop_survives (script : list accept_step) (w : World) :
  accept_failures_os script ->
  let t := (accept_loop script w).2 in
  (accept_loop script w).1 = Ret tt
  /\ count_events is_accept t = length script
  /\ count_events is_thread_start t = length (List.filter is_accepted script)
  /\ count_events is_warning t = length (List.filter is_reported script).
Proof.
  intros Hos. induction Hos as [|st script Hst _ IH]; [done|].
  cbn [accept_loop]. rewrite bind_fst, bind_snd.
  destruct (accept_turn st w Hst) as [-> ->].
  destruct IH as (-> & Ha & Ht & Hw).
  split; [done|].
  change (EvAccept :: ?l) with ([EvAccept] ++ l).
  rewrite !count_events_app, Ha, Ht, Hw.
  destruct st as [|e stop]; simpl; [done|].
  destruct (negb (isinstance e socket_timeout) && negb stop); done.
Qed.

Lemma accept_loop_survives_witness :
  let script := [Accepted; AcceptFails socket_timeout false;
                 AcceptFails ConnectionResetError false; Accepted;
                 AcceptFails OSError true] in
  accept_failures_os script
  /\ (accept_loop script quiet_world).1 = Ret tt
  /\ count_events is_thread_start (accept_loop script quiet_world).2 = 2
  /\ count_events is_warning (accept_loop script quiet_world).2 = 1.
Proof.
  assert (accept_failures_os
            [Accepted; AcceptFails socket_timeout false;
             AcceptFails ConnectionResetError false; Accepted;
             AcceptFails OSError true]) as Hos by (repeat constructor).
  split; [exact Hos|].
  pose proof (accept_loop_survives _ quiet_world Hos) as (Hr & _ & Ht & Hw).
  split; [exact Hr|]. split; [exact Ht|exact Hw].
Defined.

(** X9: when [bind] or [listen] fails with an error of the operating
    system, [start] logs it and returns: it raises nothing, never reaches
    [accept], and does not close the socket; after a failed [bind] it does
    not call [listen] either. *)
Theorem start_setup_failure (self : TCPServer) (w : World) (e : exc) :
  isinstance e OSError = true ->
  w_bind w = Raise e \/ (w_bind w = Ret tt /\ w_listen w = Raise e) ->
  let t := (start self w).2 in
  (start self w).1 = Ret tt
  /\ (EvAccept ∉ t) /\ (EvClose ∉ t)
  /\ (w_bind w = Raise e -> forall n, EvListen n ∉ t)
  /\ (exists fmt, EvLog ERROR fmt ∈ t).
Proof.
  intros He Hfail t. unfold t, start.
  unfold mbind, M_bind, try_, log, sock_bind, sock_listen, syscall. simpl.
  destruct Hfail as [Hb | [Hb Hl]]; rewrite Hb, ?Hl; simpl;
    destruct e; try discriminate He; simpl;
    (split; [done|]); (split; [in_trace|]); (split; [in_trace|]);
    (split; [try done; intros _ n; in_trace|]);
    eexists; repeat constructor.
Qed.

Lemma start_setup_failure_witness :
  let w := with_bind quiet_world (Raise PermissionError) in
  isinstance PermissionError OSError = true
  /\ w_bind w = Raise PermissionError
  /\ (start (server_of (plain_config "127.0.0.1" 80)) w).1 = Ret tt.
Proof.
  split; [reflexivity|]. split; [reflexivity|].
  exact (proj1 (start_setup_failure (server_of (plain_config "127.0.0.1" 80))
                  (with_bind quiet_world (Raise PermissionError))
                  PermissionError eq_refl (or_introl eq_refl))).
Defined.

(** X10: without TLS, once [bind] and [listen] have succeeded, [start]
    runs the accept loop, starting one handler thread per accepted
    connection, and then closes the listening socket as its last action;
    with accept failures of the operating
    system only, and a [close] that fails at most with such an error, it
    returns normally. *)
Theorem start_serves_then_closes (self : TCPServer) (w : World) :
  ssl_enabled (srv_cfg self) = false ->
  w_bind w = Ret tt -> w_listen w = Ret tt ->
  accept_failures_os (w_accepts w) ->
  (forall e, w_close w = Raise e -> isinstance e OSError = true) ->
  (start self w).1 = Ret tt
  /\ (start self w).2 =
       [EvLog INFO "Starting server on %s:%d SSL=%s";
        EvBind (host (srv_cfg self)) (port (srv_cfg self)); EvListen 50]
       ++ (accept_loop (w_accepts w) w).2 ++ [EvClose]
  /\ count_events is_thread_start (start self w).2
     = length (List.filter is_accepted (w_accepts w)).
Proof.
  intros Hssl Hb Hl Hos Hclose.
  destruct (accept_loop_threads (w_accepts w) w Hos) as (Hr & Ht).
  assert ((start self w).2 =
            [EvLog INFO "Starting server on %s:%d SSL=%s";
             EvBind (host (srv_cfg self)) (port (srv_cfg self)); EvListen 50]
            ++ (accept_loop (w_accepts w) w).2 ++ [EvClose]
          /\ (start self w).1 = Ret tt) as [Htr Hres].
  { unfold start.
    match goal with
    | |- context [try_ ?m ?hs ≫= ?k] => set (setup := try_ m hs); set (cont := k)
    end.
    assert (setup w = (Ret true,
                       [EvBind (host (srv_cfg self)) (port (srv_cfg self));
                        EvListen 50])) as Hsetup.
    { unfold setup, try_, mbind, M_bind, sock_bind, sock_listen, syscall. simpl.
      rewrite Hb. simpl. by rewrite Hl, Hssl. }
    pose proof (close_listener w Hclose) as Hfin.
    rewrite !bind_snd, !bind_fst. unfold log at 1 2 3. cbn [fst snd].
    rewrite Hsetup. cbn [fst snd]. unfold cont.
    rewrite finally_snd, finally_fst, Hfin. cbn [fst snd]. by rewrite Hr. }
  split; [done|]. split; [done|].
  rewrite Htr, !count_events_app, Ht. unfold count_events. simpl. lia.
Qed.

Lemma start_serves_then_closes_witness :
  let w := with_accepts quiet_world [Accepted; AcceptFails socket_timeout false; Accepted] in
  let srv := server_of (plain_config "127.0.0.1" 44445) in
  accept_failures_os (w_accepts w)
  /\ (start srv w).1 = Ret tt
  /\ count_events is_thread_start (start srv w).2 = 2.
Proof.
  assert (accept_failures_os [Accepted; AcceptFails socket_timeout false; Accepted])
    as Hos by (repeat constructor).
  split; [exact Hos|].
  assert (forall e, w_close quiet_world = Raise e -> isinstance e OSError = true)
    as Hc by (intros e H; discriminate H).
  pose proof (start_serves_then_closes
                (server_of (plain_config "127.0.0.1" 44445))
                (with_accepts quiet_world
                   [Accepted; AcceptFails socket_timeout false; Accepted])
                eq_refl eq_refl eq_refl Hos Hc) as (Hr & _ & Ht).
  split; [exact Hr|exact Ht].
Defined.

(** ** TLS wrapping *)

Section Bits.

Lemma lor3_has_second (d a c : Z) : Z.land (Z.lor d (Z.lor a c)) a = a.
Proof.
  apply Z.bits_inj'. intros n _. rewrite Z.land_spec, !Z.lor_spec.
  by destruct (Z.testbit d n), (Z.testbit a n), (Z.testbit c n).
Qed.

Lemma lor3_has_third (d a c : Z) : Z.land (Z.lor d (Z.lor a c)) c = c.
Proof.
  apply Z.bits_inj'. intros n _. rewrite Z.land_spec, !Z.lor_spec.
  by destruct (Z.testbit d n), (Z.testbit a n), (Z.testbit c n).
Qed.

Lemma lor_keeps_first (d x : Z) : Z.land (Z.lor d x) d = d.
Proof.
  apply Z.bits_inj'. intros n _. rewrite Z.land_spec, !Z.lor_spec.
  by destruct (Z.testbit d n), (Z.testbit x n).
Qed.

End Bits.

(** X11: with TLS disabled [wrap_socket_if_needed] returns the socket it
    was given and does nothing else.  With TLS enabled it returns a socket
    only if certificate and key path are both given and non-empty and the
    chain loaded; that socket is a TLS socket whose context has both legacy
    versions (TLS 1.0 and 1.1) switched off and keeps every option that the
    default context had. *)
Theorem wrap_socket_if_needed_hardened (sock : socket) (cert key : option string)
    (w : World) :
  wrap_socket_if_needed sock false cert key w = (Ret sock, [])
  /\ forall s', (wrap_socket_if_needed sock true cert key w).1 = Ret s' ->
       exists c k o,
         cert = Some c /\ key = Some k /\ c <> "" /\ k <> ""
         /\ w_load_cert_chain w c k = Ret tt
         /\ s' = SSLSocket o
         /\ Z.land o OP_NO_TLSv1 = OP_NO_TLSv1
         /\ Z.land o OP_NO_TLSv1_1 = OP_NO_TLSv1_1
         /\ Z.land o (w_ssl_default_options w) = w_ssl_default_options w.
Proof.
  split; [done|]. intros s'. unfold wrap_socket_if_needed, truthy. simpl.
  destruct cert as [c|]; [|done]. destruct key as [k|]; simpl.
  2: { by destruct (bool_decide (c = "")). }
  destruct (decide (c = "")) as [->|Hc]; [done|].
  destruct (decide (k = "")) as [->|Hk].
  { rewrite bool_decide_eq_false_2 by done. done. }
  rewrite !bool_decide_eq_false_2 by done. simpl.
  unfold create_server_ssl_context.
  rewrite !bind_fst. simpl.
  destruct (w_load_cert_chain w c k) as [[]|e] eqn:Hload; [|done]. simpl.
  destruct (w_wrap_socket w) as [[]|e]; [|done]. intros [= <-].
  exists c, k, (Z.lor (w_ssl_default_options w) (Z.lor OP_NO_TLSv1 OP_NO_TLSv1_1)).
  split; [done|]. split; [done|]. split; [done|]. split; [done|].
  split; [done|]. split; [done|].
  split; [apply lor3_has_second|]. split; [apply lor3_has_third|].
  apply lor_keeps_first.
Qed.

Lemma wrap_socket_if_needed_hardened_witness :
  (wrap_socket_if_needed PlainSocket true (Some "cert.pem") (Some "key.pem")
     quiet_world).1 = Ret (SSLSocket 0x14000000)
  /\ exists c k o,
       Some "cert.pem" = Some c /\ Some "key.pem" = Some k /\ c <> "" /\ k <> ""
       /\ w_load_cert_chain quiet_world c k = Ret tt
       /\ SSLSocket 0x14000000 = SSLSocket o
       /\ Z.land o OP_NO_TLSv1 = OP_NO_TLSv1
       /\ Z.land o OP_NO_TLSv1_1 = OP_NO_TLSv1_1
       /\ Z.land o (w_ssl_default_options quiet_world) = w_ssl_default_options quiet_world.
Proof.
  split; [vm_compute; reflexivity|].
  exact (proj2 (wrap_socket_if_needed_hardened PlainSocket (Some "cert.pem")
                  (Some "key.pem") quiet_world) (SSLSocket 0x14000000) eq_refl).
Defined.

(** ** The connection handler, on the way out *)

Section HandlerExit.

Implicit Types (self : TCPServer) (w : World).

(** Everything before the [finally] block leaves the socket open. *)
Lemma handler_body_keeps_socket self :
  let body := 
    try_ (raw ← safe_recv (max_payload (srv_cfg self));
          query ← try_ (mret (decode_query raw))
                    [ ([UnicodeDecodeError], fun _ =>
                         log WARNING "Invalid UTF-8 from %s";; mret []) ];
          found ← search (searcher self) query;
          debug_log query;;
          try_ (if found : bool then sock_sendall STRING_EXISTS
                else sock_sendall STRING_NOT_FOUND)
            [ ([BrokenPipeError], fun _ =>
                 log WARNING "Connection broken before response sent: %s");
              ([ConnectionResetError], fun _ =>
                 log WARNING "Connection reset by peer: %s");
              ([OSError], fun _ =>
                 log WARNING "Socket error sending response to %s: %s") ])
       [ ([socket_timeout], fun _ => log WARNING "Timeout handling client %s");
         ([ConnectionResetError], fun _ =>
            log WARNING "Connection reset by client %s");
         ([BrokenPipeError], fun _ => log WARNING "Broken pipe with client %s");
         ([SSLError], fun _ => log ERROR "SSL error with client %s: %s");
         ([OSError], fun _ => log ERROR "Socket error with client %s: %s");
         ([UnicodeDecodeError], fun _ =>
            log ERROR "Unicode decode error from client %s: %s");
         ([ValueError], fun _ =>
            log ERROR "Value error handling client %s: %s") ] in
  emits not_teardown body.
Proof.
  intros body. unfold body, safe_recv, sock_recv, sock_sendall.
  apply emits_try; [|repeat constructor; intros ?; simpl; solve_emits].
  apply emits_bind; [solve_emits|intros raw].
  apply emits_bind; [solve_emits|intros query].
  apply emits_bind.
  { eapply emits_impl; [|apply search_quiet]. intros ev. by destruct ev. }
  intros found. apply emits_bind.
  { intros w. by repeat constructor. }
  intros _. destruct found; solve_emits.
Qed.

(** The [finally] block, when [shutdown] fails at most with an error of the
    operating system. *)
Lemma teardown_events w :
  (forall e, w_shutdown w = Raise e -> isinstance e OSError = true) ->
  ((try_ sock_shutdown [ ([OSError], fun _ => mret tt) ];;
    try_ sock_close [ ([OSError], fun _ => mret tt) ]) w).2
  = [EvShutdown; EvClose].
Proof.
  intros Hs. rewrite bind_snd, try_snd, try_fst, try_snd. simpl.
  destruct (w_shutdown w) as [[]|e] eqn:E; simpl.
  - by destruct (w_close w) as [[]|e']; simpl; [|destruct e'].
  - rewrite (Hs e eq_refl). simpl.
    by destruct (w_close w) as [[]|e']; simpl; [|destruct e'].
Qed.

End HandlerExit.

(** X12: however a handler run goes -- request served, read failed, send
    failed -- it ends with [shutdown] followed by [close] on the connection,
    each attempted exactly once, and nothing before that closes the
    socket; it takes a [shutdown] that fails at most with an error of the
    operating system, which the handler ignores. *)
Theorem handle_client_always_closes (self : TCPServer) (w : World) :
  (forall e, w_shutdown w = Raise e -> isinstance e OSError = true) ->
  exists t,
    (_handle_client self w).2 = t ++ [EvShutdown; EvClose]
    /\ Forall (fun ev => is_teardown ev = false) t.
Proof.
  intros Hs. unfold _handle_client. rewrite finally_snd, (teardown_events w Hs).
  eexists. split; [reflexivity|].
  eapply Forall_impl; [apply (handler_body_keeps_socket self w)|].
  intros ev. unfold not_teardown. by destruct (is_teardown ev).
Qed.

Lemma handle_client_always_closes_witness :
  let w := with_recv fruit_world (Raise socket_timeout) in
  (forall e, w_shutdown w = Raise e -> isinstance e OSError = true)
  /\ exists t,
       (_handle_client fruit_server w).2 = t ++ [EvShutdown; EvClose]
       /\ Forall (fun ev => is_teardown ev = false) t.
Proof.
  assert (forall e, w_shutdown (with_recv fruit_world (Raise socket_timeout)) = Raise e ->
                    isinstance e OSError = true) as Hs
    by (intros e H; discriminate H).
  split; [exact Hs|].
  exact (handle_client_always_closes fruit_server
           (with_recv fruit_world (Raise socket_timeout)) Hs).
Defined.

(** X13: the failures that a handler run contains.  When the failures of
    the dataset and of the connected socket are errors of the operating
    system (a [MemoryError] from the buffer of [recv] is not one),
    [_handle_client] returns normally for every [max_payload] that
    [recv] accepts, and also for a negative one in the range of [ssize_t],
    which [recv] refuses with a [ValueError]; for a [max_payload] outside
    that, [recv] raises [OverflowError], which no [except] clause of the
    handler covers: it leaves the handler, after [shutdown] and [close]. *)
Theorem handle_client_contains_failures (self : TCPServer) (w : World) :
  io_failures_only (w_fs w (linuxpath (cfg (searcher self)))) ->
  socket_failures_os w ->
  let n := max_payload (srv_cfg self) in
  (_handle_client self w).1
  = (if (n <? SSIZE_MIN)%Z || (RECV_MAX <? n)%Z then Raise OverflowError
     else Ret tt)
  /\ exists t, (_handle_client self w).2 = t ++ [EvShutdown; EvClose].
Proof.
  intros Hio (Hrecv & Hsend & Hshut & Hclose) n. split.
  2: { unfold _handle_client. rewrite finally_snd, (teardown_events w Hshut).
       by eexists. }
  unfold _handle_client. rewrite finally_fst.
  assert (((try_ sock_shutdown [ ([OSError], fun _ : exc => (mret tt : M unit)) ];;
            try_ sock_close [ ([OSError], fun _ : exc => (mret tt : M unit)) ]) w).1
          = Ret tt) as ->.
  { rewrite bind_fst, !try_fst. simpl.
    assert (match w_close w with
            | Ret a => Ret a
            | Raise e => if isinstance e OSError || false then Ret tt else Raise e
            end = Ret tt) as Hc.
    { destruct (w_close w) as [[]|e] eqn:E; [done|]. by rewrite (Hclose e eq_refl). }
    destruct (w_shutdown w) as [[]|e] eqn:E; simpl.
    - destruct (w_close w) as [[]|e']; [done|].
      simpl in Hc. destruct (isinstance e' OSError); done.
    - rewrite (Hshut e eq_refl). simpl.
      destruct (w_close w) as [[]|e']; [done|].
      simpl in Hc. destruct (isinstance e' OSError); done. }
  rewrite try_fst, bind_fst, safe_recv_cases. fold n.
  destruct ((n <? SSIZE_MIN)%Z || (RECV_MAX <? n)%Z); [done|].
  destruct (n <? 0)%Z; [done|].
  destruct (w_recv w) as [data|e] eqn:Erecv.
  2: { pose proof (Hrecv e eq_refl) as He. destruct e; try discriminate He; done. }
  rewrite bind_fst. simpl. rewrite bind_fst.
  destruct (search_returns (searcher self)
              (decode_query (rstrip is_NUL (take (Z.to_nat n) data)))
              w Hio) as [found ->].
  rewrite bind_fst. simpl. rewrite try_fst.
  assert (forall d, match (sock_sendall d w).1 with
                    | Ret a => Ret a
                    | Raise e =>
                        match lookup_handler
                          [ ([BrokenPipeError], fun _ : exc =>
                               log WARNING "Connection broken before response sent: %s");
                            ([ConnectionResetError], fun _ =>
                               log WARNING "Connection reset by peer: %s");
                            ([OSError], fun _ =>
                               log WARNING "Socket error sending response to %s: %s") ] e with
                        | Some h => (h e w).1
                        | None => Raise e
                        end
                    end = Ret tt) as Hsent.
  { intros d. simpl. destruct (w_sendall w d) as [[]|e] eqn:Es; [done|].
    pose proof (Hsend d e Es) as He. destruct e; try discriminate He; done. }
  destruct found; by rewrite Hsent.
Qed.

Lemma handle_client_contains_failures_witness :
  let w := with_recv quiet_world (Raise ConnectionResetError) in
  io_failures_only (w_fs w (linuxpath (cfg (searcher fruit_server))))
  /\ socket_failures_os w
  /\ (_handle_client fruit_server w).1 = Ret tt.
Proof.
  assert (io_failures_only
            (w_fs (with_recv quiet_world (Raise ConnectionResetError))
               (linuxpath (cfg (searcher fruit_server))))) as Hio.
  { split; intros e [= <-]; reflexivity. }
  assert (socket_failures_os (with_recv quiet_world (Raise ConnectionResetError)))
    as Hsock.
  { split; [intros e [= <-]; reflexivity|].
    split; [intros d e H; discriminate H|].
    split; intros e H; discriminate H. }
  split; [exact Hio|]. split; [exact Hsock|].
  exact (proj1 (handle_client_contains_failures fruit_server
                  (with_recv quiet_world (Raise ConnectionResetError)) Hio Hsock)).
Defined.

(** ** The client, beyond the size check *)

Section ClientRuns.

Import client.

Implicit Types (w : World) (h : string) (p : Z) (s : str).

(** The body of the second [try] of [query_string], step by step. *)
Lemma query_string_plain h p s certfile w :
  let reply (payload : bytes) : result (bool * float * bytes) :=
    match w_sendall w payload with
    | Raise e => Raise e
    | Ret _ =>
        match w_recv w with
        | Raise e => Raise e
        | Ret data =>
            let data := take DEFAULT_MAX data in
            Ret (negb (sa.find data (b "STRING EXISTS") =? -1)%Z,
                 client.elapsed_ms (w_perf_counter w 0) (w_perf_counter w 1), data)
        end
    end in
  let attempt : result (bool * float * bytes) :=
    match w_connect w with
    | Raise e => Raise e
    | Ret _ =>
        match encode_utf8 s with
        | Raise e => Raise e
        | Ret payload =>
            if (DEFAULT_MAX <? length payload)%nat then Raise ValueError
            else reply payload
        end
    end in
  (query_string h p s false certfile w).1 =
    match w_close w with
    | Raise e' => if isinstance e' OSError then
                    match attempt with
                    | Ret r => Ret r
                    | Raise e =>
                        if isinstance e OSError || isinstance e ValueError
                        then Ret failure else Raise e
                    end
                  else Raise e'
    | Ret _ =>
        match attempt with
        | Ret r => Ret r
        | Raise e =>
            if isinstance e OSError || isinstance e ValueError
            then Ret failure else Raise e
        end
    end.
Proof.
  intros reply attempt. unfold query_string.
  rewrite bind_fst. simpl. rewrite finally_fst.
  assert ((try_ sock_close [ ([OSError], fun _ : exc => (mret tt : M unit)) ] w).1
          = match w_close w with
            | Ret _ => Ret tt
            | Raise e' => if isinstance e' OSError then Ret tt else Raise e'
            end) as ->.
  { rewrite try_fst. simpl. destruct (w_close w) as [[]|e']; [done|].
    by destruct (isinstance e' OSError). }
  rewrite try_fst.
  match goal with |- context [(?m w).1] => set (body := m) end.
  assert ((body w).1 = attempt) as ->.
  { unfold body, attempt, reply. rewrite bind_fst. simpl.
    destruct (w_connect w) as [[]|e]; [|done].
    rewrite bind_fst. simpl. destruct (encode_utf8 s) as [payload|e]; [|done].
    rewrite bind_fst. destruct (DEFAULT_MAX <? length payload)%nat; [done|].
    simpl. rewrite bind_fst. simpl. rewrite bind_fst. simpl.
    destruct (w_sendall w payload) as [[]|e]; [|done].
    rewrite bind_fst. simpl.
    destruct (w_recv w) as [data|e]; [|done].
    rewrite ?bind_fst. simpl. done. }
  assert (match attempt with
          | Ret a => Ret a
          | Raise e =>
              match lookup_handler
                [ ([ConnectionRefusedError], fun _ : exc =>
                     log ERROR "Connection refused by server at %s:%d";; mret failure);
                  ([socket_timeout], fun _ =>
                     log ERROR "Connection timed out to %s:%d";; mret failure);
                  ([ConnectionResetError], fun _ =>
                     log ERROR "Connection reset by server at %s:%d";; mret failure);
                  ([BrokenPipeError], fun _ =>
                     log ERROR "Broken pipe connecting to %s:%d";; mret failure);
                  ([SSLError], fun _ => log ERROR "SSL error: %s";; mret failure);
                  ([socket_gaierror], fun _ =>
                     log ERROR "Address resolution error for %s: %s";; mret failure);
                  ([ValueError], fun _ => log ERROR "Value error: %s";; mret failure);
                  ([OSError], fun _ => log ERROR "Socket error: %s";; mret failure) ] e with
              | Some h0 => (h0 e w).1
              | None => Raise e
              end
          end
          = match attempt with
            | Ret r => Ret r
            | Raise e =>
                if isinstance e OSError || isinstance e ValueError
                then Ret failure else Raise e
            end) as ->.
  { destruct attempt as [r|e]; [done|]. destruct e; reflexivity. }
  destruct (w_close w) as [[]|e']; [done|].
  destruct (isinstance e' OSError); [done|].
  by destruct attempt.
Qed.

Lemma query_string_trace_ok h p s certfile w payload data :
  w_connect w = Ret tt ->
  encode_utf8 s = Ret payload ->
  length payload <= DEFAULT_MAX ->
  w_sendall w payload = Ret tt ->
  w_recv w = Ret data ->
  (query_string h p s false certfile w).2 =
    [EvConnect h p; EvPerfCounter; EvSendall payload;
     EvRecv (Z.of_nat DEFAULT_MAX); EvPerfCounter; EvClose].
Proof.
  intros Hconn Henc Hlen Hsend Hrecv. unfold query_string.
  rewrite bind_snd. simpl. rewrite finally_snd, try_snd.
  match goal with |- context [(?m w).1] => set (body := m) end.
  assert ((body w).2 = [EvConnect h p; EvPerfCounter; EvSendall payload;
                        EvRecv (Z.of_nat DEFAULT_MAX); EvPerfCounter]
          /\ exists r, (body w).1 = Ret r) as [-> [r ->]].
  { unfold body. rewrite bind_snd, bind_fst. simpl. rewrite Hconn.
    rewrite bind_snd, bind_fst. simpl. rewrite Henc.
    rewrite bind_snd, bind_fst.
    destruct (Nat.ltb_spec DEFAULT_MAX (length payload)) as [?|_]; [lia|].
    simpl. rewrite bind_snd, bind_fst. simpl.
    rewrite bind_snd, bind_fst. simpl. rewrite Hsend.
    rewrite bind_snd, bind_fst. simpl. rewrite Hrecv.
    rewrite ?bind_snd, ?bind_fst. simpl. split; [done|]. by eexists. }
  rewrite app_nil_r, try_snd. simpl.
  by destruct (w_close w) as [[]|e]; simpl; [|destruct e].
Qed.

End ClientRuns.

(** X14: on a plain connection that stands, with a query that fits, the
    client sends the UTF-8 bytes of the query in one piece, reads one reply
    of at most 1024 bytes, closes the socket, and returns the reply together
    with the elapsed time, [(t1 - t0) * 1000.0] as [float] arithmetic rounds
    it, and a flag that is true exactly when [STRING EXISTS] occurs in the
    reply: true for the server's positive line, false for its negative
    line. *)
Theorem query_string_reads_reply (h : string) (p : Z) (s : str)
    (certfile : option string) (w : World) (payload data : bytes) :
  w_connect w = Ret tt ->
  encode_utf8 s = Ret payload ->
  length payload <= client.DEFAULT_MAX ->
  w_sendall w payload = Ret tt ->
  w_recv w = Ret data ->
  (forall e, w_close w = Raise e -> isinstance e OSError = true) ->
  let reply := take client.DEFAULT_MAX data in
  exists found : bool,
    (client.query_string h p s false certfile w).1
    = Ret (found, client.elapsed_ms (w_perf_counter w 0) (w_perf_counter w 1), reply)
    /\ (found = true <-> exists pre post, reply = pre ++ b "STRING EXISTS" ++ post)
    /\ (forall r, data = response r -> found = r)
    /\ sent (client.query_string h p s false certfile w).2 = [payload]
    /\ last (client.query_string h p s false certfile w).2 = Some EvClose.
Proof.
  intros Hconn Henc Hlen Hsend Hrecv Hclose reply.
  exists (negb (sa.find reply (b "STRING EXISTS") =? -1)%Z).
  split; [|split; [|split; [|split]]].
  - rewrite query_string_plain, Hconn, Henc, Hsend, Hrecv.
    destruct (Nat.ltb_spec client.DEFAULT_MAX (length payload)) as [?|_]; [lia|].
    destruct (w_close w) as [[]|e] eqn:Hc; [done|].
    by rewrite (Hclose e eq_refl).
  - rewrite negb_true_iff, Z.eqb_neq. apply find_from_occurs.
  - intros r ->. unfold reply. by destruct r; vm_compute.
  - by rewrite (query_string_trace_ok h p s certfile w payload data).
  - by rewrite (query_string_trace_ok h p s certfile w payload data).
Qed.

Lemma query_string_reads_reply_witness :
  let w := with_recv quiet_world (Ret STRING_NOT_FOUND) in
  (client.query_string "127.0.0.1" 44445 (u "pear") false None w).1
  = Ret (false, client.elapsed_ms (w_perf_counter w 0) (w_perf_counter w 1), STRING_NOT_FOUND).
Proof.
  assert (length (b "pear") <= client.DEFAULT_MAX) as Hlen by (vm_compute; lia).
  assert (forall e, w_close (with_recv quiet_world (Ret STRING_NOT_FOUND)) = Raise e ->
                    isinstance e OSError = true) as Hc by (intros e H; discriminate H).
  destruct (query_string_reads_reply "127.0.0.1" 44445 (u "pear") None
              (with_recv quiet_world (Ret STRING_NOT_FOUND)) (b "pear") STRING_NOT_FOUND
              eq_refl eq_refl Hlen eq_refl eq_refl Hc) as (found & Hr & _ & Hf & _).
  rewrite (Hf false eq_refl) in Hr. exact Hr.
Defined.

(** X15: on a plain connection [query_string] never raises when the
    socket fails with errors of the operating system: a failed [connect],
    [sendall] or [recv], and a query that cannot be encoded, all come back
    as the negative result with zero elapsed time and an empty reply. *)
Theorem query_string_contains_failures (h : string) (p : Z) (s : str)
    (certfile : option string) (w : World) :
  (forall e, w_connect w = Raise e -> isinstance e OSError = true) ->
  socket_failures_os w ->
  (exists r, (client.query_string h p s false certfile w).1 = Ret r)
  /\ ((exists e, w_connect w = Raise e)
      \/ (exists e, encode_utf8 s = Raise e)
      \/ (exists e, w_recv w = Raise e)
      \/ (exists payload e, encode_utf8 s = Ret payload
                             /\ w_sendall w payload = Raise e) ->
      (client.query_string h p s false certfile w).1 = Ret (false, 0%float, [])).
Proof.
  intros Hconn (Hrecv & Hsend & _ & Hclose).
  rewrite query_string_plain.
  assert (match w_close w with
          | Ret _ => True
          | Raise e' => isinstance e' OSError = true
          end) as Hc.
  { destruct (w_close w) as [[]|e'] eqn:E; [done|]. by apply Hclose. }
  assert (forall X (x : result X),
             match w_close w with
             | Ret _ => x
             | Raise e' => if isinstance e' OSError then x else Raise e'
             end = x) as Hcl.
  { intros X x. destruct (w_close w) as [[]|e']; [done|]. by rewrite Hc. }
  rewrite !Hcl. clear Hc Hcl.
  destruct (w_connect w) as [[]|e] eqn:Ec.
  2: { rewrite (Hconn e eq_refl). simpl. split; [by eexists|done]. }
  destruct (encode_utf8 s) as [payload|e] eqn:Ee.
  2: { apply encode_utf8_raises in Ee as ->. split; [by eexists|done]. }
  destruct (client.DEFAULT_MAX <? length payload)%nat.
  { split; [by eexists|done]. }
  destruct (w_sendall w payload) as [[]|e] eqn:Es.
  2: { rewrite (Hsend payload e Es). simpl. split; [by eexists|done]. }
  destruct (w_recv w) as [data|e] eqn:Er.
  2: { rewrite (Hrecv e eq_refl). simpl. split; [by eexists|done]. }
  split; [by eexists|].
  intros [[e ?] | [[e ?] | [[e ?] | (pl & e & [= <-] & ?)]]]; congruence.
Qed.

Lemma query_string_contains_failures_witness :
  let w := with_recv quiet_world (Raise socket_timeout) in
  (forall e, w_connect w = Raise e -> isinstance e OSError = true)
  /\ socket_failures_os w
  /\ (client.query_string "127.0.0.1" 44445 (u "apple") false None w).1
     = Ret (false, 0%float, []).
Proof.
  assert (forall e, w_connect (with_recv quiet_world (Raise socket_timeout)) = Raise e ->
                    isinstance e OSError = true) as Hconn
    by (intros e H; discriminate H).
  assert (socket_failures_os (with_recv quiet_world (Raise socket_timeout))) as Hsock.
  { split; [intros e [= <-]; reflexivity|].
    split; [intros d e H; discriminate H|].
    split; intros e H; discriminate H. }
  split; [exact Hconn|]. split; [exact Hsock|].
  apply (proj2 (query_string_contains_failures "127.0.0.1" 44445 (u "apple") None
                  (with_recv quiet_world (Raise socket_timeout)) Hconn Hsock)).
  right. right. left. by eexists.
Defined.

(** X16: with TLS requested, a failure of the TLS setup other than an
    [ssl.SSLError] or a [FileNotFoundError] -- an unreadable certificate
    file, say -- is not contained: it leaves [query_string] as an exception,
    before any connection attempt and without the socket being closed;
    the two contained kinds come back as the negative result. *)
Theorem query_string_tls_setup_failure (h : string) (p : Z) (s : str)
    (certfile : option string) (w : World) (e : exc) :
  w_client_tls w = Raise e ->
  client.query_string h p s true certfile w
  = if isinstance e SSLError then
      (Ret (false, 0%float, []),
       [EvClientTLS; EvLog ERROR "SSL context creation failed: %s"])
    else if isinstance e FileNotFoundError then
      (Ret (false, 0%float, []),
       [EvClientTLS; EvLog ERROR "SSL certificate file not found: %s"])
    else (Raise e, [EvClientTLS]).
Proof.
  intros He. unfold client.query_string, client.client_tls, mbind, M_bind, try_,
    syscall. simpl. rewrite He. simpl.
  destruct e; reflexivity.
Qed.

Lemma query_string_tls_setup_failure_witness :
  let w := with_client_tls quiet_world (Raise PermissionError) in
  w_client_tls w = Raise PermissionError
  /\ client.query_string "127.0.0.1" 44445 (u "apple") true (Some "ca.pem") w
     = (Raise PermissionError, [EvClientTLS]).
Proof.
  split; [reflexivity|].
  exact (query_string_tls_setup_failure "127.0.0.1" 44445 (u "apple") (Some "ca.pem")
           (with_client_tls quiet_world (Raise PermissionError)) PermissionError
           eq_refl).
Defined.

(** ** Trailing terminators and padding *)

Section Trailing.

Lemma rstrip_all {A} (p : A -> bool) (t : list A) :
  Forall (fun c => p c = true) t -> rstrip p t = [].
Proof.
  induction 1 as [|c t Hc _ IH]; simpl; [done|]. by rewrite IH, Hc.
Qed.

Lemma rstrip_app_tail {A} (p : A -> bool) (s t : list A) :
  Forall (fun c => p c = true) t -> rstrip p (s ++ t) = rstrip p s.
Proof.
  intros Ht. induction s as [|c s IH]; simpl; [by apply rstrip_all|].
  by rewrite IH.
Qed.

Lemma rstrip_keeps {A} (p : A -> bool) (s : list A) (c : A) :
  last s = Some c -> p c = false -> rstrip p s = s.
Proof.
  induction s as [|d s IH]; [done|]. intros Hl Hc. simpl.
  destruct s as [|d' s'].
  - simpl in *. injection Hl as ->. by rewrite Hc.
  - rewrite IH by done. done.
Qed.

Lemma seven_bit_not_cont (c : ascii) : seven_bit c -> is_cont (N_of_ascii c) = false.
Proof.
  unfold seven_bit, is_cont. intros H.
  destruct (N.leb_spec 0x80 (N_of_ascii c)); [lia|done].
Qed.

Lemma decode_seven_bit (tail : bytes) :
  Forall seven_bit tail -> decode_utf8_replace tail = N_of_ascii <$> tail.
Proof.
  induction 1 as [|c tail Hc _ IH]; [done|].
  cbn [decode_utf8_replace fmap list_fmap].
  unfold seven_bit in Hc. apply N.ltb_lt in Hc. rewrite Hc. by rewrite IH.
Qed.

(** Seven-bit bytes after any input decode to themselves: an incomplete
    sequence in front of them is replaced by the same single U+FFFD whether
    or not they follow. *)
Lemma decode_app_seven_bit (tail : bytes) :
  Forall seven_bit tail ->
  forall n raw, length raw <= n ->
    decode_utf8_replace (raw ++ tail)
    = decode_utf8_replace raw ++ (N_of_ascii <$> tail).
Proof.
  intros Htail.
  assert (match tail with
          | [] => True
          | t :: ts => is_cont (N_of_ascii t) = false
          end) as Hhead.
  { destruct Htail as [|t ts Ht _]; [done|]. by apply seven_bit_not_cont. }
  pose proof (decode_seven_bit tail Htail) as Hdec.
  induction n as [|n IH]; intros raw Hn.
  { destruct raw; [|simpl in Hn; lia]. exact Hdec. }
  destruct raw as [|a1 r1]; [exact Hdec|].
  simpl in Hn.
  assert (forall r, length r <= length r1 ->
            decode_utf8_replace (r ++ tail)
            = decode_utf8_replace r ++ (N_of_ascii <$> tail)) as IH'.
  { intros r Hr. apply IH. lia. }
  clear IH.
  change ((a1 :: r1) ++ tail) with (a1 :: (r1 ++ tail)).
  cbn [decode_utf8_replace].
  destruct (N_of_ascii a1 <? 0x80)%N; [by rewrite IH' by lia|].
  destruct (N_of_ascii a1 <? 0xC2)%N; [by rewrite IH' by lia|].
  destruct (N_of_ascii a1 <? 0xE0)%N.
  { destruct r1 as [|a2 r2].
    - simpl. destruct tail as [|t ts]; [done|]. by rewrite Hhead, Hdec.
    - change ((a2 :: r2) ++ tail) with (a2 :: (r2 ++ tail)). cbv iota.
      destruct (is_cont (N_of_ascii a2)).
      + simpl in IH'. by rewrite IH' by lia.
      + change (a2 :: (r2 ++ tail)) with ((a2 :: r2) ++ tail).
        by rewrite IH' by lia. }
  destruct (N_of_ascii a1 <? 0xF0)%N.
  { destruct r1 as [|a2 r2].
    - simpl. destruct tail as [|t ts]; [done|]. by rewrite Hhead, Hdec.
    - change ((a2 :: r2) ++ tail) with (a2 :: (r2 ++ tail)). cbv iota.
      destruct (negb (is_cont (N_of_ascii a2)) || _).
      + change (a2 :: (r2 ++ tail)) with ((a2 :: r2) ++ tail).
        by rewrite IH' by lia.
      + destruct r2 as [|a3 r3].
        * simpl. destruct tail as [|t ts]; [done|]. by rewrite Hhead, Hdec.
        * change ((a3 :: r3) ++ tail) with (a3 :: (r3 ++ tail)). cbv iota.
          destruct (is_cont (N_of_ascii a3)).
          -- simpl in IH'. by rewrite IH' by lia.
          -- change (a3 :: (r3 ++ tail)) with ((a3 :: r3) ++ tail).
             simpl in IH'. by rewrite IH' by (simpl; lia). }
  destruct (N_of_ascii a1 <? 0xF5)%N; [|by rewrite IH' by lia].
  destruct r1 as [|a2 r2].
  - simpl. destruct tail as [|t ts]; [done|]. by rewrite Hhead, Hdec.
  - change ((a2 :: r2) ++ tail) with (a2 :: (r2 ++ tail)). cbv iota.
    destruct (negb (is_cont (N_of_ascii a2)) || _).
    + change (a2 :: (r2 ++ tail)) with ((a2 :: r2) ++ tail).
      by rewrite IH' by lia.
    + destruct r2 as [|a3 r3].
      * simpl. destruct tail as [|t ts]; [done|]. by rewrite Hhead, Hdec.
      * change ((a3 :: r3) ++ tail) with (a3 :: (r3 ++ tail)). cbv iota.
        destruct (negb (is_cont (N_of_ascii a3))).
        -- change (a3 :: (r3 ++ tail)) with ((a3 :: r3) ++ tail).
           simpl in IH'. by rewrite IH' by (simpl; lia).
        -- destruct r3 as [|a4 r4].
           ++ simpl. destruct tail as [|t ts]; [done|]. by rewrite Hhead, Hdec.
           ++ change ((a4 :: r4) ++ tail) with (a4 :: (r4 ++ tail)). cbv iota.
              destruct (is_cont (N_of_ascii a4)).
              ** simpl in IH'. by rewrite IH' by lia.
              ** change (a4 :: (r4 ++ tail)) with ((a4 :: r4) ++ tail).
                 simpl in IH'. by rewrite IH' by (simpl; lia).
Qed.

End Trailing.

(** X17: line terminators and NUL padding after a request are optional.
    When the request is a payload that does not itself end in NUL, followed
    by any run of carriage returns and line feeds and then by any run of NUL
    bytes, all within [max_payload] (itself a size that [recv] accepts), the
    handler searches for the same query as for the bare payload and answers
    accordingly. *)
Theorem request_terminators_optional (self : TCPServer) (w : World)
    (payload tail pad : bytes) :
  (length (payload ++ tail ++ pad) <= Z.to_nat (max_payload (srv_cfg self))) ->
  (0 <= max_payload (srv_cfg self) <= RECV_MAX)%Z ->
  w_recv w = Ret (payload ++ tail ++ pad) ->
  last payload <> Some NUL ->
  Forall (fun c => c = CR \/ c = LF) tail ->
  Forall (fun c => c = NUL) pad ->
  exists raw,
    (safe_recv (max_payload (srv_cfg self)) w).1 = Ret raw
    /\ decode_query raw = decode_query payload
    /\ sent (_handle_client self w).2
       = match (search (searcher self) (decode_query payload) w).1 with
         | Ret found => [response found]
         | Raise _ => []
         end.
Proof.
  intros Hlen Hmax Hrecv Hlast Htail Hpad.
  set (raw := rstrip is_NUL (payload ++ tail)).
  assert ((safe_recv (max_payload (srv_cfg self)) w).1 = Ret raw) as Hraw.
  { rewrite (safe_recv_accepted _ w _ Hmax Hrecv).
    rewrite take_ge by done. unfold raw. rewrite app_assoc.
    rewrite rstrip_app_tail; [done|].
    eapply Forall_impl; [exact Hpad|]. intros c ->. reflexivity. }
  assert (Forall seven_bit tail) as H7.
  { eapply Forall_impl; [exact Htail|]. intros c [-> | ->]; by vm_compute. }
  assert (Forall (fun c => is_CRLF c = true) (N_of_ascii <$> tail)) as Hcrlf.
  { apply Forall_fmap. eapply Forall_impl; [exact Htail|].
    intros c [-> | ->]; reflexivity. }
  assert (decode_query raw = decode_query payload) as Hq.
  { unfold raw. destruct tail as [|t ts] using rev_ind.
    - rewrite app_nil_r. destruct (last payload) as [c|] eqn:El.
      + rewrite (rstrip_keeps is_NUL payload c El); [done|].
        unfold is_NUL. apply bool_decide_eq_false_2. congruence.
      + apply last_None in El. by subst payload.
    - clear IHts.
      rewrite (rstrip_keeps is_NUL (payload ++ ts ++ [t]) t).
      + unfold decode_query.
        rewrite (decode_app_seven_bit _ H7 (length payload) payload) by done.
        by rewrite rstrip_app_tail.
      + by rewrite app_assoc, last_snoc.
      + apply Forall_app in Htail as [_ Ht]. inversion Ht as [|? ? [-> | ->] _]; done. }
  exists raw. split; [done|]. split; [done|].
  by rewrite handle_client_sent, Hraw, Hq.
Qed.

Lemma request_terminators_optional_witness :
  let w := with_recv fruit_world (Ret (b "banana" ++ [CR; LF] ++ [NUL; NUL; NUL])) in
  sent (_handle_client fruit_server w).2 = [STRING_EXISTS].
Proof.
  assert (length (b "banana" ++ [CR; LF] ++ [NUL; NUL; NUL])
          <= Z.to_nat (max_payload (srv_cfg fruit_server))) as Hlen
    by (vm_compute; lia).
  assert (0 <= max_payload (srv_cfg fruit_server) <= RECV_MAX)%Z as Hmax
    by (vm_compute; split; discriminate).
  assert (last (b "banana") <> Some NUL) as Hlast by (vm_compute; discriminate).
  assert (Forall (fun c => c = CR \/ c = LF) [CR; LF]) as Htail
    by (repeat constructor; auto).
  assert (Forall (fun c => c = NUL) [NUL; NUL; NUL]) as Hpad
    by (repeat constructor).
  destruct (request_terminators_optional fruit_server
              (with_recv fruit_world (Ret (b "banana" ++ [CR; LF] ++ [NUL; NUL; NUL])))
              (b "banana") [CR; LF] [NUL; NUL; NUL]
              Hlen Hmax eq_refl Hlast Htail Hpad) as (raw & _ & _ & Hs).
  cbv zeta. rewrite Hs. vm_compute. reflexivity.
Defined.

(** ** UTF-8 there and back *)

Section RoundTrip.

Lemma N_of_byte_of (n : N) : (n < 256)%N -> N_of_ascii (byte_of n) = n.
Proof. apply N_ascii_embedding. Qed.

Ltac decide_bools :=
  repeat match goal with
         | |- context [(?a <? ?c)%N] => destruct (N.ltb_spec a c); try lia
         | |- context [(?a <=? ?c)%N] => destruct (N.leb_spec a c); try lia
         | |- context [(?a =? ?c)%N] => destruct (N.eqb_spec a c); try lia
         end.

(** The bytes of one code point decode to that code point. *)
Lemma decode_encode_cp (c : N) (bs rest : bytes) :
  encode_cp c = Ret bs ->
  decode_utf8_replace (bs ++ rest) = c :: decode_utf8_replace rest.
Proof.
  unfold encode_cp.
  pose proof (N.div_mod' c 64) as H1. pose proof (N.mod_lt c 64 ltac:(lia)) as H1'.
  pose proof (N.div_mod' (c / 64) 64) as H2. pose proof (N.mod_lt (c / 64) 64 ltac:(lia)) as H2'.
  pose proof (N.div_mod' (c / 64 / 64) 64) as H3.
  pose proof (N.mod_lt (c / 64 / 64) 64 ltac:(lia)) as H3'.
  change 0x40%N with 64%N.
  replace (c / 0x1000)%N with (c / 64 / 64)%N by (by rewrite N.Div0.div_div).
  replace (c / 0x40000)%N with (c / 64 / 64 / 64)%N
    by (by rewrite !N.Div0.div_div).
  set (q1 := (c / 64)%N) in *. set (r1 := (c mod 64)%N) in *.
  set (q2 := (q1 / 64)%N) in *. set (r2 := (q1 mod 64)%N) in *.
  set (q3 := (q2 / 64)%N) in *. set (r3 := (q2 mod 64)%N) in *.
  destruct (N.ltb_spec c 0x80).
  { intros [= <-]. cbn [app decode_utf8_replace].
    rewrite N_of_byte_of by lia. by decide_bools. }
  destruct (N.ltb_spec c 0x800).
  { intros [= <-]. cbn [app decode_utf8_replace]. unfold is_cont.
    rewrite !N_of_byte_of by lia. decide_bools. f_equal. lia. }
  destruct ((0xD800 <=? c)%N && (c <? 0xE000)%N) eqn:Hsur; [done|].
  apply andb_false_iff in Hsur.
  assert (c < 0xD800 \/ 0xE000 <= c)%N as Hns.
  { destruct Hsur as [Hlo%N.leb_gt | Hhi%N.ltb_ge]; lia. }
  clear Hsur.
  destruct (N.ltb_spec c 0x10000).
  { intros [= <-]. cbn [app decode_utf8_replace]. unfold is_cont.
    rewrite !N_of_byte_of by lia. decide_bools; cbn [negb orb]; f_equal; lia. }
  destruct (N.ltb_spec c 0x110000); [|done].
  intros [= <-]. cbn [app decode_utf8_replace]. unfold is_cont.
  rewrite !N_of_byte_of by lia. decide_bools; cbn [negb orb]; f_equal; lia.
Qed.

(** [s.encode("utf-8").decode("utf-8", errors="replace") == s] *)
Lemma decode_encode (s : str) (payload : bytes) :
  encode_utf8 s = Ret payload -> decode_utf8_replace payload = s.
Proof.
  revert payload. induction s as [|c s IH]; intros payload; simpl.
  - by intros [= <-].
  - destruct (encode_cp c) as [bs|e] eqn:Hc; [|done].
    destruct (encode_utf8 s) as [rest|e]; [|done]. intros [= <-].
    rewrite (decode_encode_cp c bs rest Hc). f_equal. by apply IH.
Qed.

End RoundTrip.

(** X18: what the client sends is what the server searches for.  When
    the query can be encoded, fits into [max_payload] (itself a size that
    [recv] accepts), and ends neither in a
    carriage return or line feed nor in U+0000, and the bytes the client
    sends arrive in one read, the handler decodes them back to the very
    same string and answers with the line for the result of searching it. *)
Theorem query_arrives_unchanged (self : TCPServer) (w : World) (s : str)
    (payload : bytes) :
  encode_utf8 s = Ret payload ->
  length payload <= Z.to_nat (max_payload (srv_cfg self)) ->
  (0 <= max_payload (srv_cfg self) <= RECV_MAX)%Z ->
  w_recv w = Ret payload ->
  last s <> Some 13%N -> last s <> Some 10%N -> last s <> Some 0%N ->
  exists raw,
    (safe_recv (max_payload (srv_cfg self)) w).1 = Ret raw
    /\ decode_query raw = s
    /\ sent (_handle_client self w).2
       = match (search (searcher self) s w).1 with
         | Ret found => [response found]
         | Raise _ => []
         end.
Proof.
  intros Henc Hlen Hmax Hrecv Hcr Hlf Hnul.
  pose proof (decode_encode s payload Henc) as Hdec.
  assert (rstrip is_NUL payload = payload) as Hraw.
  { destruct (last payload) as [c|] eqn:El.
    - apply (rstrip_keeps is_NUL payload c El).
      unfold is_NUL. apply bool_decide_eq_false_2. intros ->.
      destruct payload as [|c0 p0] using rev_ind; [done|]. clear IHp0.
      assert (Forall seven_bit [NUL]) as H7 by (repeat constructor; by vm_compute).
      rewrite last_snoc in El. injection El as ->.
      rewrite (decode_app_seven_bit [NUL] H7 (length p0) p0) in Hdec by done.
      apply Hnul. rewrite <- Hdec.
      change (N_of_ascii <$> [NUL]) with [0%N]. by rewrite last_snoc.
    - apply last_None in El. by subst payload. }
  assert (rstrip is_CRLF s = s) as Hq.
  { destruct (last s) as [c|] eqn:El.
    - apply (rstrip_keeps is_CRLF s c El). unfold is_CRLF.
      destruct (N.eqb_spec c 13) as [->|_]; [done|].
      destruct (N.eqb_spec c 10) as [->|_]; done.
    - apply last_None in El. by subst s. }
  exists payload.
  assert ((safe_recv (max_payload (srv_cfg self)) w).1 = Ret payload) as Hsr.
  { rewrite (safe_recv_accepted _ w _ Hmax Hrecv).
    by rewrite take_ge, Hraw by done. }
  assert (decode_query payload = s) as Hdq.
  { unfold decode_query. by rewrite Hdec. }
  split; [done|]. split; [done|].
  by rewrite handle_client_sent, Hsr, Hdq.
Qed.

Lemma query_arrives_unchanged_witness :
  let s := [0x63; 0x61; 0x66; 0xE9; 0x20AC]%N in
  let payload := [byte_of 0x63; byte_of 0x61; byte_of 0x66; byte_of 0xC3;
                  byte_of 0xA9; byte_of 0xE2; byte_of 0x82; byte_of 0xAC] in
  encode_utf8 s = Ret payload
  /\ exists raw,
       (safe_recv (max_payload (srv_cfg fruit_server))
          (with_recv fruit_world (Ret payload))).1 = Ret raw
       /\ decode_query raw = s.
Proof.
  cbv zeta.
  assert (encode_utf8 [0x63; 0x61; 0x66; 0xE9; 0x20AC]%N
          = Ret [byte_of 0x63; byte_of 0x61; byte_of 0x66; byte_of 0xC3;
                 byte_of 0xA9; byte_of 0xE2; byte_of 0x82; byte_of 0xAC]) as Henc
    by (vm_compute; reflexivity).
  split; [exact Henc|].
  destruct (query_arrives_unchanged fruit_server
              (with_recv fruit_world
                 (Ret [byte_of 0x63; byte_of 0x61; byte_of 0x66; byte_of 0xC3;
                       byte_of 0xA9; byte_of 0xE2; byte_of 0x82; byte_of 0xAC]))
              [0x63; 0x61; 0x66; 0xE9; 0x20AC]%N _ Henc)
    as (raw & Hraw & Hq & _);
    [vm_compute; lia | vm_compute; split; discriminate | reflexivity
     | vm_compute; discriminate | vm_compute; discriminate
     | vm_compute; discriminate |].
  exists raw. split; [exact Hraw|exact Hq].
Defined.

(** ** Reading back what was written *)

Section ReadBack.

Lemma universal_newlines_id (s : str) : 13%N ∉ s -> universal_newlines s = s.
Proof.
  induction s as [|c s IH]; [done|]. intros Hs. simpl.
  destruct (N.eqb_spec c 13) as [->|_]; [exfalso; apply Hs; by left|].
  rewrite IH; [done|]. intros H. apply Hs. by right.
Qed.

Lemma iter_lines_line (cur l rest : str) :
  10%N ∉ l ->
  iter_lines cur (l ++ 10%N :: rest) = (cur ++ l ++ [10%N]) :: iter_lines [] rest.
Proof.
  revert cur. induction l as [|c l IH]; intros cur Hl; simpl.
  - done.
  - destruct (N.eqb_spec c 10) as [->|_]; [exfalso; apply Hl; by left|].
    rewrite IH; [|intros H; apply Hl; by right].
    by rewrite <- app_assoc.
Qed.

Lemma iter_lines_rest (cur l : str) :
  10%N ∉ l ->
  iter_lines cur l = match cur ++ l with [] => [] | _ => [cur ++ l] end.
Proof.
  revert cur. induction l as [|c l IH]; intros cur Hl; simpl.
  - by rewrite app_nil_r.
  - destruct (N.eqb_spec c 10) as [->|_]; [exfalso; apply Hl; by left|].
    rewrite IH; [|intros H; apply Hl; by right].
    rewrite <- app_assoc. simpl. by destruct cur.
Qed.

Lemma iter_lines_text (lines : list str) (rest : str) :
  Forall no_newline lines -> no_newline rest ->
  iter_lines [] (text_of_lines lines rest)
  = ((fun l => l ++ [10%N]) <$> lines) ++ match rest with [] => [] | _ => [rest] end.
Proof.
  intros Hl [Hr _]. unfold text_of_lines.
  induction Hl as [|l lines [Hl _] _ IH].
  - simpl. by rewrite iter_lines_rest.
  - rewrite fmap_cons. cbn [concat]. rewrite <- !app_assoc.
    change ([10%N] ++ ?x) with (10%N :: x).
    rewrite iter_lines_line by done. rewrite IH. done.
Qed.

Lemma rstrip_LF_line (l : str) : 10%N ∉ l -> rstrip is_LF (l ++ [10%N]) = l.
Proof.
  intros Hl. rewrite rstrip_app_tail by (by repeat constructor).
  destruct (last l) as [c|] eqn:El.
  - apply (rstrip_keeps is_LF l c El). unfold is_LF.
    destruct (N.eqb_spec c 10) as [->|_]; [|done].
    exfalso. apply Hl. by apply last_Some_elem_of.
  - apply last_None in El. by subst l.
Qed.

Lemma rstrip_LF_rest (l : str) : 10%N ∉ l -> rstrip is_LF l = l.
Proof.
  intros Hl. destruct (last l) as [c|] eqn:El.
  - apply (rstrip_keeps is_LF l c El). unfold is_LF.
    destruct (N.eqb_spec c 10) as [->|_]; [|done].
    exfalso. apply Hl. by apply last_Some_elem_of.
  - apply last_None in El. by subst l.
Qed.

Lemma text_of_lines_no_CR (lines : list str) (rest : str) :
  Forall no_newline lines -> no_newline rest -> 13%N ∉ text_of_lines lines rest.
Proof.
  intros Hl [_ Hr]. unfold text_of_lines.
  induction Hl as [|l lines [_ Hl] _ IH]; [done|].
  rewrite fmap_cons. cbn [concat]. rewrite <- !app_assoc.
  rewrite elem_of_app, elem_of_app. intros [H | [H | H]]; [done| |done].
  apply list_elem_of_singleton in H. done.
Qed.

Lemma file_lines_text (lines : list str) (rest : str) (data : bytes) :
  encode_utf8 (text_of_lines lines rest) = Ret data ->
  Forall no_newline lines -> no_newline rest ->
  file_lines data = lines ++ match rest with [] => [] | _ => [rest] end.
Proof.
  intros Henc Hl Hr. unfold file_lines.
  rewrite (decode_encode _ _ Henc).
  rewrite universal_newlines_id by by apply text_of_lines_no_CR.
  rewrite iter_lines_text by done. rewrite fmap_app. f_equal.
  - rewrite <- list_fmap_compose.
    rewrite <- (list_fmap_id lines) at 2. apply Forall_fmap_ext_1.
    eapply Forall_impl; [exact Hl|]. intros l [H _]. simpl. by apply rstrip_LF_line.
  - destruct rest as [|c r]; [done|]. simpl fmap. f_equal.
    apply (rstrip_LF_rest (c :: r)). apply Hr.
Qed.

End ReadBack.

(** X19: a dataset written as lines that hold no carriage return or line
    feed, each followed by a line feed, with possibly a last line that has
    none, is read back by both loaders as exactly those lines, in order for
    the sequence, as their set for the set; an empty file gives no lines. *)
Theorem loaders_read_back (path : string) (w : World) (lines : list str) (rest : str)
    (data : bytes) :
  n_read (w_fs w path) = Ret data ->
  encode_utf8 (text_of_lines lines rest) = Ret data ->
  Forall no_newline lines -> no_newline rest ->
  let all := lines ++ match rest with [] => [] | _ => [rest] end in
  (sa.load_lines_list path w).1 = Ret all
  /\ (sa.load_lines_set path w).1 = Ret (list_to_set all).
Proof.
  intros Hrd Henc Hl Hr all.
  rewrite load_lines_list_fst, load_lines_set_fst, Hrd.
  by rewrite (file_lines_text lines rest data Henc Hl Hr).
Qed.

Lemma loaders_read_back_witness :
  let lines := [u "b b"; []; u "a"; u "b b"] in
  let w := with_file quiet_world "data.txt"
             (regular_file (b "b b" ++ [LF; LF] ++ b "a" ++ [LF] ++ b "b b" ++ [LF] ++ b "end")) in
  (sa.load_lines_list "data.txt" w).1 = Ret (lines ++ [u "end"]).
Proof.
  cbv zeta.
  assert (Forall no_newline [u "b b"; []; u "a"; u "b b"]) as Hl.
  { repeat constructor; vm_compute; intros H;
      repeat (apply elem_of_cons in H as [H|H]; [discriminate H|]);
      by apply elem_of_nil in H. }
  assert (no_newline (u "end")) as Hr.
  { split; vm_compute; intros H;
      repeat (apply elem_of_cons in H as [H|H]; [discriminate H|]);
      by apply elem_of_nil in H. }
  exact (proj1 (loaders_read_back "data.txt"
                  (with_file quiet_world "data.txt"
                     (regular_file (b "b b" ++ [LF; LF] ++ b "a" ++ [LF] ++ b "b b" ++ [LF] ++ b "end")))
                  [u "b b"; []; u "a"; u "b b"] (u "end") _
                  eq_refl ltac:(vm_compute; reflexivity) Hl Hr)).
Defined.

(** X20: the memory-mapped strategy has no false negatives on terminated
    lines: in a dataset written as lines each followed by a line feed (and
    possibly an unterminated last line), every one of those lines is
    answered true. *)
Theorem mmap_search_finds_terminated_lines (path : string) (needle : str) (w : World)
    (lines : list str) (rest : str) (data : bytes) :
  w_fs w path = regular_file data ->
  encode_utf8 (text_of_lines lines rest) = Ret data ->
  needle ∈ lines ->
  (sa.mmap_search path needle w).1 = Ret true.
Proof.
  intros Hfs Henc Hin.
  apply list_elem_of_split in Hin as (l1 & l2 & ->).
  unfold text_of_lines in Henc.
  rewrite fmap_app, concat_app in Henc. simpl in Henc.
  rewrite <- !app_assoc in Henc.
  rewrite encode_utf8_app in Henc.
  destruct (encode_utf8 (concat _)) as [pre|e]; [|done].
  rewrite encode_utf8_app in Henc.
  destruct (encode_utf8 needle) as [nb|e] eqn:Hn; [|done].
  change (encode_utf8 ([10%N] ++ ?x)) with (encode_utf8 (10%N :: x)) in Henc.
  cbn [encode_utf8] in Henc.
  change (encode_cp 10) with (Ret [LF] : result bytes) in Henc.
  destruct (encode_utf8 (concat _ ++ rest)) as [post|e]; [|done].
  injection Henc as <-.
  assert (exists c d, pre ++ nb ++ LF :: post = c :: d) as (c & d & Ed).
  { destruct pre; [destruct nb|]; simpl; eauto. }
  assert (sa.find (c :: d) (nb ++ [LF]) <> (-1)%Z) as Hfind.
  { apply find_from_occurs. exists pre, post. by rewrite <- Ed, <- !app_assoc. }
  rewrite mmap_search_fst, Hfs, Ed. cbn [regular_file n_exists n_getsize n_read negb length].
  cbn [Nat.eqb]. rewrite encode_utf8_app, Hn.
  change (encode_utf8 [10%N]) with (Ret [LF] : result bytes). cbv iota beta.
  f_equal. by apply negb_true_iff, Z.eqb_neq.
Qed.

Lemma mmap_search_finds_terminated_lines_witness :
  encode_utf8 (text_of_lines [u "apple"; u "banana"; u "cherry"] []) = Ret fruit
  /\ u "banana" ∈ [u "apple"; u "banana"; u "cherry"]
  /\ (sa.mmap_search "data.txt" (u "banana") fruit_world).1 = Ret true.
Proof.
  assert (u "banana" ∈ [u "apple"; u "banana"; u "cherry"]) as Hin
    by (right; left).
  split; [vm_compute; reflexivity|]. split; [exact Hin|].
  exact (mmap_search_finds_terminated_lines "data.txt" (u "banana") fruit_world
           [u "apple"; u "banana"; u "cherry"] [] fruit
           eq_refl ltac:(vm_compute; reflexivity) Hin).
Defined.

(** ** Binary search without the precondition *)

(** X21: sorted or not, comparable or not, [binary_search_sorted] has no
    false positives: when it answers true the query is an element of the
    list. *)
Theorem binary_search_sorted_sound (lines : list pyval) (needle : pyval) (w : World) :
  (sa.binary_search_sorted lines needle w).1 = Ret true -> needle ∈ lines.
Proof.
  rewrite binary_search_sorted_returns.
  destruct (bisect_left lines needle) as [i|e]; [|done].
  intros [= H]. apply bool_decide_eq_true in H.
  by eapply list_elem_of_lookup_2.
Qed.

Lemma binary_search_sorted_sound_witness :
  (sa.binary_search_sorted (PStr <$> [u "pear"; u "apple"; u "fig"]) (PStr (u "fig"))
     quiet_world).1 = Ret true
  /\ PStr (u "fig") ∈ (PStr <$> [u "pear"; u "apple"; u "fig"]).
Proof.
  assert ((sa.binary_search_sorted (PStr <$> [u "pear"; u "apple"; u "fig"])
             (PStr (u "fig")) quiet_world).1 = Ret true) as H
    by (vm_compute; reflexivity).
  split; [exact H|].
  exact (binary_search_sorted_sound _ _ _ H).
Defined.

(** ** Start-up with TLS *)

(** X22: with TLS enabled and certificate and key in place, [start]
    loads the certificate chain and wraps the listening socket after [bind]
    and [listen] and before the first [accept], with TLS 1.0 and 1.1
    switched off in the context; it then serves and closes the socket at the
    end. *)
Theorem start_tls_then_serves (self : TCPServer) (w : World) (c k : string) :
  ssl_enabled (srv_cfg self) = true ->
  ssl_certfile (srv_cfg self) = Some c -> ssl_keyfile (srv_cfg self) = Some k ->
  c <> "" -> k <> "" ->
  w_bind w = Ret tt -> w_listen w = Ret tt ->
  w_load_cert_chain w c k = Ret tt -> w_wrap_socket w = Ret tt ->
  accept_failures_os (w_accepts w) ->
  (forall e, w_close w = Raise e -> isinstance e OSError = true) ->
  exists options,
    (start self w).1 = Ret tt
    /\ (start self w).2 =
         [EvLog INFO "Starting server on %s:%d SSL=%s";
          EvBind (host (srv_cfg self)) (port (srv_cfg self)); EvListen 50;
          EvLoadCertChain c k; EvWrapSocket options]
         ++ (accept_loop (w_accepts w) w).2 ++ [EvClose]
    /\ Z.land options OP_NO_TLSv1 = OP_NO_TLSv1
    /\ Z.land options OP_NO_TLSv1_1 = OP_NO_TLSv1_1.
Proof.
  intros Hssl Hc Hk Hcn Hkn Hb Hl Hload Hwrap Hos Hclose.
  destruct (accept_loop_threads (w_accepts w) w Hos) as (Hr & _).
  exists (Z.lor (w_ssl_default_options w) (Z.lor OP_NO_TLSv1 OP_NO_TLSv1_1)).
  assert ((start self w).2 =
            [EvLog INFO "Starting server on %s:%d SSL=%s";
             EvBind (host (srv_cfg self)) (port (srv_cfg self)); EvListen 50;
             EvLoadCertChain c k;
             EvWrapSocket (Z.lor (w_ssl_default_options w)
                             (Z.lor OP_NO_TLSv1 OP_NO_TLSv1_1))]
            ++ (accept_loop (w_accepts w) w).2 ++ [EvClose]
          /\ (start self w).1 = Ret tt) as [Htr Hres].
  { unfold start.
    match goal with
    | |- context [try_ ?m ?hs ≫= ?k] => set (setup := try_ m hs); set (cont := k)
    end.
    assert (setup w = (Ret true,
                       [EvBind (host (srv_cfg self)) (port (srv_cfg self));
                        EvListen 50; EvLoadCertChain c k;
                        EvWrapSocket (Z.lor (w_ssl_default_options w)
                                        (Z.lor OP_NO_TLSv1 OP_NO_TLSv1_1))])) as Hsetup.
    { unfold setup, try_, mbind, M_bind, sock_bind, sock_listen, syscall. simpl.
      rewrite Hb. simpl. rewrite Hl, Hssl. simpl.
      unfold wrap_socket_if_needed, truthy. rewrite Hc, Hk. simpl.
      rewrite !bool_decide_eq_false_2 by done. simpl.
      unfold create_server_ssl_context, mbind, M_bind, syscall. simpl.
      by rewrite Hload, Hwrap. }
    pose proof (close_listener w Hclose) as Hfin.
    rewrite !bind_snd, !bind_fst. unfold log at 1 2 3. cbn [fst snd].
    rewrite Hsetup. cbn [fst snd]. unfold cont.
    rewrite finally_snd, finally_fst, Hfin. cbn [fst snd]. by rewrite Hr. }
  split; [done|]. split; [done|].
  split; [apply lor3_has_second|apply lor3_has_third].
Qed.

Lemma start_tls_then_serves_witness :
  let w := with_accepts quiet_world [Accepted] in
  let srv := server_of (tls_config (Some "cert.pem") (Some "key.pem")) in
  accept_failures_os (w_accepts w)
  /\ exists options,
       (start srv w).1 = Ret tt
       /\ (start srv w).2 =
            [EvLog INFO "Starting server on %s:%d SSL=%s";
             EvBind (host (srv_cfg srv)) (port (srv_cfg srv)); EvListen 50;
             EvLoadCertChain "cert.pem" "key.pem"; EvWrapSocket options]
            ++ (accept_loop (w_accepts w) w).2 ++ [EvClose]
       /\ Z.land options OP_NO_TLSv1 = OP_NO_TLSv1
       /\ Z.land options OP_NO_TLSv1_1 = OP_NO_TLSv1_1.
Proof.
  cbv zeta.
  assert (accept_failures_os [Accepted]) as Hos by (repeat constructor).
  split; [exact Hos|].
  refine (start_tls_then_serves
            (server_of (tls_config (Some "cert.pem") (Some "key.pem")))
            (with_accepts quiet_world [Accepted]) "cert.pem" "key.pem"
            eq_refl eq_refl eq_refl _ _ eq_refl eq_refl eq_refl eq_refl Hos _).
  - discriminate.
  - discriminate.
  - intros e H. discriminate H.
Defined.
